(** * Legal assistant: segmenter and hybrid store

    A shallow embedding of the two parts of the repository that carry real
    logic:

    - the article segmenter inlined in
      [LexBGScraper.extract_law_content] (src/scraper/labor_law_scraper.py),
    - the relational/vector store operations of [HybridDatabaseManager]
      (src/database/db_manager.py) over the tables of
      src/database/schema.py.

    Python [str] values are sequences of Unicode code points; [len],
    [startswith], [strip], [split] and the [re] module all work on code
    points, so a string is modelled as a list of code points. *)

From stdpp Require Import base numbers list gmap.
From Stdlib Require Import Sorting.Sorted.

Set Default Proof Using "Type".

(** ** Python strings *)

Module PyStr.

Definition str := list N.

(** Code points for which [str.isspace] holds (and which [\s] matches in a
    [str] pattern): the ranges of CPython's Unicode database. *)
Definition whitespace_ranges : list (N * N) :=
  [ (9, 13); (28, 32); (133, 133); (160, 160); (5760, 5760);
    (8192, 8202); (8232, 8233); (8239, 8239); (8287, 8287);
    (12288, 12288) ]%N.

(** First code points of the ten-digit blocks of general category [Nd]
    (Unicode 14, the database of CPython 3.11), which is what [\d] matches
    in a [str] pattern. *)
Definition decimal_blocks : list N :=
  [ 48; 1632; 1776; 1984; 2406; 2534; 2662; 2790; 2918; 3046; 3174; 3302;
    3430; 3558; 3664; 3792; 3872; 4160; 4240; 6112; 6160; 6470; 6608; 6784;
    6800; 6992; 7088; 7232; 7248; 42528; 43216; 43264; 43472; 43504; 43600;
    44016; 65296; 66720; 68912; 69734; 69872; 69942; 70096; 70384; 70736;
    70864; 71248; 71360; 71472; 71904; 72016; 72784; 73040; 73120; 92768;
    92864; 93008; 120782; 120792; 120802; 120812; 120822; 123200; 123632;
    125264; 130032 ]%N.

Definition in_range (c : N) (r : N * N) : bool :=
  ((fst r <=? c) && (c <=? snd r))%N.

Definition isspace (c : N) : bool := existsb (in_range c) whitespace_ranges.

Definition isdecimal (c : N) : bool :=
  existsb (fun b => in_range c (b, b + 9)%N) decimal_blocks.

(** The class [[а-я]]: U+0430 .. U+044F. *)
Definition is_cyrillic_lower (c : N) : bool := in_range c (1072, 1103)%N.

Fixpoint take_while (p : N -> bool) (s : str) : str :=
  match s with
  | c :: s' => if p c then c :: take_while p s' else []
  | [] => []
  end.

Fixpoint drop_while (p : N -> bool) (s : str) : str :=
  match s with
  | c :: s' => if p c then drop_while p s' else s
  | [] => []
  end.

Definition lstrip (s : str) : str := drop_while isspace s.
Definition rstrip (s : str) : str := rev (drop_while isspace (rev s)).

(** [s.strip()] *)
Definition strip (s : str) : str := rstrip (lstrip s).

(** [s.startswith(p)] *)
Fixpoint startswith (s p : str) {struct p} : bool :=
  match p, s with
  | [], _ => true
  | _ :: _, [] => false
  | a :: p', b :: s' => (a =? b)%N && startswith s' p'
  end.

(** [needle in s] *)
Fixpoint contains (s needle : str) : bool :=
  startswith s needle ||
  match s with
  | [] => false
  | _ :: s' => contains s' needle
  end.

(** [s.split("\n")]: the pieces between line feeds; always at least one. *)
Fixpoint split_lines (s : str) : list str :=
  match s with
  | [] => [[]]
  | c :: s' =>
      if (c =? 10)%N then [] :: split_lines s'
      else match split_lines s' with
           | l :: ls => (c :: l) :: ls
           | [] => [[c]]
           end
  end.

(** [s.split()]: the maximal runs of non-whitespace. *)
Fixpoint split_ws_aux (cur : str) (s : str) : list str :=
  match s with
  | [] => match cur with [] => [] | _ => [rev cur] end
  | c :: s' =>
      if isspace c
      then match cur with
           | [] => split_ws_aux [] s'
           | _ => rev cur :: split_ws_aux [] s'
           end
      else split_ws_aux (c :: cur) s'
  end.

Definition split_ws (s : str) : list str := split_ws_aux [] s.

(** Truthiness of a string: non-empty. *)
Definition truthy (s : str) : bool :=
  match s with [] => false | _ => true end.

(** [a <= b] on strings: lexicographic on code points.  SQLite compares
    TEXT values with the BINARY collation, [memcmp] on the UTF-8 bytes,
    which orders strings exactly as their code points do. *)
Fixpoint str_le (a b : str) : bool :=
  match a, b with
  | [], _ => true
  | _ :: _, [] => false
  | x :: a', y :: b' => (x <? y)%N || ((x =? y)%N && str_le a' b')
  end.

(** A string is [trimmed] when it is non-empty and neither its first nor
    its last code point is whitespace. *)
Definition trimmed (s : str) : Prop :=
  (exists c t, s = c :: t /\ isspace c = false) /\
  (exists t c, s = t ++ [c] /\ isspace c = false).

End PyStr.

(** ** The segmenter of [LexBGScraper.extract_law_content] *)

Module Scraper.
Import PyStr.

(** ["Чл."] *)
Definition marker_abbrev : str := [1063; 1083; 46]%N.
(** ["Член"] *)
Definition marker_word : str := [1063; 1083; 1077; 1085]%N.
(** ["Чл"] *)
Definition marker_stem : str := [1063; 1083]%N.
(** ["Чл. "], the prefix of a number built from the pattern's group. *)
Definition number_prefix : str := [1063; 1083; 46; 32]%N.
(** ["Preamble"] *)
Definition preamble : str := [80; 114; 101; 97; 109; 98; 108; 101]%N.
(** ["ДОБАВИ В МОИТЕ АКТОВЕ"] *)
Definition nav_add_to_acts : str :=
  [1044; 1054; 1041; 1040; 1042; 1048; 32; 1042; 32; 1052; 1054; 1048;
   1058; 1045; 32; 1040; 1050; 1058; 1054; 1042; 1045]%N.
(** ["LEX.BG"] *)
Definition nav_site_name : str := [76; 69; 88; 46; 66; 71]%N.

(** A segment is the dict [{"number": ..., "content": ...}]. *)
Record segment := Segment { number : str; content : str }.

(** The loop variables [segments], [current_segment], [article_num]. *)
Record scan_state := ScanState {
  segments : list segment;
  current_segment : str;
  article_num : str
}.

(** The test of line 172:
    [line.startswith("Чл.") or (line.startswith("Член") and len(line) < 30)]. *)
Definition starts_new_article (line : str) : bool :=
  startswith line marker_abbrev ||
  (startswith line marker_word && (length line <? 30)%nat).

(** Group 1 of the [re.match] of line 181, [None] when the pattern does
    not match.  The pattern is the literal [Чл\.], then [\s*], then the
    group made of [\d+] and [[а-я]*], then [\.?].  Every quantifier is
    greedy and none of them ever has to give back: a code point is never
    both whitespace and a decimal digit, so shortening [\s*] cannot make
    [\d+] succeed, and after [\d+] the remaining [[а-я]*] and [\.?]
    accept the empty string.  The first match therefore takes the longest
    run of each class, which is what this function computes. *)
Definition match_article_number (line : str) : option str :=
  if startswith line marker_abbrev then
    let rest := drop_while isspace (drop 3 line) in
    let digits := take_while isdecimal rest in
    match digits with
    | [] => None
    | _ => Some (digits ++
                 take_while is_cyrillic_lower (drop (length digits) rest))
    end
  else None.

(** What the pattern of line 181 can match: the marker, whitespace, at
    least one decimal digit, lowercase Cyrillic letters, an optional full
    stop; the group is the digits with the letters. *)
Definition pattern_matches (line group1 : str) : Prop :=
  exists ws ds ls dot rest,
    line = marker_abbrev ++ ws ++ ds ++ ls ++ dot ++ rest /\
    forallb isspace ws = true /\
    ds <> [] /\ forallb isdecimal ds = true /\
    forallb is_cyrillic_lower ls = true /\
    (dot = [] \/ dot = [46%N]) /\
    group1 = ds ++ ls.

(** Lines 181-190: the new value of [article_num]. *)
Definition next_article_num (line : str) : str :=
  match match_article_number line with
  | Some group1 => number_prefix ++ group1
  | None =>
      match split_ws line with
      | w :: _ => if startswith w marker_stem then w else marker_abbrev
      | [] => marker_abbrev
      end
  end.

(** [segments.append({...})] guarded by [if current_segment:]. *)
Definition save_segment (st : scan_state) : list segment :=
  if truthy (current_segment st)
  then segments st ++
       [ {| number := article_num st;
            content := strip (current_segment st) |} ]
  else segments st.

(** The new-article branch, lines 173-192. *)
Definition open_article (st : scan_state) (line : str) : scan_state :=
  {| segments := save_segment st;
     current_segment := line;
     article_num := next_article_num line |}.

(** The else branch, line 195: [current_segment += "\n" + line]. *)
Definition append_line (st : scan_state) (line : str) : scan_state :=
  {| segments := segments st;
     current_segment := current_segment st ++ 10%N :: line;
     article_num := article_num st |}.

(** One iteration of [for line in lines]. *)
Definition scan_line (st : scan_state) (raw : str) : scan_state :=
  let line := strip raw in
  if truthy line then
    if starts_new_article line then open_article st line
    else append_line st line
  else st.

Definition initial_state : scan_state :=
  {| segments := []; current_segment := []; article_num := preamble |}.

(** The post-filter condition of lines 207-209. *)
Definition keep_segment (seg : segment) : bool :=
  (10 <? length (content seg))%nat
  && negb (contains (content seg) nav_add_to_acts)
  && negb (contains (content seg) nav_site_name).

(** [segments] after the loop and the final flush (lines 159-202). *)
Definition raw_segments (full_text : str) : list segment :=
  save_segment (fold_left scan_line (split_lines full_text) initial_state).

(** [articles] as built from [full_text] (lines 159-210). *)
Definition extract_articles (full_text : str) : list segment :=
  List.filter keep_segment (raw_segments full_text).

(** ["\n".join(ls)] *)
Definition join_lines (ls : list str) : str :=
  match ls with
  | [] => []
  | l :: ls' => l ++ concat (map (cons 10%N) ls')
  end.

(** The lines the loop does not skip: stripped, and not blank. *)
Definition kept_lines (full_text : str) : list str :=
  List.filter truthy (map strip (split_lines full_text)).

(** No line of the text starts a new article. *)
Definition marker_free (full_text : str) : bool :=
  forallb (fun raw => negb (starts_new_article (strip raw)))
          (split_lines full_text).

(** *** The marker test as the segmenter contract words it

    The contract puts the bound on the line length on the shorter of the
    two spellings. *)
Definition shorter_marker : str :=
  if (length marker_abbrev <? length marker_word)%nat
  then marker_abbrev else marker_word.

Definition longer_marker : str :=
  if (length marker_abbrev <? length marker_word)%nat
  then marker_word else marker_abbrev.

Definition marker_line_as_specified (line : str) : bool :=
  (startswith line shorter_marker && (length line <? 30)%nat)
  || startswith line longer_marker.

(** ["Чл. 7. "] followed by twenty-five times ["a"]: 32 code points. *)
Definition long_abbrev_line : str :=
  [1063; 1083; 46; 32; 55; 46; 32]%N ++ repeat 97%N 25.

(** ["Член "] followed by twenty-five times ["a"]: 30 code points. *)
Definition long_word_line : str :=
  [1063; 1083; 1077; 1085; 32]%N ++ repeat 97%N 25.

(** ["abc"] *)
Definition short_text : str := [97; 98; 99]%N.

(** ["  first line here  \n\n  second line"] *)
Definition padded_text : str :=
  [32; 32; 102; 105; 114; 115; 116; 32; 108; 105; 110; 101; 32; 104; 101;
   114; 101; 32; 32; 10; 10; 32; 32; 115; 101; 99; 111; 110; 100; 32; 108;
   105; 110; 101]%N.

(** The input of the worked example:
    ["Чл. 70. Foo\nbar\nЧл. 71. Baz"]. *)
Definition two_article_text : str :=
  [1063; 1083; 46; 32; 55; 48; 46; 32; 70; 111; 111; 10;
   98; 97; 114; 10;
   1063; 1083; 46; 32; 55; 49; 46; 32; 66; 97; 122]%N.

End Scraper.

(** ** The hybrid store of [HybridDatabaseManager] *)

Module Database.
Import PyStr.

(** *** The dataclasses of schema.py

    A field declared [str] is a [str]; an [Optional] field is an [option].
    [articles] and [tags] default to [None], which the code only ever tests
    for truthiness, so [None] and the empty list are both the empty list.
    [datetime] is Python's and stays abstract. *)

Module LegalArticle.
Record t := mk {
    id : str;
    law_id : str;
    number : str;
    content : str;
    embedding_id : option str
}.
End LegalArticle.

Module LegalDocument.
Record t {datetime : Type} := mk {
    id : str;
    title : str;
    document_type : str;
    source_url : str;
    date_published : option datetime;
    date_modified : option datetime;
    date_scraped : datetime;
    is_current : bool;
    articles : list LegalArticle.t;
    tags : list str;
    category : option str;
    subcategory : option str
}.
Arguments t : clear implicits.
End LegalDocument.

Module LegalAmendment.
Record t {datetime : Type} := mk {
    id : str;
    law_id : str;
    amendment_date : datetime;
    description : str;
    affected_articles : list str;
    amendment_text : str;
    source_url : str
}.
Arguments t : clear implicits.
End LegalAmendment.

(** *** The tables of [SQL_SCHEMA]

    One record per table, one field per column; a column without
    [NOT NULL] is an [option].  The rows of [legal_articles] have exactly
    the fields of [LegalArticle]. *)

Module DocumentRow.
Record t := mk {
    id : str;
    title : str;
    document_type : str;
    source_url : str;
    date_published : option str;
    date_modified : option str;
    date_scraped : str;
    is_current : bool;
    category : option str;
    subcategory : option str
}.
End DocumentRow.

Module TagRow.
Record t := mk { document_id : str; tag : str }.
End TagRow.

Module AmendmentRow.
Record t := mk {
    id : str;
    law_id : str;
    amendment_date : str;
    description : str;
    amendment_text : str;
    source_url : str
}.
End AmendmentRow.

Module AffectedRow.
Record t := mk { amendment_id : str; article_id : str }.
End AffectedRow.

(** The content of the SQLite file: each table as the list of its rows, in
    insertion order. *)
Record Database := mkDatabase {
  legal_documents : list DocumentRow.t;
  legal_articles : list LegalArticle.t;
  document_tags : list TagRow.t;
  legal_amendments : list AmendmentRow.t;
  amendment_affected_articles : list AffectedRow.t
}.

Definition empty_database : Database := mkDatabase [] [] [] [] [].

(** [a == b] on strings. *)
Definition str_eqb (a b : str) : bool := bool_decide (a = b).

(** *** SQLite's INSERT

    An INSERT fails with [sqlite3.IntegrityError] when the new row repeats
    a PRIMARY KEY, and, only on a connection whose [foreign_keys] pragma is
    on, when a FOREIGN KEY of the row has no parent row. *)

Inductive constraint := PrimaryKey | ForeignKey.

Inductive exception :=
  | IntegrityError (c : constraint)
  | ProgrammingError
  | IDAlreadyExistsError.

Definition has_document (db : Database) (i : str) : bool :=
  existsb (fun r => str_eqb (DocumentRow.id r) i) (legal_documents db).

Definition has_article (db : Database) (i : str) : bool :=
  existsb (fun r => str_eqb (LegalArticle.id r) i) (legal_articles db).

Definition has_amendment (db : Database) (i : str) : bool :=
  existsb (fun r => str_eqb (AmendmentRow.id r) i) (legal_amendments db).

Definition has_tag (db : Database) (d g : str) : bool :=
  existsb (fun r => str_eqb (TagRow.document_id r) d && str_eqb (TagRow.tag r) g)
          (document_tags db).

Definition has_affected (db : Database) (m a : str) : bool :=
  existsb (fun r => str_eqb (AffectedRow.amendment_id r) m
                    && str_eqb (AffectedRow.article_id r) a)
          (amendment_affected_articles db).

Definition insert_checked (unique parents : bool) (fk : bool)
    (db' : Database) : exception + Database :=
  if negb unique then inl (IntegrityError PrimaryKey)
  else if fk && negb parents then inl (IntegrityError ForeignKey)
  else inr db'.

Definition insert_document (row : DocumentRow.t) (fk : bool) (db : Database)
    : exception + Database :=
  insert_checked (negb (has_document db (DocumentRow.id row))) true fk
    (mkDatabase (legal_documents db ++ [row]) (legal_articles db)
       (document_tags db) (legal_amendments db)
       (amendment_affected_articles db)).

Definition insert_tag (row : TagRow.t) (fk : bool) (db : Database)
    : exception + Database :=
  insert_checked
    (negb (has_tag db (TagRow.document_id row) (TagRow.tag row)))
    (has_document db (TagRow.document_id row)) fk
    (mkDatabase (legal_documents db) (legal_articles db)
       (document_tags db ++ [row]) (legal_amendments db)
       (amendment_affected_articles db)).

Definition insert_article (row : LegalArticle.t) (fk : bool) (db : Database)
    : exception + Database :=
  insert_checked (negb (has_article db (LegalArticle.id row)))
    (has_document db (LegalArticle.law_id row)) fk
    (mkDatabase (legal_documents db) (legal_articles db ++ [row])
       (document_tags db) (legal_amendments db)
       (amendment_affected_articles db)).

Definition insert_amendment (row : AmendmentRow.t) (fk : bool) (db : Database)
    : exception + Database :=
  insert_checked (negb (has_amendment db (AmendmentRow.id row)))
    (has_document db (AmendmentRow.law_id row)) fk
    (mkDatabase (legal_documents db) (legal_articles db)
       (document_tags db) (legal_amendments db ++ [row])
       (amendment_affected_articles db)).

Definition insert_affected (row : AffectedRow.t) (fk : bool) (db : Database)
    : exception + Database :=
  insert_checked
    (negb (has_affected db (AffectedRow.amendment_id row)
             (AffectedRow.article_id row)))
    (has_amendment db (AffectedRow.amendment_id row)
     && has_article db (AffectedRow.article_id row)) fk
    (mkDatabase (legal_documents db) (legal_articles db)
       (document_tags db) (legal_amendments db)
       (amendment_affected_articles db ++ [row])).

(** *** The vector collection *)

Module Metadata.
Record t := mk {
    article_id : str;
    law_id : str;
    article_number : str;
    law_title : str
}.
End Metadata.

Module EmbeddingRecord.
Record t {real : Type} := mk {
    embedding : list real;
    metadata : Metadata.t;
    document : str
}.
Arguments t : clear implicits.
End EmbeddingRecord.

(** One entry of what [collection.query] returns: the values at one index
    of its [documents], [metadatas] and [distances] lists. *)
Module Hit.
Record t {real : Type} := mk {
    document : str;
    metadata : Metadata.t;
    distance : real
}.
Arguments t : clear implicits.
End Hit.

(** The columns selected by the query of [_apply_sql_filters]. *)
Module SqlMetadata.
Record t := mk {
    article_id : str;
    content : str;
    number : str;
    law_id : str;
    title : str;
    document_type : str;
    date_published : option str;
    category : option str;
    subcategory : option str
}.
End SqlMetadata.

(** A result dict of [search_similar]; the key ["sql_metadata"] is absent
    until [_apply_sql_filters] sets it. *)
Module Result.
Record t {real : Type} := mk {
    content : str;
    metadata : Metadata.t;
    similarity : real;
    sql_metadata : option SqlMetadata.t
}.
Arguments t : clear implicits.
End Result.

(** The [filters] dict.  Its recognised keys are typed as the filter
    vocabulary gives them; [other_keys] are the keys the code never looks
    at, which still make the dict non-empty. *)
Module Filters.
Record t := mk {
    document_type : option str;
    category : option str;
    tags : option (list str);
    date_after : option str;
    date_before : option str;
    other_keys : list str
}.
Definition empty : t := mk None None None None None [].
End Filters.

(** What the code writes, in order. *)
Inductive event :=
  | InsertDocument (id : str)
  | InsertTag (document_id tag : str)
  | InsertArticle (id : str)
  | InsertAmendment (id : str)
  | InsertAffected (amendment_id article_id : str)
  | VectorAdd (embedding_id : str)
  | Commit
  | Rollback.

Inductive outcome (A : Type) :=
  | Return (a : A)
  | Raise (e : exception).
Arguments Return {A} a.
Arguments Raise {A} e.

(** ["_embedding"] *)
Definition embedding_suffix : str :=
  [95; 101; 109; 98; 101; 100; 100; 105; 110; 103]%N.

Section Manager.

Context {datetime real : Type}.

(** [datetime.isoformat]. *)
Context (isoformat : datetime -> str).
(** [self.embeddings.embed_query]: a function of the text alone. *)
Context (embed_query : str -> list real).
(** [1 - x] on floats. *)
Context (one_minus : real -> real).
(** [self.collection.query]: the nearest records of the collection, which
    is the index's business. *)
Context (collection_query :
  gmap str (EmbeddingRecord.t real) -> list real -> nat -> list (Hit.t real)).
(** The successive values of [str(uuid.uuid4())]. *)
Context (uuid : nat -> str).
(** The value of the [foreign_keys] pragma on a new connection: the
    default of the SQLite build, which the code never changes. *)
Context (default_foreign_keys : bool).
(** Whether [collection.add] raises on an id the collection already has, or
    ignores the record: Chroma releases differ. *)
Context (add_existing_raises : bool).

(** An open [sqlite3] connection: its pragma and the database as its
    transaction sees it. *)
Record Connection := mkConnection {
  foreign_keys : bool;
  pending : Database
}.

(** What the manager works on: the SQLite file as committed, the
    connection a method has open (if any), the Chroma collection, the
    number of uuids drawn so far, and the journal of writes. *)
Record World := mkWorld {
  sql_db : Database;
  connection : option Connection;
  collection : gmap str (EmbeddingRecord.t real);
  uuids_drawn : nat;
  journal : list event
}.

Definition M (A : Type) : Type := World -> outcome A * World.

#[export] Instance M_ret : MRet M := fun A a w => (Return a, w).

#[export] Instance M_bind : MBind M := fun A B f m w =>
  match m w with
  | (Return a, w') => f a w'
  | (Raise e, w') => (Raise e, w')
  end.

Definition raise {A} (e : exception) : M A := fun w => (Raise e, w).

(** [try: body except Exception as e: handler e] *)
Definition try_except {A} (body : M A) (handler : exception -> M A) : M A :=
  fun w =>
    match body w with
    | (Return a, w') => (Return a, w')
    | (Raise e, w') => handler e w'
    end.

(** [try: body finally: cleanup] *)
Definition try_finally {A} (body : M A) (cleanup : M unit) : M A :=
  fun w =>
    match body w with
    | (r, w') =>
        match cleanup w' with
        | (Return _, w'') => (r, w'')
        | (Raise e, w'') => (Raise e, w'')
        end
    end.

Definition log (ev : event) (w : World) : World :=
  mkWorld (sql_db w) (connection w) (collection w) (uuids_drawn w)
          (journal w ++ [ev]).

(** [str(uuid.uuid4())] *)
Definition uuid4 : M str := fun w =>
  (Return (uuid (uuids_drawn w)),
   mkWorld (sql_db w) (connection w) (collection w) (S (uuids_drawn w))
           (journal w)).

(** [sqlite3.connect(self.db_path)] *)
Definition connect : M unit := fun w =>
  (Return tt,
   mkWorld (sql_db w) (Some (mkConnection default_foreign_keys (sql_db w)))
           (collection w) (uuids_drawn w) (journal w)).

(** [cursor.execute] of one INSERT. *)
Definition execute (stmt : bool -> Database -> exception + Database)
    (ev : event) : M unit := fun w =>
  match connection w with
  | None => (Raise ProgrammingError, w)
  | Some c =>
      match stmt (foreign_keys c) (pending c) with
      | inl e => (Raise e, w)
      | inr db' =>
          (Return tt,
           log ev (mkWorld (sql_db w) (Some (mkConnection (foreign_keys c) db'))
                     (collection w) (uuids_drawn w) (journal w)))
      end
  end.

(** [conn.commit()] *)
Definition commit : M unit := fun w =>
  match connection w with
  | None => (Raise ProgrammingError, w)
  | Some c =>
      (Return tt,
       log Commit (mkWorld (pending c) (connection w) (collection w)
                     (uuids_drawn w) (journal w)))
  end.

(** [conn.rollback()] *)
Definition rollback : M unit := fun w =>
  match connection w with
  | None => (Raise ProgrammingError, w)
  | Some c =>
      (Return tt,
       log Rollback
         (mkWorld (sql_db w) (Some (mkConnection (foreign_keys c) (sql_db w)))
            (collection w) (uuids_drawn w) (journal w)))
  end.

(** [conn.close()]: what was not committed is lost. *)
Definition close : M unit := fun w =>
  (Return tt,
   mkWorld (sql_db w) None (collection w) (uuids_drawn w) (journal w)).

(** [self.collection.add] of one record. *)
Definition collection_add (key : str) (rec : EmbeddingRecord.t real)
    : M unit := fun w =>
  match collection w !! key with
  | Some _ =>
      if add_existing_raises then (Raise IDAlreadyExistsError, w)
      else (Return tt, log (VectorAdd key) w)
  | None =>
      (Return tt,
       log (VectorAdd key)
         (mkWorld (sql_db w) (connection w) (<[key := rec]> (collection w))
            (uuids_drawn w) (journal w)))
  end.

(** [for x in l: f x], and [cursor.executemany]. *)
Fixpoint for_each {A} (f : A -> M unit) (l : list A) : M unit :=
  match l with
  | [] => mret tt
  | x :: l' => f x ;; for_each f l'
  end.

(** [x if x else str(uuid.uuid4())], the effect of
    [if not x.id: x.id = str(uuid.uuid4())]. *)
Definition id_or_new (i : str) : M str :=
  if truthy i then mret i else uuid4.

Definition document_row (document_id : str)
    (document : LegalDocument.t datetime) : DocumentRow.t :=
  DocumentRow.mk document_id
    (LegalDocument.title document)
    (LegalDocument.document_type document)
    (LegalDocument.source_url document)
    (isoformat <$> LegalDocument.date_published document)
    (isoformat <$> LegalDocument.date_modified document)
    (isoformat (LegalDocument.date_scraped document))
    (LegalDocument.is_current document)
    (LegalDocument.category document)
    (LegalDocument.subcategory document).

(** The body of the loop over [document.articles], lines 173-210. *)
Definition add_article (document_id law_title : str)
    (article : LegalArticle.t) : M unit :=
  article_id ← id_or_new (LegalArticle.id article);
  let embedding := embed_query (LegalArticle.content article) in
  let embedding_id := article_id ++ embedding_suffix in
  collection_add embedding_id
    (EmbeddingRecord.mk real embedding
       (Metadata.mk article_id document_id (LegalArticle.number article)
          law_title)
       (LegalArticle.content article)) ;;
  execute
    (insert_article
       (LegalArticle.mk article_id document_id (LegalArticle.number article)
          (LegalArticle.content article) (Some embedding_id)))
    (InsertArticle article_id).

(** The [try:] block of [add_document], lines 141-213.  The guards
    [if document.tags:] and [if document.articles:] skip loops that would
    not run anyway. *)
Definition add_document_body (document_id : str)
    (document : LegalDocument.t datetime) : M str :=
  execute (insert_document (document_row document_id document))
          (InsertDocument document_id) ;;
  for_each
    (fun tag => execute (insert_tag (TagRow.mk document_id tag))
                        (InsertTag document_id tag))
    (LegalDocument.tags document) ;;
  for_each (add_article document_id (LegalDocument.title document))
    (LegalDocument.articles document) ;;
  commit ;;
  mret document_id.

Definition add_document (document : LegalDocument.t datetime) : M str :=
  document_id ← id_or_new (LegalDocument.id document);
  connect ;;
  try_finally
    (try_except (add_document_body document_id document)
                (fun e => rollback ;; raise e))
    close.

Definition amendment_row (amendment_id : str)
    (amendment : LegalAmendment.t datetime) : AmendmentRow.t :=
  AmendmentRow.mk amendment_id
    (LegalAmendment.law_id amendment)
    (isoformat (LegalAmendment.amendment_date amendment))
    (LegalAmendment.description amendment)
    (LegalAmendment.amendment_text amendment)
    (LegalAmendment.source_url amendment).

(** The [try:] block of [add_amendment], lines 239-271. *)
Definition add_amendment_body (amendment_id : str)
    (amendment : LegalAmendment.t datetime) : M str :=
  execute (insert_amendment (amendment_row amendment_id amendment))
          (InsertAmendment amendment_id) ;;
  for_each
    (fun article_id =>
       execute (insert_affected (AffectedRow.mk amendment_id article_id))
               (InsertAffected amendment_id article_id))
    (LegalAmendment.affected_articles amendment) ;;
  commit ;;
  mret amendment_id.

Definition add_amendment (amendment : LegalAmendment.t datetime) : M str :=
  amendment_id ← id_or_new (LegalAmendment.id amendment);
  connect ;;
  try_finally
    (try_except (add_amendment_body amendment_id amendment)
                (fun e => rollback ;; raise e))
    close.

(** The dict returned by [get_document_by_id]: the columns of the document
    row, plus the keys ["tags"] and ["articles"]. *)
Record DocumentDict := mkDocumentDict {
  document_columns : DocumentRow.t;
  dict_tags : list str;
  dict_articles : list LegalArticle.t
}.

Definition get_document_by_id (db : Database) (document_id : str)
    : option DocumentDict :=
  match List.find (fun r => str_eqb (DocumentRow.id r) document_id)
                  (legal_documents db) with
  | None => None
  | Some document =>
      Some (mkDocumentDict document
              (map TagRow.tag
                 (List.filter
                    (fun r => str_eqb (TagRow.document_id r) document_id)
                    (document_tags db)))
              (List.filter
                 (fun r => str_eqb (LegalArticle.law_id r) document_id)
                 (legal_articles db)))
  end.

(** A row of
    [legal_articles la JOIN legal_documents ld ON la.law_id = ld.id
     LEFT JOIN document_tags dt ON ld.id = dt.document_id]:
    the article, its document and one of the document's tags, or NULL for
    a document without tags. *)
Definition joined_row : Type := LegalArticle.t * DocumentRow.t * option str.

Definition left_join_tags (db : Database) (la : LegalArticle.t)
    (ld : DocumentRow.t) : list joined_row :=
  match List.filter
          (fun dt => str_eqb (DocumentRow.id ld) (TagRow.document_id dt))
          (document_tags db) with
  | [] => [(la, ld, None)]
  | dts => map (fun dt => (la, ld, Some (TagRow.tag dt))) dts
  end.

Definition join_tables (db : Database) : list joined_row :=
  flat_map
    (fun la =>
       flat_map
         (fun ld =>
            if str_eqb (LegalArticle.law_id la) (DocumentRow.id ld)
            then left_join_tags db la ld else [])
         (legal_documents db))
    (legal_articles db).

(** [column = ?] and the like on a nullable column: NULL compares to
    nothing. *)
Definition null_or (p : str -> bool) (column : option str) : bool :=
  match column with
  | Some v => p v
  | None => false
  end.

(** A clause that is only there when its key is in [filters]. *)
Definition when_present {V} (key : option V) (clause : V -> bool) : bool :=
  match key with
  | Some v => clause v
  | None => true
  end.

(** The WHERE condition built in lines 360-390. *)
Definition where_condition (article_ids : list str) (filters : Filters.t)
    (row : joined_row) : bool :=
  let '(la, ld, dt_tag) := row in
  existsb (str_eqb (LegalArticle.id la)) article_ids
  && when_present (Filters.document_type filters)
       (fun v => str_eqb (DocumentRow.document_type ld) v)
  && when_present (Filters.category filters)
       (fun v => null_or (fun c => str_eqb c v) (DocumentRow.category ld))
  && when_present (Filters.tags filters)
       (fun ts => null_or (fun g => existsb (str_eqb g) ts) dt_tag)
  && when_present (Filters.date_after filters)
       (fun v => null_or (fun p => str_le v p) (DocumentRow.date_published ld))
  && when_present (Filters.date_before filters)
       (fun v => null_or (fun p => str_le p v) (DocumentRow.date_published ld)).

(** [GROUP BY la.id]: one row for each article id.  Which row of a group
    gives the other columns is SQLite's choice; here it is the last. *)
Fixpoint group_by_article (rows : list joined_row) : list joined_row :=
  match rows with
  | [] => []
  | r :: rows' =>
      if existsb
           (fun r' => str_eqb (LegalArticle.id (fst (fst r')))
                              (LegalArticle.id (fst (fst r))))
           rows'
      then group_by_article rows'
      else r :: group_by_article rows'
  end.

Definition select_columns (row : joined_row) : SqlMetadata.t :=
  let '(la, ld, _) := row in
  SqlMetadata.mk (LegalArticle.id la) (LegalArticle.content la)
    (LegalArticle.number la) (DocumentRow.id ld) (DocumentRow.title ld)
    (DocumentRow.document_type ld) (DocumentRow.date_published ld)
    (DocumentRow.category ld) (DocumentRow.subcategory ld).

(** [cursor.fetchall()] for the query of [_apply_sql_filters]. *)
Definition sql_results (db : Database) (article_ids : list str)
    (filters : Filters.t) : list SqlMetadata.t :=
  map select_columns
    (group_by_article
       (List.filter (where_condition article_ids filters) (join_tables db))).

(** [{row["article_id"]: dict(row) for row in sql_results}] *)
Definition sql_results_dict (rows : list SqlMetadata.t)
    : gmap str SqlMetadata.t :=
  foldl (fun d row => <[SqlMetadata.article_id row := row]> d) ∅ rows.

(** A dict is truthy when it has a key; [None] is not. *)
Definition filters_truthy (filters : option Filters.t) : bool :=
  match filters with
  | None => false
  | Some f =>
      match Filters.document_type f, Filters.category f, Filters.tags f,
            Filters.date_after f, Filters.date_before f,
            Filters.other_keys f with
      | None, None, None, None, None, [] => false
      | _, _, _, _, _, _ => true
      end
  end.

Definition set_sql_metadata (row : SqlMetadata.t) (result : Result.t real)
    : Result.t real :=
  Result.mk real (Result.content result) (Result.metadata result)
    (Result.similarity result) (Some row).

(** A result without its ["sql_metadata"] key. *)
Definition clear_sql_metadata (result : Result.t real) : Result.t real :=
  Result.mk real (Result.content result) (Result.metadata result)
    (Result.similarity result) None.

(** The article id a result carries in its metadata. *)
Definition result_article_id (result : Result.t real) : str :=
  Metadata.article_id (Result.metadata result).

Definition _apply_sql_filters (db : Database)
    (vector_results : list (Result.t real)) (filters : option Filters.t)
    : list (Result.t real) :=
  match filters, vector_results with
  | Some f, _ :: _ =>
      if filters_truthy filters then
        let article_ids :=
          map (fun r => Metadata.article_id (Result.metadata r))
              vector_results in
        let d := sql_results_dict (sql_results db article_ids f) in
        flat_map
          (fun result =>
             match d !! Metadata.article_id (Result.metadata result) with
             | Some row => [set_sql_metadata row result]
             | None => []
             end)
          vector_results
      else vector_results
  | _, _ => vector_results
  end.

(** Lines 308-316: one result dict for each index of the query's lists. *)
Definition format_result (hit : Hit.t real) : Result.t real :=
  Result.mk real (Hit.document hit) (Hit.metadata hit)
    (one_minus (Hit.distance hit)) None.

Definition search_similar (w : World) (query : str) (n_results : nat)
    (filters : option Filters.t) : list (Result.t real) :=
  let query_embedding := embed_query query in
  let search_results :=
    collection_query (collection w) query_embedding n_results in
  let results := map format_result search_results in
  if filters_truthy filters
  then _apply_sql_filters (sql_db w) results filters
  else results.

(** *** The filter as the retrieval contract words it

    A document satisfies the filter when each supplied predicate holds of
    it: equal document type, equal category, at least one of the requested
    tags among its tags, and a publication date inside the range. *)
Definition document_satisfies (db : Database) (filters : Filters.t)
    (ld : DocumentRow.t) : Prop :=
  (forall v, Filters.document_type filters = Some v ->
             DocumentRow.document_type ld = v) /\
  (forall v, Filters.category filters = Some v ->
             DocumentRow.category ld = Some v) /\
  (forall ts, Filters.tags filters = Some ts ->
     exists g, In g ts /\
               In (TagRow.mk (DocumentRow.id ld) g) (document_tags db)) /\
  (forall v, Filters.date_after filters = Some v ->
     exists p, DocumentRow.date_published ld = Some p /\ str_le v p = true) /\
  (forall v, Filters.date_before filters = Some v ->
     exists p, DocumentRow.date_published ld = Some p /\ str_le p v = true).

(** The article with this id is stored, and a document it joins with
    satisfies the filter. *)
Definition joined_document_satisfies (db : Database) (filters : Filters.t)
    (article_id : str) : Prop :=
  exists la ld,
    In la (legal_articles db) /\ LegalArticle.id la = article_id /\
    In ld (legal_documents db) /\ DocumentRow.id ld = LegalArticle.law_id la /\
    document_satisfies db filters ld.

(** *** Consistency of the relational store *)

(** Every tag row and every article row belongs to a stored document. *)
Definition rows_have_documents (db : Database) : Prop :=
  (forall r, In r (document_tags db) ->
             has_document db (TagRow.document_id r) = true) /\
  (forall r, In r (legal_articles db) ->
             has_document db (LegalArticle.law_id r) = true).

(** *** Tables with rows appended *)

Definition with_document (db : Database) (row : DocumentRow.t) : Database :=
  mkDatabase (legal_documents db ++ [row]) (legal_articles db)
    (document_tags db) (legal_amendments db) (amendment_affected_articles db).

Definition with_tags (db : Database) (rows : list TagRow.t) : Database :=
  mkDatabase (legal_documents db) (legal_articles db)
    (document_tags db ++ rows) (legal_amendments db)
    (amendment_affected_articles db).

Definition with_articles (db : Database) (rows : list LegalArticle.t)
    : Database :=
  mkDatabase (legal_documents db) (legal_articles db ++ rows)
    (document_tags db) (legal_amendments db) (amendment_affected_articles db).

Definition with_amendment (db : Database) (row : AmendmentRow.t)
    (affected : list AffectedRow.t) : Database :=
  mkDatabase (legal_documents db) (legal_articles db) (document_tags db)
    (legal_amendments db ++ [row]) (amendment_affected_articles db ++ affected).

(** The two writes [add_document] makes for an article, in order. *)
Definition article_events (row : LegalArticle.t) : list event :=
  [ VectorAdd (LegalArticle.id row ++ embedding_suffix);
    InsertArticle (LegalArticle.id row) ].

(** The id [add_document] or [add_amendment] uses for a record whose id
    field is [i], when [drawn] uuids were drawn before. *)
Definition assigned_id (i : str) (drawn : nat) : str :=
  if truthy i then i else uuid drawn.

Definition drawn_after (i : str) (drawn : nat) : nat :=
  if truthy i then drawn else S drawn.

(** The article rows [add_document] writes for the articles of a document,
    with the ids it assigns, given how many uuids were drawn before the
    first article. *)
Fixpoint written_articles (document_id : str) (drawn : nat)
    (articles : list LegalArticle.t) : list LegalArticle.t :=
  match articles with
  | [] => []
  | a :: rest =>
      let article_id := assigned_id (LegalArticle.id a) drawn in
      LegalArticle.mk article_id document_id (LegalArticle.number a)
        (LegalArticle.content a) (Some (article_id ++ embedding_suffix))
      :: written_articles document_id (drawn_after (LegalArticle.id a) drawn)
           rest
  end.

(** The database a returning [add_document] commits. *)
Definition committed_document (base : Database) (i : str) (n : nat)
    (document : LegalDocument.t datetime) : Database :=
  with_articles
    (with_tags (with_document base (document_row i document))
       (map (TagRow.mk i) (LegalDocument.tags document)))
    (written_articles i n (LegalDocument.articles document)).

(** The events [add_document] journals when it returns. *)
Definition document_events (document_id : str) (tags : list str)
    (rows : list LegalArticle.t) : list event :=
  [InsertDocument document_id]
  ++ map (InsertTag document_id) tags
  ++ flat_map article_events rows
  ++ [Commit].

(** [a] is written before [b] in the journal [j]. *)
#[export] Instance event_eq_dec : EqDecision event.
Proof. solve_decision. Defined.

Fixpoint written_before (a b : event) (j : list event) : bool :=
  match j with
  | [] => false
  | e :: j' =>
      (bool_decide (e = a) && existsb (fun e' => bool_decide (e' = b)) j')
      || written_before a b j'
  end.

(** *** Worlds inside a transaction *)

(** A world inside a transaction: the file [base], a connection that sees
    [p]. *)
Definition in_txn (base : Database) (fk : bool) (p : Database)
    (col : gmap str (EmbeddingRecord.t real)) (n : nat) (j : list event)
    : World :=
  mkWorld base (Some (mkConnection fk p)) col n j.

(** Every vector add among the events [new] is of a key the collection
    has. *)
Definition adds_stored (col : gmap str (EmbeddingRecord.t real))
    (new : list event) : Prop :=
  forall k, In (VectorAdd k) new -> is_Some (col !! k).

(** What every step of a transaction body guarantees: the file is
    untouched, the connection stays open with its pragma, the collection
    only grows, and the journal is extended by events whose embeddings are
    stored. *)
Definition txn_extends (base : Database) (fk : bool)
    (col : gmap str (EmbeddingRecord.t real)) (j : list event)
    (w' : World) : Prop :=
  sql_db w' = base /\
  (exists p', connection w' = Some (mkConnection fk p')) /\
  col ⊆ collection w' /\
  exists new, journal w' = j ++ new /\ adds_stored (collection w') new.

(** Inserting the rows [l] one after the other. *)
Fixpoint insert_all {A} (stmt : A -> bool -> Database -> exception + Database)
    (fk : bool) (l : list A) (p : Database) : exception + Database :=
  match l with
  | [] => inr p
  | x :: l' =>
      match stmt x fk p with
      | inl e => inl e
      | inr p' => insert_all stmt fk l' p'
      end
  end.

End Manager.


(** *** Sample data

    A concrete instance: datetimes that are already ISO texts, embeddings
    without coordinates, uuids ["u"], ["uu"], ... *)
Module Samples.

Definition sample_uuid (n : nat) : str := repeat 117%N (S n).
Definition sample_isoformat (d : str) : str := d.
Definition sample_embed (_ : str) : list Z := [].
Definition sample_one_minus (x : Z) : Z := (1 - x)%Z.

Definition fresh_world {real : Type} : @World real :=
  mkWorld empty_database None ∅ 0 [].

(** ["a70"], ["a155"], ["law1"], ["am1"], ["missing"] *)
Definition id_a70 : str := [97; 55; 48]%N.
Definition id_a155 : str := [97; 49; 53; 53]%N.
Definition id_law1 : str := [108; 97; 119; 49]%N.
Definition id_am1 : str := [97; 109; 49]%N.
Definition id_missing : str := [109; 105; 115; 115; 105; 110; 103]%N.
(** ["2024-01-01T00:00:00"] *)
Definition new_year : str :=
  [50; 48; 50; 52; 45; 48; 49; 45; 48; 49; 84; 48; 48; 58; 48; 48; 58; 48; 48]%N.
(** ["labor"], ["law"], ["tax"] *)
Definition text_labor : str := [108; 97; 98; 111; 114]%N.
Definition text_law : str := [108; 97; 119]%N.
Definition text_tax : str := [116; 97; 120]%N.

(** Article "70", "probation period text". *)
Definition article_70 : LegalArticle.t :=
  LegalArticle.mk id_a70 [] [55; 48]%N
    [112; 114; 111; 98; 97; 116; 105; 111; 110; 32; 112; 101; 114; 105; 111; 100; 32; 116; 101; 120; 116]%N
    None.

(** Article "155", "annual leave text". *)
Definition article_155 : LegalArticle.t :=
  LegalArticle.mk id_a155 [] [49; 53; 53]%N
    [97; 110; 110; 117; 97; 108; 32; 108; 101; 97; 118; 101; 32; 116; 101; 120; 116]%N
    None.

(** A law scraped at [now], with the given articles. *)
Definition labor_code_with {datetime : Type} (now : datetime)
    (articles : list LegalArticle.t) : LegalDocument.t datetime :=
  LegalDocument.mk datetime id_law1 text_labor text_law [] None None now true
    articles [text_labor] (Some text_labor) None.

(** A document with one article. *)
Definition one_article_code : LegalDocument.t str :=
  labor_code_with new_year [article_70].

(** A document with the two articles of the end-to-end scenario. *)
Definition labor_code : LegalDocument.t str :=
  labor_code_with new_year [article_70; article_155].

(** A document that lists the same article twice. *)
Definition repeated_article_code {datetime : Type} (now : datetime)
    : LegalDocument.t datetime :=
  labor_code_with now [article_70; article_70].

(** An amendment whose only affected article id has no article row. *)
Definition dangling_amendment : LegalAmendment.t str :=
  LegalAmendment.mk str id_am1 id_law1 new_year text_labor [id_missing]
    text_labor [].

(** What a vector query answers in the examples: article "a70", then an
    article the relational store does not have, then article "a155". *)
Definition sample_hits : list (Hit.t Z) :=
  [ Hit.mk Z (LegalArticle.content article_70)
      (Metadata.mk id_a70 id_law1 (LegalArticle.number article_70) text_labor)
      1%Z;
    Hit.mk Z [] (Metadata.mk id_missing id_law1 [] text_labor) 2%Z;
    Hit.mk Z (LegalArticle.content article_155)
      (Metadata.mk id_a155 id_law1 (LegalArticle.number article_155)
         text_labor)
      3%Z ].

Definition sample_query (_ : gmap str (EmbeddingRecord.t Z)) (_ : list Z)
    (_ : nat) : list (Hit.t Z) :=
  sample_hits.

(** The filter dicts [{"tags": ["labor"]}] and [{"tags": ["tax"]}]. *)
Definition labor_tag_filter : Filters.t :=
  Filters.mk None None (Some [text_labor]) None None [].

Definition tax_tag_filter : Filters.t :=
  Filters.mk None None (Some [text_tax]) None None [].

End Samples.

End Database.

(** ** The segmenter as a grouping of lines, and the other text handling
    of [extract_law_content] *)

Module ScraperBlocks.
Import PyStr Scraper.

(** The kept lines cut into blocks: the lines before the first marker
    line, then one block for each marker line with the lines that follow
    it. *)
Fixpoint group_lines (ls : list str) : list str * list (list str) :=
  match ls with
  | [] => ([], [])
  | l :: ls' =>
      let (b, bs) := group_lines ls' in
      if starts_new_article l then ([], (l :: b) :: bs) else (l :: b, bs)
  end.

(** The segment of the lines before the first marker line, if any. *)
Definition preamble_segment (b : list str) : list segment :=
  match b with
  | [] => []
  | _ => [ {| number := preamble; content := join_lines b |} ]
  end.

(** The segment of a block that starts with a marker line. *)
Definition article_segment (b : list str) : segment :=
  {| number := next_article_num (hd [] b); content := join_lines b |}.

Definition segments_of_blocks (blocks : list str * list (list str))
    : list segment :=
  preamble_segment (fst blocks) ++ map article_segment (snd blocks).

(** The loop state after more non-marker lines. *)
Definition extend_buffer (st : scan_state) (b : list str) : scan_state :=
  {| segments := segments st;
     current_segment := current_segment st ++ concat (map (cons 10%N) b);
     article_num := article_num st |}.

(** How many of the lines start a new article. *)
Definition count_markers (ls : list str) : nat :=
  length (List.filter starts_new_article ls).

(** A segment taken from a block that starts with a marker line. *)
Definition numbered_article (seg : segment) : Prop :=
  startswith (number seg) marker_stem = true /\
  (startswith (content seg) marker_abbrev = true \/
   startswith (content seg) marker_word = true).

End ScraperBlocks.

(** ** The fallback strategies and the publication date of
    [extract_law_content] *)

Module ScraperFallback.
Import PyStr Scraper.

(** ["Art."] *)
Definition marker_art : str := [65; 114; 116; 46]%N.
(** ["Unknown"] *)
Definition unknown : str := [85; 110; 107; 110; 111; 119; 110]%N.
(** ["Чл. Art"] *)
Definition number_art : str := [1063; 1083; 46; 32; 65; 114; 116]%N.
(** ["Обн. ДВ"] *)
Definition published_marker : str := [1054; 1073; 1085; 46; 32; 1044; 1042]%N.
(** ["Date information not available"] *)
Definition date_not_available : str :=
  [68; 97; 116; 101; 32; 105; 110; 102; 111; 114; 109; 97; 116; 105; 111; 110; 32; 110; 111; 116; 32; 97; 118; 97; 105; 108; 97; 98; 108; 101]%N.
(** [","] *)
Definition comma : str := [44]%N.

(** [s.split(sep, 1)] for a one-character [sep]: one cut, at its first
    occurrence. *)
Fixpoint split_once (sep : N) (s : str) : list str :=
  match s with
  | [] => [[]]
  | c :: s' =>
      if (c =? sep)%N then [[]; s']
      else match split_once sep s' with
           | p :: ps => (c :: p) :: ps
           | [] => [[c]]
           end
  end.

(** [s.replace(old, new)] for a non-empty [old]: the occurrences are taken
    from the left and do not overlap; [skip] counts the code points of an
    occurrence still to pass. *)
Fixpoint replace_from (old new : str) (skip : nat) (s : str) : str :=
  match s with
  | [] => []
  | c :: s' =>
      match skip with
      | S k => replace_from old new k s'
      | O =>
          if startswith s old
          then new ++ replace_from old new (length old - 1) s'
          else c :: replace_from old new 0 s'
      end
  end.

Definition replace (s old new : str) : str := replace_from old new 0 s.

(** The body of the loop over [article_elements], lines 235-251, for an
    element with the given [id] attribute ([None] when it has none) and
    inner text. *)
Definition fallback_article (article_id : option str) (content : str)
    : segment :=
  let article_num :=
    match article_id with
    | Some i => if truthy i then i else unknown
    | None => unknown
    end in
  let result :=
    if startswith content marker_abbrev || startswith content marker_art
    then match split_once 46%N content with
         | p0 :: p1 :: _ =>
             (number_prefix ++ strip (replace p0 marker_stem []), strip p1)
         | _ => (article_num, content)
         end
    else (article_num, content) in
  {| number := strip (fst result); content := strip (snd result) |}.

(** The text after the first occurrence of [sep], if there is one. *)
Fixpoint after_first (sep s : str) : option str :=
  if startswith s sep then Some (drop (length sep) s)
  else match s with
       | [] => None
       | _ :: s' => after_first sep s'
       end.

(** The text before the first occurrence of [sep], all of it when there is
    none: [s.split(sep)[0]] for a non-empty [sep]. *)
Fixpoint before_first (sep s : str) : str :=
  if startswith s sep then []
  else match s with
       | [] => []
       | c :: s' => c :: before_first sep s'
       end.

(** [s.split(sep)[1]] when [sep] occurs in [s]: what lies between its
    first two occurrences. *)
Definition second_piece (sep s : str) : str :=
  match after_first sep s with
  | Some t => before_first sep t
  | None => []
  end.

(** The value of ["date_published"] in the returned dict, lines 132-143
    and 263, for the inner text of [.TitleDocument] ([None] when reading
    it raises). *)
Definition published_date (date_text : option str) : str :=
  strip
    match date_text with
    | None => date_not_available
    | Some t =>
        if truthy t then
          if contains t published_marker
          then strip (before_first comma (second_piece published_marker t))
          else t
        else []
    end.

(** ["Обн. ДВ, бр. 26 от 1.04.1986 г., в сила от 1.01.1987 г."] *)
Definition sample_title_text : str :=
  [1054; 1073; 1085; 46; 32; 1044; 1042; 44; 32; 1073; 1088; 46; 32; 50; 54; 32; 1086; 1090; 32; 49; 46; 48; 52; 46; 49; 57; 56; 54; 32; 1075; 46; 44; 32; 1074; 32; 1089; 1080; 1083; 1072; 32; 1086; 1090; 32; 49; 46; 48; 49; 46; 49; 57; 56; 55; 32; 1075; 46]%N.

(** ["Кодекс на труда Обн. ДВ бр. 26 от 1986 г., изм. 2023"] *)
Definition sample_title_text_2 : str :=
  [1050; 1086; 1076; 1077; 1082; 1089; 32; 1085; 1072; 32; 1090; 1088; 1091; 1076; 1072; 32; 1054; 1073; 1085; 46; 32; 1044; 1042; 32; 1073; 1088; 46; 32; 50; 54; 32; 1086; 1090; 32; 49; 57; 56; 54; 32; 1075; 46; 44; 32; 1080; 1079; 1084; 46; 32; 50; 48; 50; 51]%N.

End ScraperFallback.

(** ** More of [HybridDatabaseManager] *)

Module DatabaseMore.
Import PyStr Database.

(** The dict returned by [get_article_by_id]: the columns of the article
    row, and the selected columns of its document. *)
Module ArticleDict.
Record t := mk {
  article : LegalArticle.t;
  law_title : str;
  document_type : str;
  date_published : option str;
  category : option str;
  subcategory : option str
}.
End ArticleDict.

(** The rows of
    [legal_articles la JOIN legal_documents ld ON la.law_id = ld.id]. *)
Definition join_article_documents (db : Database)
    : list (LegalArticle.t * DocumentRow.t) :=
  flat_map
    (fun la =>
       map (fun ld => (la, ld))
         (List.filter
            (fun ld => str_eqb (LegalArticle.law_id la) (DocumentRow.id ld))
            (legal_documents db)))
    (legal_articles db).

Definition article_dict (row : LegalArticle.t * DocumentRow.t)
    : ArticleDict.t :=
  ArticleDict.mk (fst row) (DocumentRow.title (snd row))
    (DocumentRow.document_type (snd row))
    (DocumentRow.date_published (snd row))
    (DocumentRow.category (snd row)) (DocumentRow.subcategory (snd row)).

(** [get_article_by_id]: [cursor.fetchone()] of the join restricted to
    [la.id = ?], [None] when there is no such row. *)
Definition get_article_by_id (db : Database) (article_id : str)
    : option ArticleDict.t :=
  match List.find (fun r => str_eqb (LegalArticle.id (fst r)) article_id)
                  (join_article_documents db) with
  | None => None
  | Some row => Some (article_dict row)
  end.

(** The columns the query of [_apply_sql_filters] selects, taken from the
    dict [get_article_by_id] returns. *)
Definition selected_columns (d : ArticleDict.t) : SqlMetadata.t :=
  SqlMetadata.mk (LegalArticle.id (ArticleDict.article d))
    (LegalArticle.content (ArticleDict.article d))
    (LegalArticle.number (ArticleDict.article d))
    (LegalArticle.law_id (ArticleDict.article d))
    (ArticleDict.law_title d) (ArticleDict.document_type d)
    (ArticleDict.date_published d) (ArticleDict.category d)
    (ArticleDict.subcategory d).

(** No two rows of a table share a primary key, and every tag and article
    row belongs to a stored document. *)
Definition store_consistent (db : Database) : Prop :=
  NoDup (map DocumentRow.id (legal_documents db)) /\
  NoDup (map LegalArticle.id (legal_articles db)) /\
  NoDup (map AmendmentRow.id (legal_amendments db)) /\
  rows_have_documents db.

(** ["Unknown"], ["law"], ["labor"] *)
Definition text_unknown : str := [85; 110; 107; 110; 111; 119; 110]%N.
Definition default_document_type : str := [108; 97; 119]%N.
Definition default_category : str := [108; 97; 98; 111; 114]%N.

(** One element of the ["articles"] array of a scraped law. *)
Module ArticleData.
Record t := mk { number : option str; content : option str }.
End ArticleData.

(** One element of the JSON array the scraper saves: whether it has the
    key ["error"], and the values of the keys the import reads, [None]
    for a missing key. *)
Module LawData.
Record t := mk {
  error : bool;
  title : option str;
  url : option str;
  scraped_date : option str;
  articles : option (list ArticleData.t)
}.
End LawData.

(** [d.get(key, default)] *)
Definition get_or {V} (value : option V) (default : V) : V :=
  match value with
  | Some v => v
  | None => default
  end.

(** The sum the seed of [_hash_embed] is made of. *)
Definition code_point_sum (text : str) : N := fold_right N.add 0%N text.

Section ManagerMore.

Context {datetime real : Type}.
Context (isoformat : datetime -> str).
Context (embed_query : str -> list real).
Context (uuid : nat -> str).
Context (default_foreign_keys : bool).
Context (add_existing_raises : bool).
(** [datetime.fromisoformat], [None] when it raises. *)
Context (fromisoformat : str -> option datetime).
(** The successive values of [datetime.now()] during one import. *)
Context (now : nat -> datetime).
(** [np.random.seed(seed)] followed by
    [list(np.random.uniform(-1, 1, 768).astype(float))]. *)
Context (numpy_uniform : N -> list real).

(** The record [add_document] passes to [collection.add] for the article
    it writes as [row] (lines 184-194). *)
Definition article_record (law_title : str) (row : LegalArticle.t)
    : EmbeddingRecord.t real :=
  EmbeddingRecord.mk real (embed_query (LegalArticle.content row))
    (Metadata.mk (LegalArticle.id row) (LegalArticle.law_id row)
       (LegalArticle.number row) law_title)
    (LegalArticle.content row).

(** [SimpleEmbeddings._hash_embed]; [np.random.seed] accepts the seeds
    below 2^32 and raises on the others, which is [None] here. *)
Definition _hash_embed (text : str) : option (list real) :=
  let seed := code_point_sum text in
  if (seed <? 2 ^ 32)%N then Some (numpy_uniform seed) else None.

(** The loop of lines 546-553: one [LegalArticle] for each element, with a
    new uuid. *)
Fixpoint build_articles (law_id : str) (l : list ArticleData.t)
    : M (real := real) (list LegalArticle.t) :=
  match l with
  | [] => mret []
  | article_data :: rest =>
      article_id ← uuid4 uuid;
      articles ← build_articles law_id rest;
      mret (LegalArticle.mk article_id law_id
              (get_or (ArticleData.number article_data) text_unknown)
              (get_or (ArticleData.content article_data) [])
              None
            :: articles)
  end.

(** The [date_scraped] of lines 526-531: the parsed ["scraped_date"] when
    the key is there and parses, the clock otherwise. *)
Definition scraped_or_now (clock : nat) (law_data : LawData.t) : datetime :=
  match LawData.scraped_date law_data with
  | Some s => get_or (fromisoformat s) (now (S clock))
  | None => now (S clock)
  end.

(** Lines 523-556 for one law without the key ["error"]; [clock] counts
    the readings of [datetime.now()] made before. *)
Definition import_law (clock : nat) (law_data : LawData.t)
    : M (real := real) str :=
  document_id ← uuid4 uuid;
  articles ← build_articles document_id
              (get_or (LawData.articles law_data) []);
  add_document isoformat embed_query uuid default_foreign_keys
    add_existing_raises
    (LegalDocument.mk datetime document_id
       (get_or (LawData.title law_data) text_unknown)
       default_document_type
       (get_or (LawData.url law_data) [])
       (Some (now clock)) None (scraped_or_now clock law_data) true
       articles [default_category] (Some default_category) None).

(** The loop of [import_from_json] over the parsed array. *)
Fixpoint import_laws (clock : nat) (data : list LawData.t)
    : M (real := real) unit :=
  match data with
  | [] => mret tt
  | law_data :: rest =>
      if LawData.error law_data then import_laws clock rest
      else import_law clock law_data ;; import_laws (2 + clock) rest
  end.

Definition import_from_json (data : list LawData.t) : M (real := real) unit :=
  import_laws 0 data.

End ManagerMore.

End DatabaseMore.

(** ** The context [LegalAssistant._prepare_context] builds from search
    results *)

Module Assistant.
Import PyStr Scraper Database.

(** ["[Document "], ["]"], ["[Key Article]"], ["Title: "], ["Article: "],
    ["Content: "] *)
Definition document_open : str := [91; 68; 111; 99; 117; 109; 101; 110; 116; 32]%N.
Definition document_close : str := [93]%N.
Definition key_header : str := [91; 75; 101; 121; 32; 65; 114; 116; 105; 99; 108; 101; 93]%N.
Definition title_label : str := [84; 105; 116; 108; 101; 58; 32]%N.
Definition article_label : str := [65; 114; 116; 105; 99; 108; 101; 58; 32]%N.
Definition content_label : str := [67; 111; 110; 116; 101; 110; 116; 58; 32]%N.

(** The decimal digits of a number, as [str(n)] and an f-string give
    them. *)
Fixpoint uint_code_points (d : Decimal.uint) : str :=
  match d with
  | Decimal.Nil => []
  | Decimal.D0 d' => 48%N :: uint_code_points d'
  | Decimal.D1 d' => 49%N :: uint_code_points d'
  | Decimal.D2 d' => 50%N :: uint_code_points d'
  | Decimal.D3 d' => 51%N :: uint_code_points d'
  | Decimal.D4 d' => 52%N :: uint_code_points d'
  | Decimal.D5 d' => 53%N :: uint_code_points d'
  | Decimal.D6 d' => 54%N :: uint_code_points d'
  | Decimal.D7 d' => 55%N :: uint_code_points d'
  | Decimal.D8 d' => 56%N :: uint_code_points d'
  | Decimal.D9 d' => 57%N :: uint_code_points d'
  end.

Definition decimal (n : nat) : str := uint_code_points (Nat.to_uint n).

(** [_get_key_articles]: the article numbers "Чл. 70", "Чл. 71",
    "Чл. 325", "Чл. 326", "Чл. 328", "Чл. 155" and the queries meant to
    find them, in the order of the dict. *)
Definition _get_key_articles : list (str * str) :=
  [ ([1063; 1083; 46; 32; 55; 48]%N,
     [1080; 1079; 1087; 1080; 1090; 1072; 1090; 1077; 1083; 1077; 1085; 32; 1089; 1088; 1086; 1082; 32; 1076; 1086; 1075; 1086; 1074; 1086; 1088]%N);
    ([1063; 1083; 46; 32; 55; 49]%N,
     [1087; 1088; 1077; 1082; 1088; 1072; 1090; 1103; 1074; 1072; 1085; 1077; 32; 1080; 1079; 1087; 1080; 1090; 1072; 1090; 1077; 1083; 1077; 1085; 32; 1089; 1088; 1086; 1082]%N);
    ([1063; 1083; 46; 32; 51; 50; 53]%N,
     [1087; 1088; 1077; 1082; 1088; 1072; 1090; 1103; 1074; 1072; 1085; 1077; 32; 1085; 1072; 32; 1090; 1088; 1091; 1076; 1086; 1074; 1080; 1103; 32; 1076; 1086; 1075; 1086; 1074; 1086; 1088]%N);
    ([1063; 1083; 46; 32; 51; 50; 54]%N,
     [1087; 1088; 1077; 1082; 1088; 1072; 1090; 1103; 1074; 1072; 1085; 1077; 32; 1086; 1090; 32; 1088; 1072; 1073; 1086; 1090; 1085; 1080; 1082; 1072; 32; 1089; 32; 1087; 1088; 1077; 1076; 1080; 1079; 1074; 1077; 1089; 1090; 1080; 1077]%N);
    ([1063; 1083; 46; 32; 51; 50; 56]%N,
     [1087; 1088; 1077; 1082; 1088; 1072; 1090; 1103; 1074; 1072; 1085; 1077; 32; 1086; 1090; 32; 1088; 1072; 1073; 1086; 1090; 1086; 1076; 1072; 1090; 1077; 1083; 1103; 32; 1089; 32; 1087; 1088; 1077; 1076; 1080; 1079; 1074; 1077; 1089; 1090; 1080; 1077]%N);
    ([1063; 1083; 46; 32; 49; 53; 53]%N,
     [1087; 1083; 1072; 1090; 1077; 1085; 32; 1075; 1086; 1076; 1080; 1096; 1077; 1085; 32; 1086; 1090; 1087; 1091; 1089; 1082]%N) ].

(** One part of the context, before it is laid out as text: the line in
    brackets, the law title, the article number and the content. *)
Record context_part := mk_part {
  header : str;
  law_title : str;
  article_number : str;
  part_content : str
}.

(** The text of a part (lines 284-287 and 313-316). *)
Definition render_part (p : context_part) : str :=
  header p ++ [10%N]
  ++ title_label ++ law_title p ++ [10%N]
  ++ article_label ++ article_number p ++ [10%N]
  ++ content_label ++ part_content p ++ [10; 10]%N.

Section PrepareContext.

Context {real : Type}.
Context (embed_query : str -> list real).
Context (one_minus : real -> real).
Context (collection_query :
  gmap str (EmbeddingRecord.t real) -> list real -> nat -> list (Hit.t real)).

(** The part made for the search result at index [i]. *)
Definition document_part (i : nat) (result : Result.t real) : context_part :=
  mk_part (document_open ++ decimal (i + 1) ++ document_close)
    (Metadata.law_title (Result.metadata result))
    (Metadata.article_number (Result.metadata result))
    (Result.content result).

(** The loop over [enumerate(search_results)], lines 275-289, from index
    [i] on: the parts appended and [seen_articles] at the end. *)
Fixpoint result_parts (i : nat) (seen_articles : gset str)
    (search_results : list (Result.t real))
    : list context_part * gset str :=
  match search_results with
  | [] => ([], seen_articles)
  | result :: rest =>
      let article_number := Metadata.article_number (Result.metadata result) in
      if decide (article_number ∈ seen_articles)
      then result_parts (S i) seen_articles rest
      else
        let (parts, seen) :=
          result_parts (S i) ({[article_number]} ∪ seen_articles) rest in
        (document_part i result :: parts, seen)
  end.

(** The loop over [key_article_data.items()], lines 295-318. *)
Fixpoint key_parts (w : @World real) (seen_articles : gset str)
    (key_article_data : list (str * str)) : list context_part :=
  match key_article_data with
  | [] => []
  | (article_num, query) :: rest =>
      if decide (article_num ∈ seen_articles)
      then key_parts w seen_articles rest
      else
        match search_similar embed_query one_minus collection_query
                w query 1 None with
        | [] => key_parts w seen_articles rest
        | result :: _ =>
            if str_eqb (Metadata.article_number (Result.metadata result))
                 article_num
            then
              mk_part key_header
                (Metadata.law_title (Result.metadata result))
                article_num (Result.content result)
              :: key_parts w ({[article_num]} ∪ seen_articles) rest
            else key_parts w seen_articles rest
        end
  end.

(** [context_parts] at the end of [_prepare_context], each part before it
    is laid out as text. *)
Definition context_parts (w : @World real)
    (search_results : list (Result.t real)) : list context_part :=
  let (parts, seen) := result_parts 0 ∅ search_results in
  parts ++ key_parts w seen _get_key_articles.

Definition _prepare_context (w : @World real)
    (search_results : list (Result.t real)) : str :=
  join_lines (map render_part (context_parts w search_results)).

End PrepareContext.

End Assistant.

(** ** Facts about the string operations *)

Module PyStrFacts.
Import PyStr.

Lemma startswith_prefix (s p : str) :
  startswith s p = true <-> exists t, s = p ++ t.
Proof.
  revert s. induction p as [|a p IH]; intros s; simpl.
  - split; [intros _; by exists s | done].
  - destruct s as [|b s]; simpl.
    + split; [done | intros [t Ht]; discriminate].
    + rewrite andb_true_iff, N.eqb_eq, IH. split.
      * intros [-> [t ->]]. by exists t.
      * intros [t Ht]. injection Ht as -> ->. split; [done | by exists t].
Qed.

Lemma contains_infix (s needle : str) :
  contains s needle = true <-> exists a b, s = a ++ needle ++ b.
Proof.
  induction s as [|c s IH]; simpl.
  - rewrite orb_false_r, startswith_prefix. split.
    + intros [t Ht]. by exists [], t.
    + intros [a [b Hab]]. destruct a; simpl in Hab; [by exists b | done].
  - rewrite orb_true_iff, startswith_prefix, IH. split.
    + intros [[t Ht] | [a [b Hab]]].
      * by exists [], t.
      * exists (c :: a), b. by rewrite Hab.
    + intros [[|c' a] [b Hab]]; simpl in Hab.
      * left. by exists b.
      * right. injection Hab as -> ->. by exists a, b.
Qed.

Lemma drop_while_split (p : N -> bool) (s : str) :
  s = take_while p s ++ drop_while p s.
Proof.
  induction s as [|c s IH]; simpl; [done |].
  destruct (p c); simpl; [by f_equal | done].
Qed.

Lemma drop_while_head (p : N -> bool) (s : str) c t :
  drop_while p s = c :: t -> p c = false.
Proof.
  induction s as [|d s IH]; simpl; [done |].
  destruct (p d) eqn:Hd; [done |]. by intros [= -> _].
Qed.

Lemma drop_while_id (p : N -> bool) (s : str) c t :
  s = c :: t -> p c = false -> drop_while p s = s.
Proof. intros -> H. simpl. by rewrite H. Qed.

Lemma rstrip_split (s : str) :
  exists tl, s = rstrip s ++ tl.
Proof.
  unfold rstrip. exists (rev (take_while isspace (rev s))).
  rewrite <- rev_app_distr, <- drop_while_split. by rewrite rev_involutive.
Qed.

Lemma strip_trimmed (s : str) : truthy (strip s) = true -> trimmed (strip s).
Proof.
  unfold strip. intros Hne.
  destruct (rstrip (lstrip s)) as [|c t] eqn:Hr; [done |]. clear Hne.
  split.
  - exists c, t. split; [done |].
    destruct (rstrip_split (lstrip s)) as [tl Htl]. rewrite Hr in Htl.
    by apply (drop_while_head isspace s c (t ++ tl)).
  - rewrite <- Hr. unfold rstrip in *.
    destruct (drop_while isspace (rev (lstrip s))) as [|d u] eqn:Hd; [done |].
    exists (rev u), d. split; [done |].
    by apply (drop_while_head isspace (rev (lstrip s)) d u).
Qed.

Lemma strip_of_trimmed (s : str) : trimmed s -> strip s = s.
Proof.
  intros [[c [t [Hs Hc]]] [u [d [Hr Hd]]]]. unfold strip, lstrip, rstrip.
  rewrite (drop_while_id isspace s c t Hs Hc).
  rewrite (drop_while_id isspace (rev s) d (rev u)); [apply rev_involutive | | done].
  rewrite Hr, rev_app_distr. done.
Qed.

Lemma strip_after_newline (s : str) : trimmed s -> strip (10%N :: s) = s.
Proof.
  intros Ht. rewrite <- (strip_of_trimmed s Ht) at 2.
  destruct Ht as [[c [t [Hs Hc]]] _]. unfold strip, lstrip. simpl.
  change (isspace 10%N) with true. simpl.
  by rewrite (drop_while_id isspace s c t Hs Hc).
Qed.

Lemma isspace_values (c : N) :
  isspace c = true ->
  In c [9; 10; 11; 12; 13; 28; 29; 30; 31; 32; 133; 160; 5760; 8192; 8193;
        8194; 8195; 8196; 8197; 8198; 8199; 8200; 8201; 8202; 8232; 8233;
        8239; 8287; 12288]%N.
Proof.
  unfold isspace, whitespace_ranges, in_range. simpl.
  rewrite !orb_true_iff, !andb_true_iff, !N.leb_le. simpl. lia.
Qed.

Lemma isdecimal_not_isspace (c : N) : isdecimal c = true -> isspace c = false.
Proof.
  intros Hd. destruct (isspace c) eqn:Hs; [| done].
  apply isspace_values in Hs. simpl in Hs.
  repeat (destruct Hs as [<- | Hs]; [vm_compute in Hd; discriminate |]).
  done.
Qed.

Lemma cyrillic_not_isdecimal (c : N) :
  is_cyrillic_lower c = true -> isdecimal c = false.
Proof.
  unfold is_cyrillic_lower, in_range. rewrite andb_true_iff, !N.leb_le. simpl.
  intros [Hlo Hhi]. unfold isdecimal, decimal_blocks, in_range. simpl.
  repeat match goal with
  | |- (?a && ?b) || ?r = false =>
      replace (a && b) with false
        by (symmetry; apply andb_false_iff; rewrite !N.leb_gt; lia);
      simpl
  end.
  done.
Qed.

Lemma take_while_all (p : N -> bool) (s : str) :
  forallb p (take_while p s) = true.
Proof.
  induction s as [|c s IH]; [done |]. simpl.
  destruct (p c) eqn:Hc; [| done]. simpl. by rewrite Hc.
Qed.

Lemma take_while_app (p : N -> bool) (a b : str) :
  forallb p a = true -> take_while p (a ++ b) = a ++ take_while p b.
Proof.
  induction a as [|c a IH]; [done |]. simpl.
  rewrite andb_true_iff. intros [-> Ha]. by rewrite IH.
Qed.

Lemma drop_while_app (p : N -> bool) (a b : str) :
  forallb p a = true -> drop_while p (a ++ b) = drop_while p b.
Proof.
  induction a as [|c a IH]; [done |]. simpl.
  rewrite andb_true_iff. intros [-> Ha]. by apply IH.
Qed.

Lemma drop_taken (p : N -> bool) (s : str) :
  drop (length (take_while p s)) s = drop_while p s.
Proof.
  induction s as [|c s IH]; [done |]. simpl. by destruct (p c).
Qed.

End PyStrFacts.

(** ** The segmenter *)

Module ScraperFacts.
Import PyStr PyStrFacts Scraper.

Lemma starts_new_article_iff (line : str) :
  starts_new_article line = true <->
  (exists t, line = marker_abbrev ++ t) \/
  ((exists t, line = marker_word ++ t) /\ length line < 30).
Proof.
  unfold starts_new_article.
  rewrite orb_true_iff, andb_true_iff, !startswith_prefix, Nat.ltb_lt.
  done.
Qed.

Lemma marker_line_not_blank (line : str) :
  starts_new_article line = true -> truthy line = true.
Proof.
  rewrite starts_new_article_iff. by intros [[t ->] | [[t ->] _]].
Qed.

(** The group the function returns is one the pattern can capture. *)
Lemma match_article_number_sound (line g : str) :
  match_article_number line = Some g -> pattern_matches line g.
Proof.
  unfold match_article_number.
  destruct (startswith line marker_abbrev) eqn:Hstart; [| done].
  apply startswith_prefix in Hstart as [t ->].
  change (drop 3 (marker_abbrev ++ t)) with t.
  set (rest := drop_while isspace t).
  destruct (take_while isdecimal rest) as [|d ds] eqn:Hdigits; [done |].
  rewrite <- Hdigits, drop_taken. intros [= <-].
  exists (take_while isspace t), (take_while isdecimal rest),
    (take_while is_cyrillic_lower (drop_while isdecimal rest)), [],
    (drop_while is_cyrillic_lower (drop_while isdecimal rest)).
  split.
  { simpl. by rewrite <- !drop_while_split. }
  split; [apply take_while_all |]. split; [by rewrite Hdigits |].
  split; [apply take_while_all |]. split; [apply take_while_all |].
  split; [by left | done].
Qed.

(** Whatever group the pattern can capture on a line, the function
    returns a group on that line, and it extends the other: it is the
    greedy one. *)
Lemma match_article_number_greedy (line g' : str) :
  pattern_matches line g' ->
  exists g more, match_article_number line = Some g /\ g = g' ++ more.
Proof.
  intros (ws & ds & ls & dot & rest & -> & Hws & Hne & Hds & Hls & _ & ->).
  unfold match_article_number.
  rewrite (proj2 (startswith_prefix _ _)) by by eexists.
  change (drop 3 (marker_abbrev ++ ?t)) with t.
  rewrite (drop_while_app isspace ws _ Hws).
  destruct ds as [|d ds]; [done |].
  assert (Hd : isdecimal d = true) by by apply andb_true_iff in Hds as [? _].
  rewrite (drop_while_id isspace ((d :: ds) ++ ls ++ dot ++ rest) d
             (ds ++ ls ++ dot ++ rest) eq_refl (isdecimal_not_isspace d Hd)).
  rewrite (take_while_app isdecimal (d :: ds) _ Hds).
  set (e := take_while isdecimal (ls ++ dot ++ rest)).
  assert (Hdrop : drop (length ((d :: ds) ++ e)) ((d :: ds) ++ ls ++ dot ++ rest)
                  = drop_while isdecimal (ls ++ dot ++ rest)).
  { unfold e. rewrite <- (take_while_app isdecimal (d :: ds) _ Hds), drop_taken.
    by apply drop_while_app. }
  change ((d :: ds) ++ e) with (d :: (ds ++ e)) at 1.
  cbv iota. change (d :: (ds ++ e)) with ((d :: ds) ++ e). rewrite Hdrop.
  destruct ls as [|l ls].
  - eexists _, (e ++ _). split; [done |].
    by rewrite app_nil_r, (app_assoc (d :: ds)).
  - assert (Hl : isdecimal l = false).
    { apply cyrillic_not_isdecimal. by apply andb_true_iff in Hls as [? _]. }
    assert (He : e = []) by (unfold e; simpl; by rewrite Hl).
    rewrite He, app_nil_r.
    rewrite (drop_while_id isdecimal ((l :: ls) ++ dot ++ rest) l
               (ls ++ dot ++ rest) eq_refl Hl).
    rewrite (take_while_app is_cyrillic_lower (l :: ls) _ Hls).
    eexists _, _. split; [done |]. by rewrite (app_assoc (d :: ds)).
Qed.
(** The buffer of [append_line] is longer than the line; that of
    [open_article] is the line. *)
Lemma append_is_not_open (st : scan_state) (line : str) :
  append_line st line <> open_article st line.
Proof.
  intros H. apply (f_equal current_segment) in H. simpl in H.
  apply (f_equal (@length N)) in H. rewrite length_app in H. simpl in H. lia.
Qed.

(** C5, as amended.  For every loop state and every raw line, with [line]
    the stripped line: the iteration takes the new-article branch exactly
    when [line] starts with "Чл.", or starts with "Член" and has fewer than
    30 code points; the bound is on the longer spelling, and a line that
    starts with "Чл." opens an article whatever its length.  Every other
    line, blank ones included, leaves the emitted segments and the current
    article number as they were. *)
Theorem marker_line_opens_article (st : scan_state) (raw : str) :
  let line := strip raw in
  let is_marker :=
    (exists t, line = marker_abbrev ++ t) \/
    ((exists t, line = marker_word ++ t) /\ length line < 30) in
  (is_marker <-> line <> [] /\ scan_line st raw = open_article st line) /\
  (~ is_marker ->
     segments (scan_line st raw) = segments st /\
     article_num (scan_line st raw) = article_num st /\
     (line = [] -> scan_line st raw = st) /\
     (line <> [] -> scan_line st raw = append_line st line)).
Proof.
  intros line is_marker. unfold is_marker.
  rewrite <- starts_new_article_iff. unfold scan_line. fold line.
  destruct (starts_new_article line) eqn:Hm.
  - pose proof (marker_line_not_blank line Hm) as Hne. rewrite Hne.
    split; [| done]. split; [| done]. intros _. split; [| done].
    by destruct line.
  - split.
    + split; [done |]. intros [Hne H]. destruct line as [|c t]; [done |].
      simpl in H. by apply append_is_not_open in H.
    + intros _. destruct line as [|c t]; simpl; repeat split; done.
Qed.

(** C5, as worded, fails both ways: a 32-code-point line that starts with
    "Чл." opens an article although the contract's test rejects it, and a
    30-code-point line that starts with "Член" is appended although the
    contract's test accepts it. *)
Lemma length_bound_is_on_longer_marker :
  (strip long_abbrev_line = long_abbrev_line /\
   marker_line_as_specified long_abbrev_line = false /\
   scan_line initial_state long_abbrev_line
   = open_article initial_state long_abbrev_line) /\
  (strip long_word_line = long_word_line /\
   marker_line_as_specified long_word_line = true /\
   scan_line initial_state long_word_line
   = append_line initial_state long_word_line).
Proof. vm_compute. done. Qed.

(** *** Texts without marker lines *)

Lemma scan_marker_free (lines : list str) (st : scan_state) :
  forallb (fun raw => negb (starts_new_article (strip raw))) lines = true ->
  fold_left scan_line lines st
  = {| segments := segments st;
       current_segment :=
         current_segment st
         ++ concat (map (cons 10%N) (List.filter truthy (map strip lines)));
       article_num := article_num st |}.
Proof.
  revert st. induction lines as [|raw lines IH]; intros st; simpl.
  - intros _. rewrite app_nil_r. by destruct st.
  - rewrite andb_true_iff, negb_true_iff. intros [Hraw Hrest].
    rewrite (IH _ Hrest). unfold scan_line. rewrite Hraw.
    destruct (truthy (strip raw)); simpl; [| done].
    by rewrite <- app_assoc.
Qed.

Lemma ends_nonspace_concat (pre : str) (ls : list str) :
  ls <> [] -> Forall trimmed ls ->
  exists t c, pre ++ concat (map (cons 10%N) ls) = t ++ [c]
              /\ isspace c = false.
Proof.
  revert pre. induction ls as [|l ls IH]; intros pre Hne Hall; [done |].
  apply Forall_cons in Hall as [Hl Hall]. simpl.
  destruct ls as [|l2 rest].
  - destruct Hl as [_ [t [c [-> Hc]]]]. exists (pre ++ 10%N :: t), c.
    simpl. rewrite app_nil_r. split; [| done].
    by rewrite <- app_assoc.
  - destruct (IH (pre ++ 10%N :: l)) as [t [c [Heq Hc]]]; [done | done |].
    exists t, c. split; [| done]. rewrite <- Heq.
    rewrite <- !app_assoc. done.
Qed.

Lemma join_lines_trimmed (ls : list str) :
  ls <> [] -> Forall trimmed ls -> trimmed (join_lines ls).
Proof.
  destruct ls as [|l ls]; [done |]. intros _ Hall.
  apply Forall_cons in Hall as [Hl Hall]. split.
  - destruct Hl as [[c [t [-> Hc]]] _]. simpl. exists c, (t ++ concat (map (cons 10%N) ls)). done.
  - simpl. destruct ls as [|l2 rest].
    + simpl. rewrite app_nil_r. apply Hl.
    + by apply ends_nonspace_concat.
Qed.

Lemma kept_lines_trimmed (full_text : str) :
  Forall trimmed (kept_lines full_text).
Proof.
  unfold kept_lines. apply Forall_forall. intros l Hl.
  apply list_elem_of_In in Hl. apply filter_In in Hl as [Hin Hne]. apply in_map_iff in Hin as [raw [<- _]].
  by apply strip_trimmed.
Qed.

(** Without marker lines the loop emits, before the post-filter, the kept
    lines joined by line feeds under the number "Preamble", or nothing
    when every line is blank. *)
Lemma raw_segments_marker_free (full_text : str) :
  marker_free full_text = true ->
  raw_segments full_text
  = match kept_lines full_text with
    | [] => []
    | ls => [ {| number := preamble; content := join_lines ls |} ]
    end.
Proof.
  intros Hfree. unfold raw_segments. rewrite (scan_marker_free _ _ Hfree).
  fold (kept_lines full_text). pose proof (kept_lines_trimmed full_text) as Hall.
  destruct (kept_lines full_text) as [|l ls] eqn:Hk; [done |].
  unfold save_segment. simpl.
  change (10%N :: l ++ concat (map (cons 10%N) ls))
    with (10%N :: join_lines (l :: ls)).
  rewrite strip_after_newline; [done |]. by apply join_lines_trimmed.
Qed.

(** C6, as amended.  For every text without marker lines the segmenter
    outputs at most one article.  Its number is "Preamble" and its content
    is the text's non-blank lines, each stripped, joined by line feeds;
    it is output exactly when that content has more than 10 code points
    and contains neither navigation marker, and otherwise the output is
    empty. *)
Theorem marker_free_text_single_preamble (full_text : str) :
  marker_free full_text = true ->
  let body := join_lines (kept_lines full_text) in
  extract_articles full_text
  = if keep_segment {| number := preamble; content := body |}
    then [ {| number := preamble; content := body |} ]
    else [].
Proof.
  intros Hfree body. unfold extract_articles.
  rewrite (raw_segments_marker_free _ Hfree). unfold body.
  destruct (kept_lines full_text) as [|l ls]; [done |]. simpl.
  by destruct (keep_segment _).
Qed.

Lemma marker_free_text_single_preamble_witness :
  extract_articles padded_text
  = [ {| number := preamble;
         content := join_lines (kept_lines padded_text) |} ].
Proof.
  apply (marker_free_text_single_preamble padded_text). vm_compute. done.
Defined.

(** C6, as worded, fails: a short text without marker lines yields no
    article at all, and a text with padded or blank lines yields one whose
    content is not the trimmed input. *)
Lemma marker_free_text_not_trimmed_input :
  (marker_free short_text = true /\
   extract_articles short_text = [] /\
   extract_articles short_text
   <> [ {| number := preamble; content := strip short_text |} ]) /\
  (marker_free padded_text = true /\
   extract_articles padded_text
   <> [ {| number := preamble; content := strip padded_text |} ]).
Proof. vm_compute. repeat split; done. Qed.

Lemma split_lines_not_nil (s : str) : split_lines s <> [].
Proof.
  destruct s as [|c s]; [done |]. simpl.
  destruct (c =? 10)%N; [done |]. by destruct (split_lines s).
Qed.

Lemma join_split_lines (s : str) : join_lines (split_lines s) = s.
Proof.
  induction s as [|c s IH]; [done |]. simpl.
  pose proof (split_lines_not_nil s) as Hne.
  destruct (split_lines s) as [|l ls]; [done |].
  destruct (c =? 10)%N eqn:Hc; simpl in *.
  - apply N.eqb_eq in Hc as ->. by rewrite IH.
  - by rewrite IH.
Qed.

Lemma kept_lines_of_trimmed (full_text : str) :
  Forall trimmed (split_lines full_text) ->
  kept_lines full_text = split_lines full_text.
Proof.
  unfold kept_lines. induction 1 as [|l ls Hl Hls IH]; [done |]. simpl.
  rewrite (strip_of_trimmed l Hl), IH.
  by destruct Hl as [(c & t & -> & _) _].
Qed.

(** On a text whose lines are all non-blank and carry no surrounding
    whitespace, the content of the single "Preamble" article is the text
    itself, which is also the trimmed text. *)
Lemma marker_free_clean_text (full_text : str) :
  marker_free full_text = true ->
  Forall trimmed (split_lines full_text) ->
  strip full_text = full_text /\
  extract_articles full_text
  = if keep_segment {| number := preamble; content := strip full_text |}
    then [ {| number := preamble; content := strip full_text |} ]
    else [].
Proof.
  intros Hfree Hclean.
  assert (Hstrip : strip full_text = full_text).
  { apply strip_of_trimmed. rewrite <- (join_split_lines full_text).
    apply join_lines_trimmed; [| done].
    apply split_lines_not_nil. }
  split; [done |].
  unfold extract_articles. rewrite (raw_segments_marker_free _ Hfree).
  rewrite (kept_lines_of_trimmed _ Hclean), Hstrip.
  pose proof (split_lines_not_nil full_text) as Hne.
  pose proof (join_split_lines full_text) as Hjoin.
  destruct (split_lines full_text) as [|l ls]; [done |].
  rewrite Hjoin. simpl. by destruct (keep_segment _).
Qed.
(** C7.  The text "Чл. 70. Foo\nbar\nЧл. 71. Baz" is segmented into the
    article "Чл. 70" with content "Чл. 70. Foo\nbar" followed by the
    article "Чл. 71" with content "Чл. 71. Baz". *)
Theorem two_article_text_segments :
  extract_articles two_article_text
  = [ {| number := [1063; 1083; 46; 32; 55; 48]%N;
         content := [1063; 1083; 46; 32; 55; 48; 46; 32; 70; 111; 111; 10;
                     98; 97; 114]%N |};
      {| number := [1063; 1083; 46; 32; 55; 49]%N;
         content := [1063; 1083; 46; 32; 55; 49; 46; 32; 66; 97; 122]%N |} ].
Proof. vm_compute. reflexivity. Qed.

(** C8.  The articles output for a text are exactly the segments of the
    scan whose content has more than 10 code points and contains neither
    navigation marker; hence every output article has non-empty content,
    and a segment at or below the threshold or containing a marker is not
    output. *)
Theorem output_segments_pass_post_filter (full_text : str) (seg : segment) :
  (In seg (extract_articles full_text) <->
   In seg (raw_segments full_text) /\
   10 < length (content seg) /\
   (~ exists a b, content seg = a ++ nav_add_to_acts ++ b) /\
   (~ exists a b, content seg = a ++ nav_site_name ++ b)) /\
  (In seg (extract_articles full_text) -> content seg <> []) /\
  (length (content seg) <= 10 \/
   (exists a b, content seg = a ++ nav_add_to_acts ++ b) \/
   (exists a b, content seg = a ++ nav_site_name ++ b) ->
   ~ In seg (extract_articles full_text)).
Proof.
  assert (Hiff : In seg (extract_articles full_text) <->
   In seg (raw_segments full_text) /\
   10 < length (content seg) /\
   (~ exists a b, content seg = a ++ nav_add_to_acts ++ b) /\
   (~ exists a b, content seg = a ++ nav_site_name ++ b)).
  { unfold extract_articles, keep_segment. rewrite filter_In.
    rewrite !andb_true_iff, !negb_true_iff, Nat.ltb_lt.
    rewrite <- !not_true_iff_false, !contains_infix. tauto. }
  split; [exact Hiff |]. split.
  - intros Hin. apply Hiff in Hin as (_ & Hlen & _).
    destruct (content seg); simpl in Hlen; [lia | done].
  - intros Hbad Hin. apply Hiff in Hin as (_ & Hlen & Hn1 & Hn2).
    destruct Hbad as [Hle | [H1 | H2]]; [lia | by apply Hn1 | by apply Hn2].
Qed.

Lemma marker_line_opens_article_witness :
  scan_line initial_state long_abbrev_line
  = open_article initial_state (strip long_abbrev_line).
Proof.
  pose proof (marker_line_opens_article initial_state long_abbrev_line) as H.
  cbv zeta in H. destruct H as [[H _] _]. apply H. left.
  exists ([32; 55; 46; 32]%N ++ repeat 97%N 25). vm_compute. reflexivity.
Defined.

Lemma output_segments_pass_post_filter_witness :
  content {| number := [1063; 1083; 46; 32; 55; 49]%N;
             content := [1063; 1083; 46; 32; 55; 49; 46; 32; 66; 97; 122]%N |}
  <> [].
Proof.
  destruct (output_segments_pass_post_filter two_article_text
              {| number := [1063; 1083; 46; 32; 55; 49]%N;
                 content := [1063; 1083; 46; 32; 55; 49; 46; 32; 66; 97;
                             122]%N |}) as (_ & Hne & _).
  apply Hne. vm_compute. right. left. reflexivity.
Defined.

End ScraperFacts.

(** ** The hybrid store *)

Module DatabaseFacts.
Import PyStr Database.

Lemma str_eqb_eq (a b : str) : str_eqb a b = true <-> a = b.
Proof. unfold str_eqb. apply bool_decide_eq_true. Qed.

Lemma str_eqb_neq (a b : str) : str_eqb a b = false <-> a <> b.
Proof. unfold str_eqb. apply bool_decide_eq_false. Qed.

Lemma str_eqb_refl (a : str) : str_eqb a a = true.
Proof. by apply str_eqb_eq. Qed.

Lemma has_document_iff (db : Database) (i : str) :
  has_document db i = true <->
  exists r, In r (legal_documents db) /\ DocumentRow.id r = i.
Proof.
  unfold has_document. rewrite existsb_exists.
  by setoid_rewrite str_eqb_eq.
Qed.

Lemma has_article_iff (db : Database) (i : str) :
  has_article db i = true <->
  exists r, In r (legal_articles db) /\ LegalArticle.id r = i.
Proof.
  unfold has_article. rewrite existsb_exists.
  by setoid_rewrite str_eqb_eq.
Qed.

Section ManagerFacts.

Context {datetime real : Type}.
Context (isoformat : datetime -> str).
Context (embed_query : str -> list real).
Context (one_minus : real -> real).
Context (collection_query :
  gmap str (EmbeddingRecord.t real) -> list real -> nat -> list (Hit.t real)).
Context (uuid : nat -> str).
Context (default_foreign_keys : bool).
Context (add_existing_raises : bool).

#[local] Abbreviation World := (@World real).
#[local] Abbreviation M := (@M real).
#[local] Abbreviation add_article :=
  (add_article embed_query uuid add_existing_raises).
#[local] Abbreviation add_document :=
  (add_document isoformat embed_query uuid default_foreign_keys
     add_existing_raises).
#[local] Abbreviation add_amendment :=
  (add_amendment isoformat uuid default_foreign_keys).
#[local] Abbreviation written_articles := (written_articles uuid).
#[local] Abbreviation assigned_id := (assigned_id uuid).
#[local] Abbreviation add_document_body :=
  (add_document_body isoformat embed_query uuid add_existing_raises).
#[local] Abbreviation add_amendment_body := (add_amendment_body isoformat).
#[local] Abbreviation amendment_row := (amendment_row isoformat).
#[local] Abbreviation id_or_new := (id_or_new uuid).
#[local] Abbreviation committed_document := (committed_document isoformat uuid).
#[local] Abbreviation collection_add := (collection_add add_existing_raises).

Implicit Types (col : gmap str (EmbeddingRecord.t real)).
Implicit Types (base p : Database) (fk : bool) (n : nat) (j : list event).

Lemma bind_run {A B} (m : M A) (f : A -> M B) (w : World) :
  (m ≫= f) w
  = match m w with
    | (Return a, w') => f a w'
    | (Raise e, w') => (Raise e, w')
    end.
Proof. reflexivity. Qed.

Lemma execute_in_txn
    (stmt : bool -> Database -> exception + Database) (ev : event)
    base fk p col n j :
  execute stmt ev (in_txn base fk p col n j)
  = match stmt fk p with
    | inl e => (Raise e, in_txn base fk p col n j)
    | inr p' => (Return tt, in_txn base fk p' col n (j ++ [ev]))
    end.
Proof. unfold execute. simpl. by destruct (stmt fk p). Qed.

Lemma txn_extends_refl base fk p col n j :
  txn_extends base fk col j (in_txn base fk p col n j).
Proof.
  split; [done |]. split; [by exists p |]. split; [done |].
  exists []. split; [by rewrite app_nil_r | by intros k []].
Qed.

Lemma txn_extends_trans base fk col j col1 j1 (w' : World) :
  col ⊆ col1 ->
  (exists new, j1 = j ++ new /\ adds_stored col1 new) ->
  txn_extends base fk col1 j1 w' ->
  txn_extends base fk col j w'.
Proof.
  intros Hsub [new1 [-> Hnew1]] (Hdb & Hconn & Hsub' & new2 & Hj & Hnew2).
  split; [done |]. split; [done |]. split; [by etrans |].
  exists (new1 ++ new2). split; [by rewrite Hj, app_assoc |].
  intros k Hk. apply in_app_or in Hk as [Hk | Hk]; [| by apply Hnew2].
  destruct (Hnew1 k Hk) as [v Hv].
  exists v. by eapply lookup_weaken.
Qed.

Lemma for_each_execute {A}
    (stmt : A -> bool -> Database -> exception + Database)
    (ev : A -> event) (l : list A) base fk p col n j :
  (forall k x, ev x <> VectorAdd k) ->
  match insert_all stmt fk l p with
  | inr p' =>
      for_each (fun x => execute (stmt x) (ev x)) l (in_txn base fk p col n j)
      = (Return tt, in_txn base fk p' col n (j ++ map ev l))
  | inl e =>
      exists w' : World,
        for_each (fun x => execute (stmt x) (ev x)) l (in_txn base fk p col n j)
        = (Raise e, w') /\
        txn_extends base fk col j w' /\ collection w' = col
  end.
Proof.
  intros Hev. revert p j. induction l as [|x l IH]; intros p j; simpl.
  - by rewrite app_nil_r.
  - rewrite bind_run, execute_in_txn.
    destruct (stmt x fk p) as [e | p1] eqn:Hx.
    + eexists. split; [done |]. split; [apply txn_extends_refl | done].
    + specialize (IH p1 (j ++ [ev x])).
      destruct (insert_all stmt fk l p1) as [e | p2].
      * destruct IH as (w' & Hrun & Hext & Hcol). exists w'.
        split; [done |]. split; [| done].
        eapply txn_extends_trans; [reflexivity | | exact Hext].
        exists [ev x]. split; [done |].
        intros k [Hk | []]. by apply Hev in Hk.
      * rewrite IH. by rewrite <- app_assoc.
Qed.


Lemma id_or_new_run (i : str) (w : World) :
  id_or_new i w
  = (Return (assigned_id i (uuids_drawn w)),
     mkWorld (sql_db w) (connection w) (collection w)
       (drawn_after i (uuids_drawn w)) (journal w)).
Proof.
  unfold Database.id_or_new, Database.assigned_id, drawn_after.
  destruct (truthy i); [by destruct w | done].
Qed.

Lemma collection_add_run (key : str) (rec : EmbeddingRecord.t real)
    base fk p col n j (r : outcome unit) (w' : World) :
  collection_add key rec (in_txn base fk p col n j) = (r, w') ->
  match r with
  | Return _ =>
      exists col', w' = in_txn base fk p col' n (j ++ [VectorAdd key]) /\
                   col ⊆ col' /\ is_Some (col' !! key)
  | Raise _ => w' = in_txn base fk p col n j
  end.
Proof.
  unfold Database.collection_add. simpl.
  destruct (col !! key) as [v |] eqn:Hk.
  - destruct add_existing_raises; intros [= <- <-]; [done |].
    exists col. by rewrite Hk.
  - intros [= <- <-]. exists (<[key := rec]> col). split; [done |].
    split; [by apply insert_subseteq | by rewrite lookup_insert_eq].
Qed.

Lemma with_articles_app p (rows1 rows2 : list LegalArticle.t) :
  with_articles (with_articles p rows1) rows2 = with_articles p (rows1 ++ rows2).
Proof. unfold with_articles. simpl. by rewrite <- app_assoc. Qed.

Lemma with_articles_nil p : with_articles p [] = p.
Proof. unfold with_articles. rewrite app_nil_r. by destruct p. Qed.

(** One article: on return the embedding was added, then the row was
    inserted; on a raise the transaction is merely extended. *)
Lemma add_article_run (i title : str) (a : LegalArticle.t)
    base fk p col n j (r : outcome unit) (w' : World) :
  add_article i title a (in_txn base fk p col n j) = (r, w') ->
  match r with
  | Return _ =>
      exists col',
        w' = in_txn base fk (with_articles p (written_articles i n [a])) col'
               (drawn_after (LegalArticle.id a) n)
               (j ++ flat_map article_events (written_articles i n [a])) /\
        col ⊆ col' /\
        adds_stored col' (flat_map article_events (written_articles i n [a]))
  | Raise _ => txn_extends base fk col j w'
  end.
Proof.
  unfold Database.add_article. rewrite bind_run, id_or_new_run. simpl.
  fold (in_txn base fk p col (drawn_after (LegalArticle.id a) n) j).
  rewrite bind_run.
  destruct (collection_add _ _ _) as [r1 w1] eqn:Hadd.
  apply collection_add_run in Hadd. destruct r1 as [[] | e].
  - destruct Hadd as (col' & -> & Hsub & Hkey). rewrite execute_in_txn.
    destruct (insert_article _ fk p) as [e | p'] eqn:Hins.
    + intros [= <- <-]. eapply txn_extends_trans; [exact Hsub | | apply txn_extends_refl].
      eexists. split; [done |]. intros k [[= <-] | []]. done.
    + intros [= <- <-]. exists col'.
      unfold insert_article, insert_checked in Hins.
      destruct (negb (negb _)); [done |]. destruct (fk && _); [done |].
      injection Hins as <-. split; [| split; [done |]].
      * unfold in_txn, with_articles. simpl. by rewrite <- app_assoc.
      * intros k [[= <-] | [[=] | []]]. done.
  - subst w1. intros [= <- <-]. apply txn_extends_refl.
Qed.

Lemma add_articles_run (i title : str) (articles : list LegalArticle.t)
    base fk p col n j (r : outcome unit) (w' : World) :
  for_each (add_article i title) articles (in_txn base fk p col n j) = (r, w') ->
  match r with
  | Return _ =>
      exists col' n',
        w' = in_txn base fk (with_articles p (written_articles i n articles))
               col' n'
               (j ++ flat_map article_events (written_articles i n articles)) /\
        col ⊆ col' /\
        adds_stored col' (flat_map article_events (written_articles i n articles))
  | Raise _ => txn_extends base fk col j w'
  end.
Proof.
  revert p col n j. induction articles as [|a articles IH]; intros p col n j.
  - simpl. intros [= <- <-]. exists col, n.
    rewrite with_articles_nil, app_nil_r. split; [done |]. split; [done |].
    by intros k [].
  - cbn [for_each]. rewrite bind_run.
    destruct (add_article i title a _) as [r1 w1] eqn:Hone.
    apply add_article_run in Hone. destruct r1 as [[] | e].
    + destruct Hone as (col1 & -> & Hsub1 & Hst1). intros Hrest.
      apply IH in Hrest. destruct r as [[] | e].
      * destruct Hrest as (col2 & n2 & -> & Hsub2 & Hst2). exists col2, n2.
        rewrite with_articles_app, <- app_assoc, <- flat_map_app.
        split; [done |]. split; [by etrans |].
        change (written_articles i n (a :: articles))
          with (written_articles i n [a]
                ++ written_articles i (drawn_after (LegalArticle.id a) n) articles).
        rewrite flat_map_app. intros k Hk.
        apply in_app_or in Hk as [Hk | Hk]; [| by apply Hst2].
        destruct (Hst1 k Hk) as [v Hv]. exists v. by eapply lookup_weaken.
      * eapply txn_extends_trans; [exact Hsub1 | | exact Hrest].
        eexists. split; [done | exact Hst1].
    + intros [= <- <-]. exact Hone.
Qed.


Lemma insert_all_tags (i : str) (tags : list str) fk p p' :
  insert_all (fun tag => insert_tag (TagRow.mk i tag)) fk tags p = inr p' ->
  p' = with_tags p (map (TagRow.mk i) tags).
Proof.
  revert p. induction tags as [|g tags IH]; intros p; simpl.
  - intros [= <-]. unfold with_tags. rewrite app_nil_r. by destruct p.
  - unfold insert_tag at 1, insert_checked.
    destruct (negb (negb _)); [done |]. destruct (fk && _); [done |].
    intros H. apply IH in H as ->. unfold with_tags. simpl.
    by rewrite <- app_assoc.
Qed.

Lemma insert_document_ok (row : DocumentRow.t) fk p p' :
  insert_document row fk p = inr p' ->
  has_document p (DocumentRow.id row) = false /\ p' = with_document p row.
Proof.
  unfold insert_document, insert_checked.
  destruct (has_document p (DocumentRow.id row)); simpl; [done |].
  rewrite andb_false_r. by intros [= <-].
Qed.

Lemma add_document_body_run (i : str) (document : LegalDocument.t datetime)
    base fk col n j (r : outcome str) (w' : World) :
  add_document_body i document (in_txn base fk base col n j) = (r, w') ->
  match r with
  | Return i' =>
      i' = i /\ has_document base i = false /\
      exists col' n',
        w' = in_txn (committed_document base i n document) fk
               (committed_document base i n document) col' n'
               (j ++ document_events i (LegalDocument.tags document)
                       (written_articles i n (LegalDocument.articles document)))
        /\ col ⊆ col'
  | Raise _ => txn_extends base fk col j w'
  end.
Proof.
  unfold Database.add_document_body. rewrite bind_run, execute_in_txn.
  destruct (insert_document _ fk base) as [e | p1] eqn:Hdoc.
  { intros [= <- <-]. apply txn_extends_refl. }
  apply insert_document_ok in Hdoc as [Hfresh ->]. simpl in Hfresh.
  rewrite bind_run.
  pose proof (for_each_execute
    (fun tag => insert_tag (TagRow.mk i tag)) (InsertTag i)
    (LegalDocument.tags document) base fk
    (with_document base (document_row isoformat i document)) col n
    (j ++ [InsertDocument i])) as Htags.
  destruct (insert_all _ fk (LegalDocument.tags document) _) as [e | p2] eqn:Hall.
  { destruct Htags as (w2 & -> & Hext & _); [done |]. intros [= <- <-].
    eapply txn_extends_trans; [reflexivity | | exact Hext].
    eexists. split; [done |]. by intros k [[=] | []]. }
  rewrite Htags; [| done]. apply insert_all_tags in Hall as ->.
  rewrite bind_run.
  destruct (for_each (add_article i _) _ _) as [r3 w3] eqn:Hart.
  apply add_articles_run in Hart. destruct r3 as [[] | e].
  - destruct Hart as (col' & n' & -> & Hsub & _).
    rewrite bind_run. unfold commit, log. simpl. intros [= <- <-].
    split; [done |]. split; [done |]. exists col', n'. split; [| done].
    unfold in_txn, Database.committed_document, document_events.
    by rewrite <- !app_assoc.
  - intros [= <- <-]. eapply txn_extends_trans; [reflexivity | | exact Hart].
    eexists. split; [by rewrite <- app_assoc |].
    intros k Hk. simpl in Hk. destruct Hk as [[=] | Hk].
    apply in_map_iff in Hk as [g [[=] _]].
Qed.

(** What [add_document] does, fully: on return the world holds the
    committed document and the journal its events; on a raise the file is
    as before, the collection only grew, and every vector add journaled
    meanwhile is still stored. *)
Lemma add_document_run (document : LegalDocument.t datetime)
    (w : World) (r : outcome str) (w' : World) :
  add_document document w = (r, w') ->
  let i := assigned_id (LegalDocument.id document) (uuids_drawn w) in
  let n := drawn_after (LegalDocument.id document) (uuids_drawn w) in
  match r with
  | Return i' =>
      i' = i /\ has_document (sql_db w) i = false /\
      exists col' n',
        w' = mkWorld (committed_document (sql_db w) i n document) None col' n'
               (journal w
                ++ document_events i (LegalDocument.tags document)
                     (written_articles i n (LegalDocument.articles document)))
        /\ collection w ⊆ col'
  | Raise _ =>
      sql_db w' = sql_db w /\ connection w' = None /\
      collection w ⊆ collection w' /\
      exists new, journal w' = journal w ++ new
                  /\ adds_stored (collection w') new
  end.
Proof.
  unfold Database.add_document. rewrite bind_run, id_or_new_run.
  rewrite bind_run. unfold connect at 1. simpl.
  fold (in_txn (sql_db w) default_foreign_keys (sql_db w) (collection w)
          (drawn_after (LegalDocument.id document) (uuids_drawn w)) (journal w)).
  unfold try_finally, try_except.
  destruct (add_document_body _ document _) as [r1 w1] eqn:Hbody.
  apply add_document_body_run in Hbody. destruct r1 as [i' | e].
  - destruct Hbody as (-> & Hfresh & col' & n' & -> & Hsub). simpl.
    intros [= <- <-]. split; [done |]. split; [done |]. by exists col', n'.
  - destruct Hbody as (Hdb & [p' Hconn] & Hsub & new & Hj & Hst).
    rewrite bind_run. unfold rollback. rewrite Hconn. simpl.
    intros [= <- <-]. simpl. split; [done |]. split; [done |].
    split; [done |]. exists (new ++ [Rollback]).
    split; [by rewrite Hj, app_assoc |].
    intros k Hk. apply in_app_or in Hk as [Hk | [[=] | []]]. by apply Hst.
Qed.



Lemma written_before_app (a b : event) (j1 j2 j3 : list event) :
  written_before a b (j1 ++ a :: j2 ++ b :: j3) = true.
Proof.
  induction j1 as [|e j1 IH]; simpl.
  - rewrite bool_decide_eq_true_2 by done. simpl.
    rewrite existsb_app. simpl. rewrite bool_decide_eq_true_2 by done.
    by rewrite orb_true_r.
  - rewrite IH. apply orb_true_r.
Qed.

Lemma written_before_last (a b : event) (j : list event) :
  ~ In a j -> written_before a b (j ++ [a]) = false.
Proof.
  induction j as [|e j IH]; simpl.
  - intros _. by rewrite andb_false_r.
  - intros Hnot. rewrite IH by tauto. rewrite orb_false_r.
    rewrite bool_decide_eq_false_2; [done |]. intros ->. tauto.
Qed.

Lemma written_before_in (a b : event) (j post : list event) :
  In a j -> written_before a b (j ++ b :: post) = true.
Proof.
  intros Hin. apply in_split in Hin as (l1 & l2 & ->).
  rewrite <- app_assoc. simpl. apply written_before_app.
Qed.

Lemma written_before_middle (a b : event) (pre mid post : list event) :
  written_before a b mid = true ->
  written_before a b (pre ++ mid ++ post) = true.
Proof.
  intros Hmid. induction pre as [|e pre IH]; simpl.
  - induction mid as [|e mid IH]; [done |]. simpl in *.
    apply orb_true_iff in Hmid as [Hhere | Hlater].
    + apply andb_true_iff in Hhere as [-> Hb]. simpl.
      rewrite existsb_app, Hb. done.
    + rewrite (IH Hlater). apply orb_true_r.
  - rewrite IH. apply orb_true_r.
Qed.

Lemma article_events_order (rows : list LegalArticle.t) (row : LegalArticle.t) :
  In row rows ->
  written_before (VectorAdd (LegalArticle.id row ++ embedding_suffix))
    (InsertArticle (LegalArticle.id row)) (flat_map article_events rows) = true
  /\ In (InsertArticle (LegalArticle.id row)) (flat_map article_events rows).
Proof.
  intros Hin. apply in_split in Hin as (l1 & l2 & ->).
  rewrite flat_map_app. simpl. split.
  - apply (written_before_app _ _ _ [] _).
  - apply in_or_app. right. right. by left.
Qed.

Lemma commit_not_before (i : str) (tags : list str)
    (rows : list LegalArticle.t) :
  ~ In Commit ([InsertDocument i] ++ map (InsertTag i) tags
               ++ flat_map article_events rows).
Proof.
  simpl. intros [H | H]; [done |]. apply in_app_or in H as [H | H].
  - by apply in_map_iff in H as [g [[=] _]].
  - apply in_flat_map in H as [r [_ [[=] | [[=] | []]]]].
Qed.



(** *** Reading a document back *)

Lemma filter_none {A} (f : A -> bool) (l : list A) :
  (forall x, In x l -> f x = false) -> List.filter f l = [].
Proof.
  induction l as [|x l IH]; [done |]. intros H. simpl.
  rewrite (H x) by by left. apply IH. intros y Hy. apply H. by right.
Qed.

Lemma filter_every {A} (f : A -> bool) (l : list A) :
  (forall x, In x l -> f x = true) -> List.filter f l = l.
Proof.
  induction l as [|x l IH]; [done |]. intros H. simpl.
  rewrite (H x) by by left. f_equal. apply IH. intros y Hy. apply H. by right.
Qed.

Lemma find_appended (i : str) (docs : list DocumentRow.t) (row : DocumentRow.t) :
  existsb (fun r => str_eqb (DocumentRow.id r) i) docs = false ->
  DocumentRow.id row = i ->
  List.find (fun r => str_eqb (DocumentRow.id r) i) (docs ++ [row]) = Some row.
Proof.
  intros Hnone Hrow. induction docs as [|d docs IH]; simpl in *.
  - by rewrite Hrow, str_eqb_refl.
  - apply orb_false_iff in Hnone as [-> Hnone]. by apply IH.
Qed.

Lemma written_articles_law_id (i : str) (n : nat)
    (articles : list LegalArticle.t) (row : LegalArticle.t) :
  In row (written_articles i n articles) -> LegalArticle.law_id row = i.
Proof.
  revert n. induction articles as [|a articles IH]; intros n; [done |].
  intros [<- | Hin]; [done | by eapply IH].
Qed.



Lemma rows_have_documents_empty : rows_have_documents empty_database.
Proof. by split; intros r []. Qed.

(** The stores that [add_document] builds keep every tag and article row
    attached to a stored document. *)
Lemma add_document_keeps_rows_attached (document : LegalDocument.t datetime)
    (w : World) (r : outcome str) (w' : World) :
  rows_have_documents (sql_db w) ->
  add_document document w = (r, w') ->
  rows_have_documents (sql_db w').
Proof.
  intros [Htags Harts] Hrun. apply add_document_run in Hrun.
  destruct r as [i' | e].
  - destruct Hrun as (-> & _ & col' & n' & -> & _).
    set (i := assigned_id (LegalDocument.id document) (uuids_drawn w)) in *.
    assert (Hgrow : forall x, has_document (sql_db w) x = true \/ x = i ->
      has_document (committed_document (sql_db w) i
        (drawn_after (LegalDocument.id document) (uuids_drawn w)) document) x
      = true).
    { intros x Hx. unfold has_document in *. simpl. rewrite existsb_app. simpl.
      destruct Hx as [Hx | ->]; [by rewrite Hx |].
      rewrite str_eqb_refl. by rewrite orb_true_r. }
    split; intros r Hr; simpl in Hr; apply in_app_or in Hr as [Hr | Hr];
      apply Hgrow; auto; right.
    + by apply in_map_iff in Hr as [g [<- _]].
    + by apply written_articles_law_id in Hr.
  - destruct Hrun as (-> & _). by split.
Qed.

(** C10.  When [add_document] raises, the relational file is what it was
    before the call, but the collection has lost nothing and still holds
    every embedding added during the call.  And this does leave orphans:
    for the document that lists article "a70" twice, added to a fresh
    store, the call raises and the collection then holds the embedding of
    "a70" while no article row has that id. *)
Theorem failed_add_document_keeps_embeddings (now : datetime) :
  (forall document w e w',
     add_document document w = (Raise e, w') ->
     sql_db w' = sql_db w /\
     collection w ⊆ collection w' /\
     exists new, journal w' = journal w ++ new /\
                 forall k, In (VectorAdd k) new -> is_Some (collection w' !! k))
  /\
  (exists e w' rec,
     add_document (Samples.repeated_article_code now) Samples.fresh_world
     = (Raise e, w') /\
     In (VectorAdd (Samples.id_a70 ++ embedding_suffix)) (journal w') /\
     collection w' !! (Samples.id_a70 ++ embedding_suffix) = Some rec /\
     Metadata.article_id (EmbeddingRecord.metadata rec) = Samples.id_a70 /\
     has_article (sql_db w') Samples.id_a70 = false /\
     legal_articles (sql_db w') = []).
Proof.
  split.
  - intros document w e w' Hrun. apply add_document_run in Hrun.
    by destruct Hrun as (? & _ & ? & ?).
  - exists (if add_existing_raises then IDAlreadyExistsError
            else IntegrityError PrimaryKey).
    exists (snd (add_document (Samples.repeated_article_code now)
                   Samples.fresh_world)).
    exists (EmbeddingRecord.mk real
              (embed_query (LegalArticle.content Samples.article_70))
              (Metadata.mk Samples.id_a70 Samples.id_law1
                 (LegalArticle.number Samples.article_70) Samples.text_labor)
              (LegalArticle.content Samples.article_70)).
    destruct add_existing_raises, default_foreign_keys;
      vm_compute; repeat split; auto.
Qed.


(** *** Amendments *)

Lemma insert_all_affected (i : str) (l : list str) fk p p' :
  insert_all (fun a => insert_affected (AffectedRow.mk i a)) fk l p = inr p' ->
  p' = mkDatabase (legal_documents p) (legal_articles p) (document_tags p)
         (legal_amendments p)
         (amendment_affected_articles p ++ map (AffectedRow.mk i) l).
Proof.
  revert p. induction l as [|a l IH]; intros p; simpl.
  - intros [= <-]. rewrite app_nil_r. by destruct p.
  - unfold insert_affected at 1, insert_checked.
    destruct (negb (negb _)); [done |]. destruct (fk && _); [done |].
    intros H. apply IH in H as ->. simpl. by rewrite <- app_assoc.
Qed.

(** With the pragma on, a missing article id stops the inserts. *)
Lemma insert_all_affected_missing (i : str) (l : list str) p (a : str) :
  In a l -> has_article p a = false ->
  exists e,
    insert_all (fun x => insert_affected (AffectedRow.mk i x)) true l p = inl e.
Proof.
  revert p. induction l as [|x l IH]; intros p; [done |].
  intros Hin Hmiss. simpl. unfold insert_affected at 1, insert_checked.
  destruct (negb (negb _)); [by eexists |]. simpl.
  destruct Hin as [-> | Hin].
  - rewrite Hmiss, andb_false_r. simpl. by eexists.
  - destruct (negb _); [by eexists |]. by apply IH.
Qed.

Lemma add_amendment_body_run (i : str) (amendment : LegalAmendment.t datetime)
    base fk col n j (r : outcome str) (w' : World) :
  add_amendment_body i amendment (in_txn base fk base col n j) = (r, w') ->
  match r with
  | Return i' =>
      i' = i /\
      exists j',
        w' = in_txn
               (with_amendment base (amendment_row i amendment)
                  (map (AffectedRow.mk i)
                       (LegalAmendment.affected_articles amendment)))
               fk
               (with_amendment base (amendment_row i amendment)
                  (map (AffectedRow.mk i)
                       (LegalAmendment.affected_articles amendment)))
               col n j'
  | Raise _ => txn_extends base fk col j w' /\ collection w' = col
  end.
Proof.
  unfold Database.add_amendment_body. rewrite bind_run, execute_in_txn.
  destruct (insert_amendment _ fk base) as [e | p1] eqn:Hrow.
  { intros [= <- <-]. split; [apply txn_extends_refl | done]. }
  unfold insert_amendment, insert_checked in Hrow.
  destruct (negb (negb _)); [done |]. destruct (fk && _); [done |].
  injection Hrow as <-. rewrite bind_run.
  match goal with
  | |- context [for_each ?f ?l (in_txn ?b ?k ?p ?c ?m ?jj)] =>
      pose proof (for_each_execute
        (fun a => insert_affected (AffectedRow.mk i a)) (InsertAffected i)
        l b k p c m jj) as Haff
  end.
  destruct (insert_all _ fk _ _) as [e | p2] eqn:Hall.
  - destruct Haff as (w2 & -> & Hext & Hcol); [done |]. intros [= <- <-].
    split; [| done]. eapply txn_extends_trans; [reflexivity | | exact Hext].
    eexists. split; [done |]. by intros k [[=] | []].
  - rewrite Haff; [| done]. apply insert_all_affected in Hall as ->.
    rewrite bind_run. unfold commit, log. simpl. intros [= <- <-].
    split; [done |]. by eexists.
Qed.

(** What [add_amendment] does: on return the file holds the amendment row
    and one join row for each affected article id; on a raise the file is
    as before. *)
Lemma add_amendment_run (amendment : LegalAmendment.t datetime)
    (w : World) (r : outcome str) (w' : World) :
  add_amendment amendment w = (r, w') ->
  let i := assigned_id (LegalAmendment.id amendment) (uuids_drawn w) in
  connection w' = None /\ collection w' = collection w /\
  match r with
  | Return i' =>
      i' = i /\
      sql_db w'
      = with_amendment (sql_db w) (amendment_row i amendment)
          (map (AffectedRow.mk i) (LegalAmendment.affected_articles amendment))
  | Raise _ => sql_db w' = sql_db w
  end.
Proof.
  unfold Database.add_amendment. rewrite bind_run, id_or_new_run.
  rewrite bind_run. unfold connect at 1. simpl.
  fold (in_txn (sql_db w) default_foreign_keys (sql_db w) (collection w)
          (drawn_after (LegalAmendment.id amendment) (uuids_drawn w))
          (journal w)).
  unfold try_finally, try_except.
  destruct (add_amendment_body _ amendment _) as [r1 w1] eqn:Hbody.
  apply add_amendment_body_run in Hbody. destruct r1 as [i' | e].
  - destruct Hbody as (-> & j' & ->). simpl. by intros [= <- <-].
  - destruct Hbody as ((Hdb & [p' Hconn] & _) & Hcol).
    rewrite bind_run. unfold rollback. rewrite Hconn. simpl.
    by intros [= <- <-].
Qed.

Lemma add_amendment_keeps_rows_attached (amendment : LegalAmendment.t datetime)
    (w : World) (r : outcome str) (w' : World) :
  rows_have_documents (sql_db w) ->
  add_amendment amendment w = (r, w') ->
  rows_have_documents (sql_db w').
Proof.
  intros Hinv Hrun. apply add_amendment_run in Hrun as (_ & _ & Hrun).
  destruct r as [i' | e]; [| by rewrite Hrun].
  destruct Hrun as [_ ->]. exact Hinv.
Qed.

End ManagerFacts.

Section ForeignKeys.

Context {datetime real : Type}.
Context (isoformat : datetime -> str).
Context (uuid : nat -> str).

(** Were the [foreign_keys] pragma on, the FOREIGN KEY that the schema
    declares on [amendment_affected_articles.article_id] would make
    [add_amendment] raise on a missing article id and leave the file as it
    was. *)
Lemma enforced_foreign_keys_reject_missing_article
    (amendment : LegalAmendment.t datetime) (w : @World real) (a : str) :
  In a (LegalAmendment.affected_articles amendment) ->
  has_article (sql_db w) a = false ->
  exists e w',
    add_amendment isoformat uuid true amendment w = (Raise e, w') /\
    sql_db w' = sql_db w.
Proof.
  intros Hin Hmiss.
  destruct (add_amendment isoformat uuid true amendment w) as [r w'] eqn:Hrun.
  pose proof (add_amendment_run isoformat uuid true amendment w r w' Hrun)
    as (_ & _ & Hres).
  destruct r as [i' | e]; [| by exists e, w'].
  exfalso. clear Hres. revert Hrun.
  unfold add_amendment. rewrite bind_run, id_or_new_run.
  rewrite bind_run. unfold connect at 1. simpl.
  fold (in_txn (sql_db w) true (sql_db w) (collection w)
          (drawn_after (LegalAmendment.id amendment) (uuids_drawn w))
          (journal w)).
  unfold try_finally, try_except, add_amendment_body.
  rewrite bind_run, execute_in_txn.
  destruct (insert_amendment _ true (sql_db w)) as [e | p1] eqn:Hrow; [done |].
  unfold insert_amendment, insert_checked in Hrow.
  destruct (negb (negb _)); [done |]. destruct (true && _); [done |].
  injection Hrow as <-. rewrite bind_run.
  match goal with
  | |- context [for_each ?f ?l (in_txn ?b ?k ?p ?c ?m ?jj)] =>
      pose proof (for_each_execute (real := real)
        (fun x => insert_affected (AffectedRow.mk
           (assigned_id uuid (LegalAmendment.id amendment) (uuids_drawn w)) x))
        (InsertAffected
           (assigned_id uuid (LegalAmendment.id amendment) (uuids_drawn w)))
        l b k p c m jj) as Haff;
      destruct (insert_all_affected_missing
        (assigned_id uuid (LegalAmendment.id amendment) (uuids_drawn w))
        l p a Hin Hmiss) as [e He]
  end.
  rewrite He in Haff. destruct Haff as (w2 & -> & (_ & [p' Hconn] & _) & _);
    [done |].
  rewrite bind_run. unfold rollback. rewrite Hconn. done.
Qed.

Lemma insert_all_affected_unchecked (i : str) (l : list str) (p : Database) :
  List.NoDup l ->
  (forall a, In a l -> has_affected p i a = false) ->
  insert_all (fun a => insert_affected (AffectedRow.mk i a)) false l p
  = inr (mkDatabase (legal_documents p) (legal_articles p) (document_tags p)
           (legal_amendments p)
           (amendment_affected_articles p ++ map (AffectedRow.mk i) l)).
Proof.
  revert p. induction l as [|a l IH]; intros p Hnodup Hfresh; simpl.
  - rewrite app_nil_r. by destruct p.
  - unfold insert_affected at 1, insert_checked. simpl.
    rewrite (Hfresh a) by by left. simpl.
    inversion Hnodup as [|? ? Hnotin Hrest]; subst.
    rewrite IH; [simpl; by rewrite <- app_assoc | done |].
    intros b Hb. unfold has_affected. simpl. rewrite existsb_app. simpl.
    rewrite orb_false_r. apply orb_false_iff. split.
    + apply (Hfresh b). by right.
    + apply andb_false_iff. right. apply str_eqb_neq. by intros ->.
Qed.

(** With the pragma off, nothing in [add_amendment] looks at
    [legal_articles]: a new amendment with distinct affected ids is
    committed whether or not those articles exist. *)
Lemma add_amendment_skips_article_check
    (amendment : LegalAmendment.t datetime) (w : @World real) :
  let i := assigned_id uuid (LegalAmendment.id amendment) (uuids_drawn w) in
  has_amendment (sql_db w) i = false ->
  List.NoDup (LegalAmendment.affected_articles amendment) ->
  (forall a, In a (LegalAmendment.affected_articles amendment) ->
             has_affected (sql_db w) i a = false) ->
  exists w',
    add_amendment isoformat uuid false amendment w = (Return i, w') /\
    sql_db w'
    = with_amendment (sql_db w) (amendment_row isoformat i amendment)
        (map (AffectedRow.mk i) (LegalAmendment.affected_articles amendment)).
Proof.
  intros i Hnew Hnodup Hfresh.
  unfold add_amendment. rewrite bind_run, id_or_new_run.
  rewrite bind_run. unfold connect at 1. simpl.
  fold (in_txn (sql_db w) false (sql_db w) (collection w)
          (drawn_after (LegalAmendment.id amendment) (uuids_drawn w))
          (journal w)).
  unfold try_finally, try_except, add_amendment_body.
  rewrite bind_run, execute_in_txn.
  unfold insert_amendment, insert_checked. fold i. simpl. rewrite Hnew. simpl.
  rewrite bind_run.
  match goal with
  | |- context [for_each ?f ?l (in_txn ?b ?k ?p ?c ?m ?jj)] =>
      pose proof (for_each_execute (real := real)
        (fun x => insert_affected (AffectedRow.mk i x)) (InsertAffected i)
        l b k p c m jj) as Haff;
      rewrite (insert_all_affected_unchecked i l p Hnodup Hfresh) in Haff
  end.
  rewrite Haff by done. rewrite bind_run. unfold commit, log. simpl.
  eexists. split; [done |]. done.
Qed.
End ForeignKeys.



(** *** Search with filters *)

Lemma sql_results_dict_lookup (rows : list SqlMetadata.t)
    (acc : gmap str SqlMetadata.t) (k : str) (row : SqlMetadata.t) :
  foldl (fun d r => <[SqlMetadata.article_id r := r]> d) acc rows !! k
  = Some row ->
  (In row rows /\ SqlMetadata.article_id row = k) \/ acc !! k = Some row.
Proof.
  revert acc. induction rows as [|r rows IH]; intros acc; simpl; [by right |].
  intros H. apply IH in H as [[Hin Hk] | Hacc]; [left; by split; [right |] |].
  destruct (decide (SqlMetadata.article_id r = k)) as [Heq | Hne].
  - rewrite <- Heq, lookup_insert_eq in Hacc. injection Hacc as <-.
    left. split; [by left | done].
  - rewrite lookup_insert_ne in Hacc by done. by right.
Qed.

Lemma sql_results_dict_has (rows : list SqlMetadata.t)
    (acc : gmap str SqlMetadata.t) (k : str) :
  (exists row, In row rows /\ SqlMetadata.article_id row = k)
  \/ is_Some (acc !! k) ->
  is_Some (foldl (fun d r => <[SqlMetadata.article_id r := r]> d) acc rows
           !! k).
Proof.
  revert acc. induction rows as [|r rows IH]; intros acc; simpl.
  - by intros [(row & [] & _) | H].
  - intros [(row & [-> | Hin] & Hk) | Hacc]; apply IH.
    + right. rewrite <- Hk, lookup_insert_eq. by eexists.
    + left. by exists row.
    + right. destruct (decide (SqlMetadata.article_id r = k)) as [<- | Hne].
      * rewrite lookup_insert_eq. by eexists.
      * by rewrite lookup_insert_ne.
Qed.

Lemma group_by_article_in (rows : list joined_row) (r : joined_row) :
  In r (group_by_article rows) -> In r rows.
Proof.
  induction rows as [|x rows IH]; [done |]. simpl.
  match goal with
  | |- context [existsb ?f rows] => destruct (existsb f rows)
  end; [by right; apply IH |].
  intros [-> | H]; [by left | by right; apply IH].
Qed.

Lemma group_by_article_keeps_ids (rows : list joined_row) (k : str) :
  (exists r, In r rows /\ LegalArticle.id (fst (fst r)) = k) ->
  exists r, In r (group_by_article rows) /\ LegalArticle.id (fst (fst r)) = k.
Proof.
  induction rows as [|x rows IH]; [by intros (r & [] & _) |].
  intros (r & Hin & Hk). simpl.
  match goal with
  | |- context [existsb ?f rows] => destruct (existsb f rows) eqn:Hdup
  end.
  - apply IH. destruct Hin as [<- | Hin]; [| by exists r].
    apply existsb_exists in Hdup as (r' & Hr' & Heq).
    apply str_eqb_eq in Heq. exists r'. split; [done | congruence].
  - destruct Hin as [<- | Hin]; [exists x; by split; [left |] |].
    destruct IH as (r' & Hr' & Hk'); [by exists r |].
    exists r'. by split; [right |].
Qed.

Section SearchFacts.

Context {real : Type}.
Context (embed_query : str -> list real).
Context (one_minus : real -> real).
Context (collection_query :
  gmap str (EmbeddingRecord.t real) -> list real -> nat -> list (Hit.t real)).

#[local] Abbreviation World := (@World real).
#[local] Abbreviation search_similar :=
  (search_similar embed_query one_minus collection_query).
#[local] Abbreviation format_result := (format_result one_minus).

Lemma left_join_tags_in (db : Database) (la : LegalArticle.t)
    (ld : DocumentRow.t) (r : joined_row) :
  In r (left_join_tags db la ld) <->
  exists t, r = (la, ld, t) /\
    ((t = None /\ forall g, ~ In (TagRow.mk (DocumentRow.id ld) g)
                              (document_tags db)) \/
     (exists g, t = Some g /\
                In (TagRow.mk (DocumentRow.id ld) g) (document_tags db))).
Proof.
  unfold left_join_tags.
  set (mine := List.filter _ (document_tags db)).
  assert (Hmine : forall dt, In dt mine <->
            In dt (document_tags db) /\ TagRow.document_id dt = DocumentRow.id ld).
  { intros dt. unfold mine. rewrite filter_In, str_eqb_eq.
    split; intros [? ?]; by split. }
  destruct mine as [|dt0 rest] eqn:Hm.
  - split.
    + intros [<- | []]. exists None. split; [done |]. left. split; [done |].
      intros g Hg.
      destruct (proj2 (Hmine (TagRow.mk (DocumentRow.id ld) g)) (conj Hg eq_refl)).
    + intros (t & -> & [[-> _] | (g & -> & Hg)]); [by left |].
      destruct (proj2 (Hmine (TagRow.mk (DocumentRow.id ld) g)) (conj Hg eq_refl)).
  - rewrite in_map_iff. split.
    + intros (dt & <- & Hdt). apply Hmine in Hdt as [Hin Hid].
      exists (Some (TagRow.tag dt)). split; [done |]. right.
      exists (TagRow.tag dt). split; [done |]. rewrite <- Hid. by destruct dt.
    + intros (t & -> & [[-> Hnone] | (g & -> & Hg)]).
      * exfalso. apply (Hnone (TagRow.tag dt0)).
        destruct (proj1 (Hmine dt0)) as [Hin Hid]; [by left |].
        rewrite <- Hid. by destruct dt0.
      * exists (TagRow.mk (DocumentRow.id ld) g). split; [done |].
        by apply (proj2 (Hmine _)).
Qed.

Lemma join_tables_in (db : Database) (r : joined_row) :
  In r (join_tables db) <->
  exists la ld,
    In la (legal_articles db) /\ In ld (legal_documents db) /\
    DocumentRow.id ld = LegalArticle.law_id la /\
    In r (left_join_tags db la ld).
Proof.
  unfold join_tables. rewrite in_flat_map. split.
  - intros (la & Hla & Hr). apply in_flat_map in Hr as (ld & Hld & Hr).
    destruct (str_eqb _ _) eqn:Heq; [| done]. apply str_eqb_eq in Heq.
    by exists la, ld.
  - intros (la & ld & Hla & Hld & Heq & Hr). exists la. split; [done |].
    apply in_flat_map. exists ld. split; [done |].
    by rewrite (proj2 (str_eqb_eq _ _)).
Qed.

Lemma left_join_tags_inhabited (db : Database) (la : LegalArticle.t)
    (ld : DocumentRow.t) :
  exists t, In (la, ld, t) (left_join_tags db la ld).
Proof.
  unfold left_join_tags. destruct (List.filter _ _) as [|dt rest].
  - exists None. by left.
  - exists (Some (TagRow.tag dt)). by left.
Qed.


Lemma when_present_iff {V} (key : option V) (clause : V -> bool) :
  when_present key clause = true <-> forall v, key = Some v -> clause v = true.
Proof.
  destruct key as [v |]; simpl.
  - split; [by intros H ? [= <-] | by intros H; apply H].
  - split; [by intros _ ? [=] | done].
Qed.

Lemma null_or_iff (p : str -> bool) (column : option str) :
  null_or p column = true <-> exists c, column = Some c /\ p c = true.
Proof.
  destruct column as [c |]; simpl.
  - split; [by exists c | by intros (? & [= <-] & ?)].
  - split; [done | by intros (? & [=] & _)].
Qed.

Lemma where_condition_iff (ids : list str) (f : Filters.t)
    (la : LegalArticle.t) (ld : DocumentRow.t) (t : option str) :
  where_condition ids f (la, ld, t) = true <->
  In (LegalArticle.id la) ids /\
  (forall v, Filters.document_type f = Some v ->
             DocumentRow.document_type ld = v) /\
  (forall v, Filters.category f = Some v ->
             DocumentRow.category ld = Some v) /\
  (forall ts, Filters.tags f = Some ts -> exists g, t = Some g /\ In g ts) /\
  (forall v, Filters.date_after f = Some v ->
     exists p, DocumentRow.date_published ld = Some p /\ str_le v p = true) /\
  (forall v, Filters.date_before f = Some v ->
     exists p, DocumentRow.date_published ld = Some p /\ str_le p v = true).
Proof.
  unfold where_condition. rewrite !andb_true_iff, !when_present_iff.
  rewrite existsb_exists.
  setoid_rewrite null_or_iff. setoid_rewrite existsb_exists.
  setoid_rewrite str_eqb_eq.
  split.
  - intros ((((((x & Hx & <-) & Hty) & Hcat) & Htag) & Haft) & Hbef).
    split; [done |]. split; [done |]. split.
    { intros v Hv. destruct (Hcat v Hv) as (c & -> & ->). done. }
    split; [| done]. intros ts Hts.
    destruct (Htag ts Hts) as (g & -> & x' & Hx' & <-). by exists g.
  - intros (Hid & Hty & Hcat & Htag & Haft & Hbef).
    repeat split; try done.
    + by exists (LegalArticle.id la).
    + intros v Hv. exists v. by split; [apply Hcat |].
    + intros ts Hts. destruct (Htag ts Hts) as (g & -> & Hg).
      exists g. split; [done |]. by exists g.
Qed.

(** The rows the query keeps for an article id are there exactly when the
    id is a candidate and a document the article joins with satisfies the
    filter. *)
Lemma filtered_join_iff (db : Database) (ids : list str) (f : Filters.t)
    (k : str) :
  (exists r, In r (List.filter (where_condition ids f) (join_tables db))
             /\ LegalArticle.id (fst (fst r)) = k) <->
  In k ids /\ joined_document_satisfies db f k.
Proof.
  split.
  - intros (r & Hr & Hk). apply filter_In in Hr as [Hjoin Hwhere].
    apply join_tables_in in Hjoin as (la & ld & Hla & Hld & Hlaw & Hr).
    apply left_join_tags_in in Hr as (t & -> & Ht).
    apply where_condition_iff in Hwhere
      as (Hid & Hty & Hcat & Htag & Haft & Hbef).
    simpl in Hk. subst k. split; [done |].
    exists la, ld. repeat split; try done.
    intros ts Hts. destruct (Htag ts Hts) as (g & -> & Hg).
    exists g. split; [done |].
    by destruct Ht as [[[=] _] | (g' & [= <-] & Hrow)].
  - intros (Hid & la & ld & Hla & <- & Hld & Hlaw & Hty & Hcat & Htag & Haft & Hbef).
    assert (Hpick : exists t, In (la, ld, t) (left_join_tags db la ld) /\
      forall ts, Filters.tags f = Some ts -> exists g, t = Some g /\ In g ts).
    { destruct (Filters.tags f) as [ts |] eqn:Hts.
      - destruct (Htag ts eq_refl) as (g & Hg & Hrow). exists (Some g). split.
        + apply left_join_tags_in. exists (Some g). split; [done |].
          right. by exists g.
        + intros ? [= <-]. by exists g.
      - destruct (left_join_tags_inhabited db la ld) as [t Ht].
        exists t. by split. }
    destruct Hpick as (t & Hrow & Htags).
    exists (la, ld, t). split; [| done]. apply filter_In. split.
    + apply join_tables_in. by exists la, ld.
    + apply where_condition_iff. repeat split; done.
Qed.

Lemma select_columns_id (r : joined_row) :
  SqlMetadata.article_id (select_columns r) = LegalArticle.id (fst (fst r)).
Proof. by destruct r as [[la ld] t]. Qed.

Lemma sql_results_has_id (db : Database) (ids : list str) (f : Filters.t)
    (k : str) :
  (exists row, In row (sql_results db ids f) /\ SqlMetadata.article_id row = k)
  <-> In k ids /\ joined_document_satisfies db f k.
Proof.
  rewrite <- filtered_join_iff. unfold sql_results. split.
  - intros (row & Hrow & Hk). apply in_map_iff in Hrow as (r & <- & Hr).
    exists r. split; [by apply group_by_article_in |].
    by rewrite <- select_columns_id.
  - intros Hex. apply group_by_article_keeps_ids in Hex as (r & Hr & Hk).
    exists (select_columns r). split; [by apply in_map |].
    by rewrite select_columns_id.
Qed.

Lemma sql_results_dict_is_some (db : Database) (ids : list str)
    (f : Filters.t) (k : str) :
  is_Some (sql_results_dict (sql_results db ids f) !! k) <->
  In k ids /\ joined_document_satisfies db f k.
Proof.
  rewrite <- sql_results_has_id. unfold sql_results_dict. split.
  - intros [row Hrow]. apply sql_results_dict_lookup in Hrow as [[? ?] | Hrow].
    + by exists row.
    + by rewrite lookup_empty in Hrow.
  - intros Hex. apply sql_results_dict_has. by left.
Qed.

Lemma clear_set_sql_metadata (row : SqlMetadata.t) (r : Result.t real) :
  Result.sql_metadata r = None ->
  clear_sql_metadata (set_sql_metadata row r) = r.
Proof. destruct r. simpl. by intros ->. Qed.

Lemma merged_results_filter (d : gmap str SqlMetadata.t)
    (l : list (Result.t real)) :
  (forall r, In r l -> Result.sql_metadata r = None) ->
  map clear_sql_metadata
    (flat_map
       (fun result =>
          match d !! Metadata.article_id (Result.metadata result) with
          | Some row => [set_sql_metadata row result]
          | None => []
          end) l)
  = List.filter
      (fun r => match d !! result_article_id r with
                | Some _ => true
                | None => false
                end) l.
Proof.
  induction l as [|r l IH]; [done |]. intros Hnone. simpl.
  rewrite map_app, IH by (intros; apply Hnone; by right).
  unfold result_article_id.
  destruct (d !! _) as [row |]; [| done]. simpl.
  rewrite clear_set_sql_metadata; [done |]. apply Hnone. by left.
Qed.

Lemma merged_results_enriched (d : gmap str SqlMetadata.t)
    (l : list (Result.t real)) (r : Result.t real) :
  In r (flat_map
          (fun result =>
             match d !! Metadata.article_id (Result.metadata result) with
             | Some row => [set_sql_metadata row result]
             | None => []
             end) l) ->
  exists row, Result.sql_metadata r = Some row
              /\ d !! result_article_id r = Some row.
Proof.
  intros Hin. apply in_flat_map in Hin as (x & _ & Hin).
  destruct (d !! _) as [row |] eqn:Hd; [| done].
  destruct Hin as [<- | []]. by exists row.
Qed.

Lemma strongly_sorted_filter {A B} (R : B -> B -> Prop) (g : A -> B)
    (p : A -> bool) (l : list A) :
  StronglySorted R (map g l) -> StronglySorted R (map g (List.filter p l)).
Proof.
  induction l as [|x l IH]; [done |]. simpl. intros Hs.
  apply StronglySorted_inv in Hs as [Hs Hall].
  destruct (p x); [| by apply IH]. simpl. constructor; [by apply IH |].
  rewrite List.Forall_forall in *. intros y Hy. apply Hall.
  apply in_map_iff in Hy as (z & <- & Hz). apply in_map.
  by apply filter_In in Hz as [? _].
Qed.

Lemma similarity_clear (l : list (Result.t real)) :
  map Result.similarity (map clear_sql_metadata l) = map Result.similarity l.
Proof. rewrite map_map. by apply map_ext. Qed.


End SearchFacts.


(** *** The operations on the sample data *)

Section Examples.

#[local] Abbreviation run_add_document :=
  (add_document Samples.sample_isoformat Samples.sample_embed
     Samples.sample_uuid false false).
#[local] Abbreviation run_add_amendment :=
  (add_amendment Samples.sample_isoformat Samples.sample_uuid false).
#[local] Abbreviation run_search :=
  (search_similar Samples.sample_embed Samples.sample_one_minus
     Samples.sample_query).
#[local] Abbreviation fresh := (Samples.fresh_world (real := Z)).

(** C1, on the code.  On a fresh store, with the [foreign_keys] pragma at
    SQLite's default (off), [add_amendment] of an amendment whose affected
    article id has no article row returns the amendment id and commits the
    amendment row and the join row. *)
Theorem dangling_amendment_is_committed :
  has_article (sql_db fresh) Samples.id_missing = false /\
  fst (run_add_amendment Samples.dangling_amendment fresh)
  = Return Samples.id_am1 /\
  legal_amendments
    (sql_db (snd (run_add_amendment Samples.dangling_amendment fresh)))
  = [ amendment_row Samples.sample_isoformat Samples.id_am1
        Samples.dangling_amendment ] /\
  amendment_affected_articles
    (sql_db (snd (run_add_amendment Samples.dangling_amendment fresh)))
  = [ AffectedRow.mk Samples.id_am1 Samples.id_missing ].
Proof. vm_compute. done. Qed.




Lemma failed_add_document_keeps_embeddings_witness :
  sql_db (snd (run_add_document (Samples.repeated_article_code Samples.new_year)
                 fresh))
  = sql_db fresh.
Proof.
  destruct (failed_add_document_keeps_embeddings Samples.sample_isoformat
              Samples.sample_embed Samples.sample_uuid false false
              Samples.new_year) as [Hall _].
  destruct (Hall (Samples.repeated_article_code Samples.new_year) fresh
              (IntegrityError PrimaryKey)
              (snd (run_add_document
                      (Samples.repeated_article_code Samples.new_year) fresh)))
    as (Hdb & _).
  - vm_compute. reflexivity.
  - exact Hdb.
Defined.

(** With the filter [{"tags": ["labor"]}] the stored articles stay, in
    order, and the unknown one is dropped; with [{"tags": ["tax"]}]
    nothing stays; with an empty dict everything does. *)
Lemma search_similar_on_samples :
  let w' := snd (run_add_document Samples.labor_code fresh) in
  map result_article_id
      (run_search w' [] 5 (Some Samples.labor_tag_filter))
  = [Samples.id_a70; Samples.id_a155] /\
  run_search w' [] 5 (Some Samples.tax_tag_filter) = [] /\
  map result_article_id (run_search w' [] 5 (Some Filters.empty))
  = [Samples.id_a70; Samples.id_missing; Samples.id_a155].
Proof. vm_compute. done. Qed.


End Examples.

End DatabaseFacts.

(** ** The segmenter as a grouping of lines *)

Module ScraperBlocksFacts.
Import PyStr PyStrFacts Scraper ScraperFacts ScraperBlocks.

Lemma join_lines_cons (m : str) (b : list str) :
  join_lines (m :: b) = m ++ concat (map (cons 10%N) b).
Proof. done. Qed.

Lemma group_lines_trimmed (ls : list str) :
  Forall trimmed ls ->
  Forall trimmed (fst (group_lines ls)) /\
  Forall (Forall trimmed) (snd (group_lines ls)).
Proof.
  induction 1 as [|l ls Hl Hls [IH0 IHs]]; simpl; [by split |].
  destruct (group_lines ls) as [b bs]. simpl in *.
  destruct (starts_new_article l); simpl; split; auto.
Qed.

Lemma group_lines_heads (ls : list str) :
  Forall (fun b => exists m rest, b = m :: rest
                                 /\ starts_new_article m = true)
         (snd (group_lines ls)).
Proof.
  induction ls as [|l ls IH]; simpl; [done |].
  destruct (group_lines ls) as [b bs]. simpl in *.
  destruct (starts_new_article l) eqn:Hl; simpl; [| done].
  constructor; [by exists l, b | done].
Qed.

Lemma save_segment_extend_initial (b : list str) :
  Forall trimmed b ->
  save_segment (extend_buffer initial_state b) = preamble_segment b.
Proof.
  intros Hb. destruct b as [|l b]; [done |].
  unfold save_segment, extend_buffer. simpl.
  change (10%N :: l ++ concat (map (cons 10%N) b))
    with (10%N :: join_lines (l :: b)).
  rewrite strip_after_newline; [done |]. by apply join_lines_trimmed.
Qed.

(** From any loop state, scanning raw lines saves what the state had
    pending, extended by the lines before the next marker line, and then
    one segment for each block. *)
Lemma scan_groups (raws : list str) (st : scan_state) :
  let blocks := group_lines (List.filter truthy (map strip raws)) in
  save_segment (fold_left scan_line raws st)
  = save_segment (extend_buffer st (fst blocks))
    ++ map article_segment (snd blocks).
Proof.
  revert st. induction raws as [|raw raws IH]; intros st; simpl.
  - unfold extend_buffer. simpl. rewrite !app_nil_r. by destruct st.
  - rewrite IH. unfold scan_line.
    pose proof (strip_trimmed raw) as Htrim.
    destruct (truthy (strip raw)) eqn:Hne; simpl; [| done].
    assert (Hall : Forall trimmed (List.filter truthy (map strip raws))).
    { apply Forall_forall. intros l Hl. apply list_elem_of_In in Hl.
      apply filter_In in Hl as [Hin Hl]. apply in_map_iff in Hin as [r [<- _]].
      by apply strip_trimmed. }
    apply group_lines_trimmed in Hall as [Hb _].
    destruct (group_lines (List.filter truthy (map strip raws))) as [b bs].
    simpl in *. destruct (starts_new_article (strip raw)) eqn:Hm; simpl.
    + assert (Hopen : save_segment (extend_buffer (open_article st (strip raw)) b)
                      = save_segment (extend_buffer st [])
                        ++ [article_segment (strip raw :: b)]).
      { unfold save_segment at 1. unfold extend_buffer at 1. simpl.
        destruct (strip raw) as [|c t] eqn:Hline; [done |]. simpl. f_equal.
        - unfold extend_buffer, save_segment. simpl. by rewrite app_nil_r.
        - unfold article_segment. simpl. f_equal. f_equal.
          change (c :: t ++ concat (map (cons 10%N) b))
            with (join_lines ((c :: t) :: b)).
          apply strip_of_trimmed, join_lines_trimmed; [done |].
          constructor; [by apply Htrim | done]. }
      rewrite Hopen, <- app_assoc. done.
    + f_equal. unfold extend_buffer, append_line. simpl.
      by rewrite <- app_assoc.
Qed.

(** The loop and the grouping of the kept lines give the same segments. *)
Lemma raw_segments_grouped (full_text : str) :
  raw_segments full_text
  = segments_of_blocks (group_lines (kept_lines full_text)).
Proof.
  unfold raw_segments, segments_of_blocks, kept_lines.
  rewrite scan_groups. cbv zeta. f_equal.
  apply save_segment_extend_initial.
  apply group_lines_trimmed. apply (kept_lines_trimmed full_text).
Qed.

(** X1.  The segments the loop emits before the post-filter are those of
    the grouping of the kept lines: one segment numbered "Preamble" for
    the lines before the first marker line when there are any, then one
    segment for each marker line, numbered from that line, whose content
    is the marker line and the lines up to the next marker line joined by
    line feeds. *)
Theorem raw_segments_are_blocks (full_text : str) :
  raw_segments full_text
  = segments_of_blocks (group_lines (kept_lines full_text)).
Proof. apply raw_segments_grouped. Qed.

Lemma group_lines_count (ls : list str) :
  length (snd (group_lines ls)) = count_markers ls.
Proof.
  unfold count_markers. induction ls as [|l ls IH]; simpl; [done |].
  destruct (group_lines ls) as [b bs]. simpl in *.
  destruct (starts_new_article l); simpl; by rewrite IH.
Qed.

(** X2.  Every marker line gives exactly one segment, and the lines before
    the first marker line give at most one more: the loop emits as many
    segments as there are marker lines, or one more, and the output has at
    most one article more than there are marker lines. *)
Theorem segment_count (full_text : str) :
  let markers := count_markers (kept_lines full_text) in
  markers <= length (raw_segments full_text) <= S markers /\
  length (extract_articles full_text) <= S markers.
Proof.
  intros markers.
  assert (Hraw : markers <= length (raw_segments full_text) <= S markers).
  { rewrite raw_segments_grouped. unfold segments_of_blocks.
    rewrite length_app, length_map, group_lines_count. fold markers.
    destruct (fst (group_lines (kept_lines full_text))); simpl; lia. }
  split; [done |]. unfold extract_articles.
  pose proof (filter_length_le keep_segment (raw_segments full_text)). lia.
Qed.

Lemma next_article_num_stem (line : str) :
  startswith (next_article_num line) marker_stem = true.
Proof.
  unfold next_article_num. destruct (match_article_number line); [done |].
  destruct (split_ws line) as [|w ws]; [done |].
  by destruct (startswith w marker_stem) eqn:Hw.
Qed.

Lemma startswith_app (s p t : str) :
  startswith s p = true -> startswith (s ++ t) p = true.
Proof.
  rewrite !startswith_prefix. intros [u ->]. exists (u ++ t).
  by rewrite app_assoc.
Qed.

Lemma article_segments_numbered (ls : list str) :
  Forall numbered_article (map article_segment (snd (group_lines ls))).
Proof.
  apply Forall_map. eapply Forall_impl; [apply group_lines_heads |].
  intros b (m & rest & -> & Hm). split; [apply next_article_num_stem |].
  unfold article_segment. rewrite join_lines_cons. simpl content.
  unfold starts_new_article in Hm. apply orb_true_iff in Hm as [Hm | Hm].
  - left. by apply startswith_app.
  - right. apply andb_true_iff in Hm as [Hm _]. by apply startswith_app.
Qed.

Lemma raw_contents_trimmed (full_text : str) :
  Forall (fun seg => trimmed (content seg)) (raw_segments full_text).
Proof.
  rewrite raw_segments_grouped. unfold segments_of_blocks.
  pose proof (group_lines_trimmed _ (kept_lines_trimmed full_text)) as [H0 Hs].
  pose proof (group_lines_heads (kept_lines full_text)) as Hh.
  apply Forall_app. split.
  - destruct (fst (group_lines (kept_lines full_text))) as [|l b] eqn:Hb;
      [done |].
    constructor; [| done]. by apply join_lines_trimmed.
  - apply Forall_map. apply Forall_forall. intros b Hb.
    rewrite Forall_forall in Hs, Hh.
    destruct (Hh b Hb) as (m & rest & -> & _).
    apply join_lines_trimmed; [done | by apply Hs].
Qed.

(** X3.  In the output only the first article can be the "Preamble":
    every article after the first has a number that starts with "Чл" and a
    content that starts with one of the two markers, and so has the first
    one unless it is numbered "Preamble".  No content begins or ends with
    whitespace. *)
Theorem output_numbering (full_text : str) :
  let out := extract_articles full_text in
  Forall numbered_article (tail out) /\
  Forall (fun seg => number seg = preamble \/ numbered_article seg) out /\
  Forall (fun seg => trimmed (content seg)) out.
Proof.
  intros out. unfold out, extract_articles.
  assert (Hkeep : forall l : list segment,
            Forall numbered_article l ->
            Forall numbered_article (List.filter keep_segment l)).
  { intros l Hl. rewrite Forall_forall in *. intros seg Hseg. apply Hl.
    apply list_elem_of_In in Hseg. apply list_elem_of_In.
    by apply filter_In in Hseg as [? _]. }
  pose proof (article_segments_numbered (kept_lines full_text)) as Harts.
  apply Hkeep in Harts.
  split; [| split].
  - rewrite raw_segments_grouped. unfold segments_of_blocks.
    rewrite List.filter_app.
    destruct (fst (group_lines (kept_lines full_text))) as [|l b];
      simpl; [by apply Forall_tail |].
    destruct (keep_segment _); simpl; [done | by apply Forall_tail].
  - rewrite raw_segments_grouped. unfold segments_of_blocks.
    rewrite List.filter_app. apply Forall_app. split.
    + destruct (fst (group_lines (kept_lines full_text))) as [|l b];
        simpl; [done |].
      destruct (keep_segment _); [| done]. constructor; [by left | done].
    + eapply Forall_impl; [exact Harts |]. intros seg Hseg. by right.
  - pose proof (raw_contents_trimmed full_text) as Htrim.
    rewrite Forall_forall in *. intros seg Hseg. apply Htrim.
    apply list_elem_of_In in Hseg. apply list_elem_of_In.
    by apply filter_In in Hseg as [? _].
Qed.

Lemma group_lines_concat (ls : list str) :
  fst (group_lines ls) ++ concat (snd (group_lines ls)) = ls.
Proof.
  induction ls as [|l ls IH]; simpl; [done |].
  destruct (group_lines ls) as [b bs]. simpl in *.
  destruct (starts_new_article l); simpl; by rewrite IH.
Qed.

Lemma join_lines_drop (ls : list str) :
  join_lines ls = drop 1 (concat (map (cons 10%N) ls)).
Proof. by destruct ls. Qed.

Lemma newline_join_blocks (bs : list (list str)) :
  Forall (fun b => b <> []) bs ->
  concat (map (cons 10%N) (map join_lines bs))
  = concat (map (cons 10%N) (concat bs)).
Proof.
  induction 1 as [|b bs Hb Hbs IH]; [done |]. simpl.
  rewrite IH, map_app, concat_app. f_equal. by destruct b.
Qed.

(** X4.  Before the post-filter nothing is lost and nothing is reordered:
    the contents of the emitted segments, joined by line feeds, are the
    non-blank lines of the input, each stripped, joined by line feeds. *)
Theorem segments_partition_text (full_text : str) :
  join_lines (map content (raw_segments full_text))
  = join_lines (kept_lines full_text).
Proof.
  rewrite raw_segments_grouped, !join_lines_drop. f_equal.
  unfold segments_of_blocks.
  rewrite <- (group_lines_concat (kept_lines full_text)) at 3.
  pose proof (group_lines_heads (kept_lines full_text)) as Hh.
  rewrite !map_app, !concat_app. f_equal.
  - destruct (fst (group_lines (kept_lines full_text))); simpl;
      by rewrite ?app_nil_r.
  - rewrite (List.map_map article_segment content).
    rewrite (map_ext _ join_lines) by done.
    apply newline_join_blocks. eapply Forall_impl; [exact Hh |].
    by intros b (m & rest & -> & _).
Qed.

End ScraperBlocksFacts.

(** ** The fallback strategies and the publication date *)

Module ScraperFallbackFacts.
Import PyStr PyStrFacts Scraper ScraperFallback.

Lemma strip_idempotent (s : str) : strip (strip s) = strip s.
Proof.
  destruct (truthy (strip s)) eqn:Hne.
  - by apply strip_of_trimmed, strip_trimmed.
  - by destruct (strip s).
Qed.

Lemma strip_within (s : str) :
  exists ws b, s = ws ++ strip s ++ b /\ forallb isspace ws = true.
Proof.
  destruct (rstrip_split (lstrip s)) as [tl Htl].
  exists (take_while isspace s), tl. split; [| apply take_while_all].
  unfold strip. rewrite <- Htl. apply drop_while_split.
Qed.

(** X5.  In the fallback strategies the article number is never read from
    the text: an element whose text starts with "Чл." is numbered just
    "Чл.", and one whose text starts with "Art." is numbered "Чл. Art",
    whatever follows and whatever its [id] attribute; the content is the
    rest of the text, after the marker, stripped. *)
Theorem fallback_number_is_bare_marker (article_id : option str) (rest : str) :
  fallback_article article_id (marker_abbrev ++ rest)
  = {| number := marker_abbrev; content := strip rest |} /\
  fallback_article article_id (marker_art ++ rest)
  = {| number := number_art; content := strip rest |}.
Proof.
  split; unfold fallback_article; simpl; rewrite strip_idempotent; f_equal.
Qed.

Lemma before_first_char (c : N) (s : str) : ~ In c (before_first [c] s).
Proof.
  induction s as [|d s IH]; simpl; [tauto |].
  destruct (c =? d)%N eqn:Hcd; simpl; [tauto |].
  apply N.eqb_neq in Hcd. intros [Heq | Hin]; [by symmetry in Heq | tauto].
Qed.

Lemma before_first_prefix (sep s : str) :
  exists rest, s = before_first sep s ++ rest.
Proof.
  induction s as [|c s [rest IH]].
  - exists []. simpl. by destruct (startswith [] sep).
  - simpl. destruct (startswith (c :: s) sep); [by exists (c :: s) |].
    exists rest. simpl. by f_equal.
Qed.

Lemma after_first_split (sep s u : str) :
  after_first sep s = Some u -> exists a, s = a ++ sep ++ u.
Proof.
  induction s as [|c s IH]; simpl.
  - destruct (startswith [] sep) eqn:Hs; [| done].
    intros [= <-]. apply startswith_prefix in Hs as [t Ht].
    exists []. destruct sep; [by destruct t | done].
  - destruct (startswith (c :: s) sep) eqn:Hs.
    + intros [= <-]. apply startswith_prefix in Hs as [t Ht]. exists [].
      simpl. rewrite Ht at 1. f_equal. rewrite Ht.
      by rewrite drop_app_length.
    + intros Hu. destruct (IH Hu) as [a ->]. by exists (c :: a).
Qed.

Lemma contains_after_first (sep s : str) :
  contains s sep = true -> exists u, after_first sep s = Some u.
Proof.
  induction s as [|c s IH]; simpl.
  - rewrite orb_false_r. intros ->. by eexists.
  - destruct (startswith (c :: s) sep); [by eexists | simpl; apply IH].
Qed.



Lemma before_first_skip (c0 : N) (sep' ws u : str) :
  forallb (fun c => negb (c0 =? c)%N) ws = true ->
  before_first (c0 :: sep') (ws ++ u) = ws ++ before_first (c0 :: sep') u.
Proof.
  induction ws as [|c ws IH]; [done |]. intros Hws.
  apply andb_true_iff in Hws as [Hc Hws]. apply negb_true_iff in Hc.
  cbn [app before_first startswith]. rewrite Hc. cbn [andb].
  by rewrite IH.
Qed.

Lemma after_first_contains (sep s u : str) :
  after_first sep s = Some u -> contains s sep = true.
Proof.
  induction s as [|c s IH]; simpl.
  - by destruct (startswith [] sep).
  - destruct (startswith (c :: s) sep); [done |]. simpl. apply IH.
Qed.

Lemma whitespace_skipped (c0 : N) (ws : str) :
  isspace c0 = false -> forallb isspace ws = true ->
  forallb (fun c => negb (c0 =? c)%N) ws = true.
Proof.
  intros Hc0 Hws. apply forallb_forall. intros c Hc.
  apply negb_true_iff, N.eqb_neq. intros <-.
  rewrite forallb_forall in Hws. specialize (Hws c0 Hc). congruence.
Qed.

Lemma strip_whitespace (ws : str) : forallb isspace ws = true -> strip ws = [].
Proof.
  intros Hws. unfold strip, lstrip.
  assert (drop_while isspace ws = []) as ->; [| done].
  induction ws as [|c ws IH]; [done |]. simpl in *.
  apply andb_true_iff in Hws as [-> Hws]. by apply IH.
Qed.

(** X7.  The publication date is cut at the first comma after the
    marker: when only whitespace stands between the first "Обн. ДВ" and a
    comma, as in "Обн. ДВ, бр. 26 от ...", the date is the empty text,
    whatever follows the comma. *)
Theorem published_date_empty_before_comma (t ws rest : str) :
  after_first published_marker t = Some (ws ++ comma ++ rest) ->
  forallb isspace ws = true ->
  published_date (Some t) = [].
Proof.
  intros Hafter Hws. unfold published_date.
  assert (truthy t = true) as ->.
  { destruct t; [by vm_compute in Hafter | done]. }
  rewrite (after_first_contains _ _ _ Hafter).
  unfold second_piece. rewrite Hafter.
  unfold published_marker at 1.
  rewrite before_first_skip by (by apply whitespace_skipped).
  unfold comma.
  rewrite before_first_skip by (by apply whitespace_skipped).
  change (before_first [44%N] _) with (@nil N).
  by rewrite app_nil_r, !(strip_whitespace ws Hws).
Qed.

Lemma published_date_empty_before_comma_witness :
  published_date (Some sample_title_text) = [].
Proof.
  apply (published_date_empty_before_comma sample_title_text []
           (drop 8 sample_title_text)).
  - vm_compute. reflexivity.
  - reflexivity.
Defined.

End ScraperFallbackFacts.

(** ** More of the hybrid store *)

Module DatabaseMoreFacts.
Import PyStr Database DatabaseFacts DatabaseMore.

Lemma join_article_documents_in (db : Database)
    (r : LegalArticle.t * DocumentRow.t) :
  In r (join_article_documents db) <->
  In (fst r) (legal_articles db) /\ In (snd r) (legal_documents db) /\
  DocumentRow.id (snd r) = LegalArticle.law_id (fst r).
Proof.
  unfold join_article_documents. rewrite in_flat_map. split.
  - intros (la & Hla & Hr). apply in_map_iff in Hr as (ld & <- & Hld).
    apply filter_In in Hld as [Hld Heq]. apply str_eqb_eq in Heq. by simpl.
  - intros (Hla & Hld & Heq). exists (fst r). split; [done |].
    apply in_map_iff. exists (snd r). split; [by destruct r |].
    apply filter_In. split; [done |]. by apply str_eqb_eq.
Qed.

Lemma unique_by_key {A} (key : A -> str) (l : list A) (a b : A) :
  NoDup (map key l) -> In a l -> In b l -> key a = key b -> a = b.
Proof.
  induction l as [|x l IH]; [done |]. simpl. intros Hnd.
  apply NoDup_cons in Hnd as [Hx Hnd]. intros [-> | Ha] [-> | Hb] Heq.
  - done.
  - exfalso. apply Hx. rewrite Heq. apply list_elem_of_In. by apply in_map.
  - exfalso. apply Hx. rewrite <- Heq. apply list_elem_of_In. by apply in_map.
  - by apply IH.
Qed.

(** What [get_article_by_id] returns is a row of the join. *)
Lemma get_article_by_id_some (db : Database) (article_id : str)
    (d : ArticleDict.t) :
  get_article_by_id db article_id = Some d ->
  exists la ld,
    In la (legal_articles db) /\ LegalArticle.id la = article_id /\
    In ld (legal_documents db) /\
    DocumentRow.id ld = LegalArticle.law_id la /\
    d = article_dict (la, ld).
Proof.
  unfold get_article_by_id.
  destruct (List.find _ (join_article_documents db)) as [[la ld] |] eqn:Hfind;
    [| done].
  apply find_some in Hfind as [Hin Hid]. apply str_eqb_eq in Hid.
  apply join_article_documents_in in Hin as (Hla & Hld & Hlaw). simpl in *.
  intros [= <-]. by exists la, ld.
Qed.

(** A row of the join with the id is enough for [get_article_by_id] to
    return. *)
Lemma get_article_by_id_hit (db : Database) (la : LegalArticle.t)
    (ld : DocumentRow.t) :
  In la (legal_articles db) -> In ld (legal_documents db) ->
  DocumentRow.id ld = LegalArticle.law_id la ->
  get_article_by_id db (LegalArticle.id la) <> None.
Proof.
  intros Hla Hld Hlaw. unfold get_article_by_id.
  destruct (List.find _ (join_article_documents db)) as [row |] eqn:Hfind;
    [done |].
  pose proof (find_none _ _ Hfind (la, ld)) as Hno. simpl in Hno.
  rewrite str_eqb_refl in Hno.
  assert (true = false); [| done]. apply Hno.
  by apply join_article_documents_in.
Qed.

(** In a consistent store [get_article_by_id] on the id of a stored
    article whose document is stored returns that article with the title,
    type, publication date, category and subcategory of that document. *)
Lemma get_article_by_id_joined (db : Database) (la : LegalArticle.t)
    (ld : DocumentRow.t) :
  store_consistent db ->
  In la (legal_articles db) -> In ld (legal_documents db) ->
  DocumentRow.id ld = LegalArticle.law_id la ->
  get_article_by_id db (LegalArticle.id la) = Some (article_dict (la, ld)).
Proof.
  intros (Hdocs & Harts & _) Hla Hld Hlaw.
  destruct (get_article_by_id db (LegalArticle.id la)) as [d |] eqn:Hget.
  - apply get_article_by_id_some in Hget
      as (la' & ld' & Hla' & Hid & Hld' & Hlaw' & ->).
    assert (la' = la) as -> by by apply (unique_by_key LegalArticle.id _ _ _ Harts).
    assert (ld' = ld) as ->; [| done].
    apply (unique_by_key DocumentRow.id _ _ _ Hdocs); congruence.
  - by apply (get_article_by_id_hit db la ld) in Hget.
Qed.

(** X8.  [get_article_by_id] finds an article only together with its
    document: it returns [None] exactly when no stored article has the id
    or the article's [law_id] is the id of no stored document (so an
    article row without its document is not found), and what it returns
    otherwise is a stored article with that id and the columns of a
    document it belongs to. *)
Theorem get_article_by_id_not_found (db : Database) (article_id : str) :
  (get_article_by_id db article_id = None <->
   ~ exists la ld,
       In la (legal_articles db) /\ LegalArticle.id la = article_id /\
       In ld (legal_documents db) /\
       DocumentRow.id ld = LegalArticle.law_id la) /\
  (forall d, get_article_by_id db article_id = Some d ->
     exists la ld,
       In la (legal_articles db) /\ LegalArticle.id la = article_id /\
       In ld (legal_documents db) /\
       DocumentRow.id ld = LegalArticle.law_id la /\
       d = article_dict (la, ld)).
Proof.
  split; [| apply get_article_by_id_some]. split.
  - intros Hnone (la & ld & Hla & <- & Hld & Hlaw).
    by apply (get_article_by_id_hit db la ld).
  - intros Hno.
    destruct (get_article_by_id db article_id) as [d |] eqn:Hget; [| done].
    exfalso. apply Hno.
    apply get_article_by_id_some in Hget as (la & ld & ? & ? & ? & ? & _).
    by exists la, ld.
Qed.

Section ManagerMoreFacts.

Context {datetime real : Type}.
Context (isoformat : datetime -> str).
Context (embed_query : str -> list real).
Context (uuid : nat -> str).
Context (default_foreign_keys : bool).
Context (add_existing_raises : bool).

#[local] Abbreviation World := (@World real).
#[local] Abbreviation add_article :=
  (add_article embed_query uuid add_existing_raises).
#[local] Abbreviation add_document :=
  (add_document isoformat embed_query uuid default_foreign_keys
     add_existing_raises).
#[local] Abbreviation add_document_body :=
  (add_document_body isoformat embed_query uuid add_existing_raises).
#[local] Abbreviation add_amendment :=
  (add_amendment isoformat uuid default_foreign_keys).
#[local] Abbreviation written_articles := (written_articles uuid).
#[local] Abbreviation assigned_id := (assigned_id uuid).
#[local] Abbreviation committed_document :=
  (committed_document isoformat uuid).
#[local] Abbreviation article_record := (article_record embed_query).

Implicit Types (col : gmap str (EmbeddingRecord.t real)).
Implicit Types (base p : Database) (fk : bool) (n : nat) (j : list event).

Lemma has_article_app p (rows : list LegalArticle.t) (i : str) :
  has_article (with_articles p rows) i
  = has_article p i || existsb (fun r => str_eqb (LegalArticle.id r) i) rows.
Proof. unfold has_article. simpl. apply existsb_app. Qed.

Lemma not_has_article_not_in p (i : str) :
  has_article p i = false -> ~ In i (map LegalArticle.id (legal_articles p)).
Proof.
  intros Hno Hin. apply in_map_iff in Hin as (r & Hr & Hin).
  assert (has_article p i = true); [| congruence].
  apply has_article_iff. by exists r.
Qed.

(** A returning [add_article] inserted a row whose id no article row
    had. *)
Lemma add_article_fresh (i title : str) (a : LegalArticle.t)
    base fk p col n j (w' : World) :
  add_article i title a (in_txn base fk p col n j) = (Return tt, w') ->
  has_article p (assigned_id (LegalArticle.id a) n) = false.
Proof.
  unfold Database.add_article.
  rewrite bind_run, (id_or_new_run uuid). simpl.
  fold (in_txn base fk p col (drawn_after (LegalArticle.id a) n) j).
  rewrite bind_run.
  destruct (collection_add _ _ _ _) as [r1 w1] eqn:Hadd.
  apply collection_add_run in Hadd. destruct r1 as [[] | e]; [| done].
  destruct Hadd as (col' & -> & _). rewrite execute_in_txn.
  unfold insert_article, insert_checked. simpl.
  by destruct (has_article p _).
Qed.

Lemma add_articles_fresh (i title : str) (articles : list LegalArticle.t)
    base fk p col n j (w' : World) :
  for_each (add_article i title) articles (in_txn base fk p col n j)
  = (Return tt, w') ->
  NoDup (map LegalArticle.id (legal_articles p)) ->
  NoDup (map LegalArticle.id
                (legal_articles p ++ written_articles i n articles)).
Proof.
  revert p col n j. induction articles as [|a articles IH]; intros p col n j.
  - intros _ Hp. simpl. by rewrite app_nil_r.
  - cbn [for_each]. rewrite bind_run.
    destruct (add_article i title a _) as [r1 w1] eqn:Hone.
    destruct r1 as [[] | e]; [| done].
    pose proof (add_article_fresh _ _ _ _ _ _ _ _ _ _ Hone) as Hfresh.
    apply add_article_run in Hone as (col1 & -> & _).
    intros Hrest Hp. apply IH in Hrest.
    + simpl in Hrest. cbn [Database.written_articles].
      by rewrite <- app_assoc in Hrest.
    + simpl. rewrite map_app. simpl.
      apply NoDup_app. split; [done |]. split.
      * intros x Hx [<- | []]%list_elem_of_In.
        apply list_elem_of_In in Hx.
        by apply (not_has_article_not_in p _ Hfresh).
      * apply NoDup_singleton.
Qed.


(** A returning [add_document] ran its [try:] block to the end. *)
Lemma add_document_returns (document : LegalDocument.t datetime)
    (w : World) (i : str) (w' : World) :
  add_document document w = (Return i, w') ->
  exists w1,
    add_document_body (assigned_id (LegalDocument.id document) (uuids_drawn w))
      document
      (in_txn (sql_db w) default_foreign_keys (sql_db w) (collection w)
         (drawn_after (LegalDocument.id document) (uuids_drawn w)) (journal w))
    = (Return i, w1) /\ collection w' = collection w1.
Proof.
  unfold Database.add_document. rewrite bind_run, (id_or_new_run uuid).
  rewrite bind_run. unfold connect at 1. simpl.
  fold (in_txn (sql_db w) default_foreign_keys (sql_db w) (collection w)
          (drawn_after (LegalDocument.id document) (uuids_drawn w)) (journal w)).
  unfold try_finally, try_except.
  destruct (add_document_body _ document _) as [r1 w1] eqn:Hbody.
  destruct r1 as [i' | e].
  - simpl. intros [= <- <-]. by exists w1.
  - rewrite bind_run. unfold rollback.
    destruct (connection w1); simpl; by intros [=].
Qed.

(** A returning [try:] block ran the loop over the articles to the end,
    on the pending database that has the document and its tags. *)
Lemma add_document_body_articles (i : str)
    (document : LegalDocument.t datetime)
    base fk col n j (i' : str) (w1 : World) :
  add_document_body i document (in_txn base fk base col n j) = (Return i', w1) ->
  exists j0 w2,
    for_each (add_article i (LegalDocument.title document))
      (LegalDocument.articles document)
      (in_txn base fk
         (with_tags (with_document base (document_row isoformat i document))
            (map (TagRow.mk i) (LegalDocument.tags document)))
         col n j0)
    = (Return tt, w2) /\ collection w1 = collection w2.
Proof.
  unfold Database.add_document_body. rewrite bind_run, execute_in_txn.
  destruct (insert_document _ fk base) as [e | p1] eqn:Hdoc; [done |].
  apply insert_document_ok in Hdoc as [_ ->]. rewrite bind_run.
  pose proof (for_each_execute (real := real)
    (fun tag => insert_tag (TagRow.mk i tag)) (InsertTag i)
    (LegalDocument.tags document) base fk
    (with_document base (document_row isoformat i document)) col n
    (j ++ [InsertDocument i])) as Htags.
  destruct (insert_all _ fk (LegalDocument.tags document) _) as [e | p2] eqn:Hall.
  { destruct Htags as (w2 & -> & _); done. }
  rewrite Htags; [| done]. apply insert_all_tags in Hall as ->.
  rewrite bind_run.
  destruct (for_each (add_article i _) _ _) as [r3 w3] eqn:Hart.
  destruct r3 as [[] | e]; [| done].
  pose proof Hart as Hrun.
  apply add_articles_run in Hrun as (col' & n' & Hw3 & _).
  rewrite bind_run, Hw3. unfold commit. simpl. intros [= _ <-].
  eexists _, _. split; [exact Hart |]. by rewrite Hw3.
Qed.

Lemma add_document_articles_unique (document : LegalDocument.t datetime)
    (w : World) (i : str) (w' : World) :
  add_document document w = (Return i, w') ->
  NoDup (map LegalArticle.id (legal_articles (sql_db w))) ->
  NoDup (map LegalArticle.id (legal_articles (sql_db w'))).
Proof.
  intros Hrun Hnodup.
  destruct (add_document_returns _ _ _ _ Hrun) as (w1 & Hbody & _).
  apply add_document_body_articles in Hbody as (j0 & w2 & Hloop & _).
  apply add_articles_fresh in Hloop; [| done]. simpl in Hloop.
  apply add_document_run in Hrun as (-> & _ & col' & n' & -> & _).
  exact Hloop.
Qed.

(** A returning [add_amendment] inserted an amendment id that no
    amendment row had. *)
Lemma add_amendment_fresh (amendment : LegalAmendment.t datetime)
    (w : World) (i : str) (w' : World) :
  add_amendment amendment w = (Return i, w') ->
  has_amendment (sql_db w) i = false.
Proof.
  intros Hrun.
  pose proof (add_amendment_run _ _ _ _ _ _ _ Hrun) as (_ & _ & -> & _).
  revert Hrun.
  unfold Database.add_amendment. rewrite bind_run, (id_or_new_run uuid).
  rewrite bind_run. unfold connect at 1. simpl.
  fold (in_txn (sql_db w) default_foreign_keys (sql_db w) (collection w)
          (drawn_after (LegalAmendment.id amendment) (uuids_drawn w))
          (journal w)).
  unfold try_finally, try_except, add_amendment_body.
  rewrite bind_run, execute_in_txn.
  unfold insert_amendment at 1, insert_checked. simpl.
  destruct (has_amendment (sql_db w) _); [| done]. by simpl.
Qed.

Lemma store_consistent_empty : store_consistent empty_database.
Proof.
  repeat split; try apply NoDup_nil_2; by intros r [].
Qed.

Lemma not_has_document_not_in (db : Database) (i : str) :
  has_document db i = false -> i ∉ map DocumentRow.id (legal_documents db).
Proof.
  intros Hno Hin%list_elem_of_In. apply in_map_iff in Hin as (r & Hr & Hin).
  assert (has_document db i = true); [| congruence].
  apply has_document_iff. by exists r.
Qed.

Lemma not_has_amendment_not_in (db : Database) (i : str) :
  has_amendment db i = false -> i ∉ map AmendmentRow.id (legal_amendments db).
Proof.
  intros Hno Hin%list_elem_of_In. apply in_map_iff in Hin as (r & Hr & Hin).
  assert (has_amendment db i = true); [| congruence].
  unfold has_amendment. apply existsb_exists. exists r.
  split; [done |]. by apply str_eqb_eq.
Qed.

Lemma add_document_keeps_consistent (document : LegalDocument.t datetime)
    (w : World) (r : outcome str) (w' : World) :
  store_consistent (sql_db w) ->
  add_document document w = (r, w') -> store_consistent (sql_db w').
Proof.
  intros (Hdocs & Harts & Hamds & Hrows) Hrun.
  pose proof (add_document_keeps_rows_attached _ _ _ _ _ _ _ _ _ Hrows Hrun)
    as Hrows'.
  destruct r as [i | e].
  - pose proof (add_document_articles_unique _ _ _ _ Hrun Harts) as Harts'.
    apply add_document_run in Hrun as (-> & Hfresh & col' & n' & -> & _).
    split; [| by split]. simpl. rewrite map_app. simpl.
    apply NoDup_app. split; [done |]. split; [| apply NoDup_singleton].
    intros x Hx [<- | []]%list_elem_of_In.
    by apply (not_has_document_not_in _ _ Hfresh).
  - apply add_document_run in Hrun as (Hdb & _). rewrite Hdb in *.
    exact (conj Hdocs (conj Harts (conj Hamds Hrows))).
Qed.

Lemma add_amendment_keeps_consistent (amendment : LegalAmendment.t datetime)
    (w : World) (r : outcome str) (w' : World) :
  store_consistent (sql_db w) ->
  add_amendment amendment w = (r, w') -> store_consistent (sql_db w').
Proof.
  intros (Hdocs & Harts & Hamds & Hrows) Hrun.
  pose proof (add_amendment_keeps_rows_attached _ _ _ _ _ _ _ Hrows Hrun)
    as Hrows'.
  destruct r as [i | e].
  - pose proof (add_amendment_fresh _ _ _ _ Hrun) as Hfresh.
    apply add_amendment_run in Hrun as (_ & _ & -> & ->).
    split; [done |]. split; [done |]. split; [| done].
    simpl. rewrite map_app. simpl.
    apply NoDup_app. split; [done |]. split; [| apply NoDup_singleton].
    intros x Hx [<- | []]%list_elem_of_In.
    by apply (not_has_amendment_not_in _ _ Hfresh).
  - apply add_amendment_run in Hrun as (_ & _ & Hdb). rewrite Hdb in *.
    exact (conj Hdocs (conj Harts (conj Hamds Hrows))).
Qed.

(** X9.  The writes keep the relational store consistent, whether or not
    SQLite enforces foreign keys: starting from a consistent store, after
    [add_document] or [add_amendment], returning or raising, no two
    documents, articles or amendments share an id and every tag row and
    article row belongs to a stored document. *)
Theorem writes_keep_store_consistent (w : World) :
  store_consistent (sql_db w) ->
  (forall document r w',
     add_document document w = (r, w') -> store_consistent (sql_db w')) /\
  (forall amendment r w',
     add_amendment amendment w = (r, w') -> store_consistent (sql_db w')).
Proof.
  intros Hcons. split.
  - intros document r w'. by apply add_document_keeps_consistent.
  - intros amendment r w'. by apply add_amendment_keeps_consistent.
Qed.

(** X10.  After a returning [add_document] on a consistent store, every
    article written for the document is found by [get_article_by_id]
    under its assigned id, with the document's title, type, publication
    date (as ISO text), category and subcategory. *)
Theorem added_articles_are_found (document : LegalDocument.t datetime)
    (w : World) (i : str) (w' : World) (row : LegalArticle.t) :
  store_consistent (sql_db w) ->
  add_document document w = (Return i, w') ->
  In row (written_articles i
            (drawn_after (LegalDocument.id document) (uuids_drawn w))
            (LegalDocument.articles document)) ->
  get_article_by_id (sql_db w') (LegalArticle.id row)
  = Some (ArticleDict.mk row (LegalDocument.title document)
            (LegalDocument.document_type document)
            (isoformat <$> LegalDocument.date_published document)
            (LegalDocument.category document)
            (LegalDocument.subcategory document)).
Proof.
  intros Hcons Hrun Hrow.
  pose proof (add_document_keeps_consistent _ _ _ _ Hcons Hrun) as Hcons'.
  apply add_document_run in Hrun as (-> & _ & col' & n' & -> & _).
  simpl in *.
  apply (get_article_by_id_joined _ row
           (document_row isoformat
              (assigned_id (LegalDocument.id document) (uuids_drawn w))
              document) Hcons').
  - simpl. apply in_or_app. by right.
  - simpl. apply in_or_app. right. by left.
  - simpl. symmetry. by eapply written_articles_law_id.
Qed.

Lemma find_other_document (j : str) (docs : list DocumentRow.t)
    (row : DocumentRow.t) :
  DocumentRow.id row <> j ->
  List.find (fun r => str_eqb (DocumentRow.id r) j) (docs ++ [row])
  = List.find (fun r => str_eqb (DocumentRow.id r) j) docs.
Proof.
  intros Hne. induction docs as [|d docs IH]; simpl.
  - by rewrite (proj2 (str_eqb_neq _ _) Hne).
  - by destruct (str_eqb (DocumentRow.id d) j).
Qed.

(** X11.  [add_document] changes nothing about the other documents:
    whether it returns or raises, [get_document_by_id] gives afterwards
    what it gave before for every id other than the one assigned to the
    new document. *)
Theorem add_document_leaves_other_documents
    (document : LegalDocument.t datetime) (w : World) (j : str) :
  j <> assigned_id (LegalDocument.id document) (uuids_drawn w) ->
  get_document_by_id (sql_db (snd (add_document document w))) j
  = get_document_by_id (sql_db w) j.
Proof.
  intros Hne. destruct (add_document document w) as [r w'] eqn:Hrun.
  apply add_document_run in Hrun. destruct r as [i | e]; simpl.
  - destruct Hrun as (-> & _ & col' & n' & -> & _).
    unfold get_document_by_id. simpl.
    rewrite find_other_document by done.
    rewrite !List.filter_app.
    rewrite (filter_none _ (map _ (LegalDocument.tags document))),
            (filter_none _ (written_articles _ _ _)).
    + by rewrite !app_nil_r.
    + intros r Hr. apply written_articles_law_id in Hr as ->.
      by apply str_eqb_neq.
    + intros r Hr. apply in_map_iff in Hr as (g & <- & _). by apply str_eqb_neq.
  - by destruct Hrun as (-> & _).
Qed.


(** *** When [add_amendment] returns *)

Lemma insert_all_affected_iff (i : str) (l : list str) fk p :
  has_amendment p i = true ->
  (exists p',
     insert_all (fun a => insert_affected (AffectedRow.mk i a)) fk l p = inr p')
  <-> NoDup l /\
      (forall a, In a l -> has_affected p i a = false) /\
      (fk = true -> forall a, In a l -> has_article p a = true).
Proof.
  revert p. induction l as [|a l IH]; intros p Ham.
  - simpl. split; [| by eexists]. intros _.
    split; [apply NoDup_nil_2 |]. by split.
  - cbn [insert_all]. unfold insert_affected at 1, insert_checked.
    cbn [AffectedRow.amendment_id AffectedRow.article_id].
    rewrite Ham, negb_involutive. cbn [andb].
    set (p1 := mkDatabase _ _ _ _ _).
    assert (has_amendment p1 i = true) as Ham1 by done.
    assert (forall b, has_affected p1 i b
                      = has_affected p i b || str_eqb a b) as Haff.
    { intros b. unfold has_affected, p1. simpl. rewrite existsb_app. simpl.
      by rewrite str_eqb_refl, orb_false_r. }
    specialize (IH p1 Ham1). split.
    + destruct (has_affected p i a) eqn:Hfresh; [by intros [? [=]] |].
      destruct (fk && negb (has_article p a)) eqn:Hfk; [by intros [? [=]] |].
      intros Hrest. apply IH in Hrest as (Hnodup & Hnew & Hparents).
      assert (a ∉ l) as Hnotin.
      { intros Hin%list_elem_of_In. specialize (Hnew a Hin).
        rewrite Haff, str_eqb_refl, orb_true_r in Hnew. done. }
      split; [by apply NoDup_cons |]. split.
      * intros b [<- | Hb]; [done |]. specialize (Hnew b Hb).
        rewrite Haff in Hnew. by apply orb_false_iff in Hnew as [? _].
      * intros -> b [<- | Hb]; [| by apply Hparents].
        simpl in Hfk. by apply negb_false_iff in Hfk.
    + intros (Hnodup & Hnew & Hparents).
      apply NoDup_cons in Hnodup as [Hnotin Hnodup].
      rewrite (Hnew a) by by left.
      assert (fk && negb (has_article p a) = false) as ->.
      { destruct fk; [| done]. simpl. rewrite Hparents; by try left. }
      apply IH. split; [done |]. split.
      * intros b Hb. rewrite Haff, (Hnew b) by by right. simpl.
        apply str_eqb_neq. intros ->. by apply Hnotin, list_elem_of_In.
      * intros Hfk b Hb. apply (Hparents Hfk). by right.
Qed.

Lemma insert_all_affected_error (i : str) (l : list str) fk p e :
  insert_all (fun a => insert_affected (AffectedRow.mk i a)) fk l p = inl e ->
  exists c, e = IntegrityError c.
Proof.
  revert p. induction l as [|a l IH]; intros p; [done |].
  cbn [insert_all]. unfold insert_affected at 1, insert_checked.
  destruct (negb (negb _)); [intros [= <-]; by eexists |].
  destruct (fk && _); [intros [= <-]; by eexists |]. apply IH.
Qed.

(** The outcome of [add_amendment] is that of its two INSERT steps. *)
Lemma add_amendment_outcome (amendment : LegalAmendment.t datetime)
    (w : World) :
  let i := assigned_id (LegalAmendment.id amendment) (uuids_drawn w) in
  fst (add_amendment amendment w)
  = match insert_amendment (amendment_row isoformat i amendment)
            default_foreign_keys (sql_db w) with
    | inl e => Raise e
    | inr p1 =>
        match insert_all (fun a => insert_affected (AffectedRow.mk i a))
                default_foreign_keys
                (LegalAmendment.affected_articles amendment) p1 with
        | inl e => Raise e
        | inr _ => Return i
        end
    end.
Proof.
  intros i. unfold Database.add_amendment.
  rewrite bind_run, (id_or_new_run uuid).
  rewrite bind_run. unfold connect at 1. simpl.
  fold (in_txn (sql_db w) default_foreign_keys (sql_db w) (collection w)
          (drawn_after (LegalAmendment.id amendment) (uuids_drawn w))
          (journal w)).
  fold i. unfold try_finally, try_except, add_amendment_body.
  rewrite bind_run, execute_in_txn.
  destruct (insert_amendment _ _ (sql_db w)) as [e | p1] eqn:Hrow; [done |].
  rewrite bind_run.
  match goal with
  | |- context [for_each ?f ?l (in_txn ?b ?k ?p ?c ?m ?jj)] =>
      pose proof (for_each_execute (real := real)
        (fun a => insert_affected (AffectedRow.mk i a)) (InsertAffected i)
        l b k p c m jj) as Haff
  end.
  destruct (insert_all _ _ _ p1) as [e | p2] eqn:Hall.
  - destruct Haff as (w2 & -> & (_ & [p' Hconn] & _) & _); [done |].
    rewrite bind_run. unfold rollback. by rewrite Hconn.
  - rewrite Haff by done. rewrite bind_run. by unfold commit, log.
Qed.



(** X13.  [add_amendment] is atomic on the relational store and writes
    nowhere else: either it returns the assigned id and the file holds,
    appended, the amendment row and one join row for each affected id, or
    it raises and the file is what it was.  In both cases the connection
    is closed, the vector collection is untouched, and so are the
    documents, their tags and the articles. *)
Theorem add_amendment_atomic (amendment : LegalAmendment.t datetime)
    (w : World) :
  let i := assigned_id (LegalAmendment.id amendment) (uuids_drawn w) in
  exists r w',
    add_amendment amendment w = (r, w') /\
    connection w' = None /\ collection w' = collection w /\
    legal_documents (sql_db w') = legal_documents (sql_db w) /\
    document_tags (sql_db w') = document_tags (sql_db w) /\
    legal_articles (sql_db w') = legal_articles (sql_db w) /\
    match r with
    | Return i' =>
        i' = i /\
        legal_amendments (sql_db w')
        = legal_amendments (sql_db w) ++ [amendment_row isoformat i amendment]
        /\
        amendment_affected_articles (sql_db w')
        = amendment_affected_articles (sql_db w)
          ++ map (AffectedRow.mk i) (LegalAmendment.affected_articles amendment)
    | Raise _ => sql_db w' = sql_db w
    end.
Proof.
  intros i. destruct (add_amendment amendment w) as [r w'] eqn:Hrun.
  exists r, w'. split; [done |].
  apply add_amendment_run in Hrun as (Hconn & Hcol & Hres).
  split; [done |]. split; [done |].
  destruct r as [i' | e].
  - destruct Hres as [-> ->]. by repeat split.
  - by rewrite Hres.
Qed.


(** *** When [add_document] returns *)

Lemma insert_all_tags_iff (i : str) (tags : list str) fk p :
  has_document p i = true ->
  (exists p',
     insert_all (fun tag => insert_tag (TagRow.mk i tag)) fk tags p = inr p')
  <-> NoDup tags /\ (forall g, In g tags -> has_tag p i g = false).
Proof.
  revert p. induction tags as [|g tags IH]; intros p Hdoc.
  - simpl. split; [| by eexists]. intros _. split; [apply NoDup_nil_2 | done].
  - cbn [insert_all]. unfold insert_tag at 1, insert_checked.
    cbn [TagRow.document_id TagRow.tag].
    rewrite Hdoc, negb_involutive, andb_false_r.
    set (p1 := mkDatabase _ _ _ _ _).
    assert (has_document p1 i = true) as Hdoc1 by done.
    assert (forall b, has_tag p1 i b = has_tag p i b || str_eqb g b) as Htag.
    { intros b. unfold has_tag, p1. simpl. rewrite existsb_app. simpl.
      by rewrite str_eqb_refl, orb_false_r. }
    specialize (IH p1 Hdoc1). split.
    + destruct (has_tag p i g) eqn:Hfresh; [by intros [? [=]] |].
      intros Hrest. apply IH in Hrest as (Hnodup & Hnew).
      assert (g ∉ tags) as Hnotin.
      { intros Hin%list_elem_of_In. specialize (Hnew g Hin).
        rewrite Htag, str_eqb_refl, orb_true_r in Hnew. done. }
      split; [by apply NoDup_cons |].
      intros b [<- | Hb]; [done |]. specialize (Hnew b Hb).
      rewrite Htag in Hnew. by apply orb_false_iff in Hnew as [? _].
    + intros (Hnodup & Hnew).
      apply NoDup_cons in Hnodup as [Hnotin Hnodup].
      rewrite (Hnew g) by by left.
      apply IH. split; [done |].
      intros b Hb. rewrite Htag, (Hnew b) by by right. simpl.
      apply str_eqb_neq. intros ->. by apply Hnotin, list_elem_of_In.
Qed.

(** One turn of the loop over the articles, step by step. *)
Lemma add_article_in_txn (i title : str) (a : LegalArticle.t)
    base fk p col n j :
  let a' := assigned_id (LegalArticle.id a) n in
  let n1 := drawn_after (LegalArticle.id a) n in
  let key := a' ++ embedding_suffix in
  let row := LegalArticle.mk a' i (LegalArticle.number a)
               (LegalArticle.content a) (Some key) in
  let rec := EmbeddingRecord.mk real (embed_query (LegalArticle.content a))
               (Metadata.mk a' i (LegalArticle.number a) title)
               (LegalArticle.content a) in
  let insert col1 :=
    match insert_article row fk p with
    | inl e => (Raise e, in_txn base fk p col1 n1 (j ++ [VectorAdd key]))
    | inr p' =>
        (Return tt,
         in_txn base fk p' col1 n1 ((j ++ [VectorAdd key]) ++ [InsertArticle a']))
    end in
  add_article i title a (in_txn base fk p col n j)
  = match col !! key with
    | Some _ =>
        if add_existing_raises
        then (Raise IDAlreadyExistsError, in_txn base fk p col n1 j)
        else insert col
    | None => insert (<[key := rec]> col)
    end.
Proof.
  intros a' n1 key row rec insert. subst a' n1 key row rec insert.
  unfold Database.add_article.
  rewrite bind_run, (id_or_new_run uuid), bind_run.
  unfold collection_add, execute, log, in_txn. simpl.
  destruct (col !! _) as [old |]; [destruct add_existing_raises |];
    simpl; try done; by destruct (insert_article _ fk p).
Qed.

(** The loop over the articles returns exactly when the rows it writes
    have distinct new ids and, where the collection refuses a known id,
    their embedding ids are new too. *)
Lemma add_articles_return_iff (i title : str) (articles : list LegalArticle.t)
    base fk p col n j :
  has_document p i = true ->
  (exists w' : World,
     for_each (add_article i title) articles (in_txn base fk p col n j)
     = (Return tt, w'))
  <-> NoDup (map LegalArticle.id (written_articles i n articles)) /\
      (forall row, In row (written_articles i n articles) ->
         has_article p (LegalArticle.id row) = false) /\
      (add_existing_raises = true ->
       forall row, In row (written_articles i n articles) ->
         col !! (LegalArticle.id row ++ embedding_suffix) = None).
Proof.
  revert p col n j. induction articles as [|a articles IH]; intros p col n j Hdoc.
  - simpl. split; [| by eexists]. intros _. split; [apply NoDup_nil_2 | done].
  - cbn [for_each Database.written_articles map]. rewrite bind_run.
    rewrite add_article_in_txn. cbv zeta.
    set (a' := assigned_id (LegalArticle.id a) n).
    set (n1 := drawn_after (LegalArticle.id a) n).
    set (row := LegalArticle.mk a' i (LegalArticle.number a)
                  (LegalArticle.content a) (Some (a' ++ embedding_suffix))).
    set (rec := EmbeddingRecord.mk real _ _ _).
    assert (forall x : str,
              has_article (with_articles p [row]) x
              = has_article p x || str_eqb a' x) as Hart.
    { intros x. rewrite has_article_app. simpl. by rewrite orb_false_r. }
    assert (has_document (with_articles p [row]) i = true) as Hdoc1 by done.
    assert (forall r, In r (written_articles i n1 articles) ->
              has_article (with_articles p [row]) (LegalArticle.id r) = false ->
              a' <> LegalArticle.id r) as Hdiff.
    { intros r _ Hr Heq. by rewrite Hart, Heq, str_eqb_refl, orb_true_r in Hr. }
    assert (insert_article row fk p
            = if has_article p a' then inl (IntegrityError PrimaryKey)
              else inr (with_articles p [row])) as ->.
    { unfold insert_article, insert_checked.
      cbn [LegalArticle.id LegalArticle.law_id row].
      rewrite Hdoc, negb_involutive, andb_false_r.
      by destruct (has_article p a'). }
    assert (forall col1 jj,
      has_article p a' = false ->
      (exists w' : World,
         for_each (add_article i title) articles
           (in_txn base fk (with_articles p [row]) col1 n1 jj)
         = (Return tt, w'))
      <-> NoDup (a' :: map LegalArticle.id (written_articles i n1 articles)) /\
          (forall r, In r (row :: written_articles i n1 articles) ->
             has_article p (LegalArticle.id r) = false) /\
          (add_existing_raises = true ->
           forall r, In r (written_articles i n1 articles) ->
             col1 !! (LegalArticle.id r ++ embedding_suffix) = None)) as Hstep.
    { intros col1 jj Hfresh.
      rewrite (IH (with_articles p [row]) col1 n1 jj Hdoc1).
      split.
      - intros (Hnodup & Hnew & Hcol).
        split; [| split; [| done]].
        + apply NoDup_cons. split; [| done].
          intros Hin%list_elem_of_In. apply in_map_iff in Hin as (r & Hr & Hin).
          by apply (Hdiff r Hin (Hnew r Hin)).
        + intros r [<- | Hr]; [done |]. specialize (Hnew r Hr).
          rewrite Hart in Hnew. by apply orb_false_iff in Hnew as [? _].
      - intros (Hnodup & Hnew & Hcol).
        apply NoDup_cons in Hnodup as [Hnotin Hnodup].
        split; [done |]. split; [| done].
        intros r Hr. rewrite Hart, (Hnew r) by by right. simpl.
        apply str_eqb_neq. intros Heq. apply Hnotin, list_elem_of_In.
        rewrite Heq. by apply in_map. }
    destruct (has_article p a') eqn:Hfresh.
    { split.
      - destruct (col !! _); [destruct add_existing_raises |]; by intros [? [=]].
      - intros (_ & Hnew & _).
        specialize (Hnew row (or_introl eq_refl)). simpl in Hnew. congruence. }
    specialize (fun col1 jj => Hstep col1 jj eq_refl).
    destruct (col !! (a' ++ embedding_suffix)) as [old |] eqn:Hkey.
    + destruct add_existing_raises eqn:Hraises.
      { split; [by intros [? [=]] |]. intros (_ & _ & Hcol).
        specialize (Hcol eq_refl row (or_introl eq_refl)). simpl in Hcol.
        congruence. }
      rewrite (Hstep col).
      split; intros (? & ? & ?); by repeat split.
    + rewrite (Hstep (<[a' ++ embedding_suffix := rec]> col)).
      split.
      * intros (Hnodup & Hnew & Hcol). split; [done |]. split; [done |].
        intros Hraises r [<- | Hr]; [done |].
        specialize (Hcol Hraises r Hr).
        by apply lookup_insert_None in Hcol as [? _].
      * intros (Hnodup & Hnew & Hcol). split; [done |]. split; [done |].
        intros Hraises r Hr. apply lookup_insert_None.
        split; [apply (Hcol Hraises); by right |].
        intros Heq%app_inv_tail.
        apply NoDup_cons in Hnodup as [Hnotin _].
        apply Hnotin, list_elem_of_In, in_map_iff. exists r. by split.
Qed.


Lemma add_document_body_return_iff (i : str)
    (document : LegalDocument.t datetime) base fk col n j :
  (exists w1 : World,
     add_document_body i document (in_txn base fk base col n j)
     = (Return i, w1))
  <-> has_document base i = false /\
      NoDup (LegalDocument.tags document) /\
      (forall g, In g (LegalDocument.tags document) ->
         has_tag base i g = false) /\
      NoDup (map LegalArticle.id
               (written_articles i n (LegalDocument.articles document))) /\
      (forall row,
         In row (written_articles i n (LegalDocument.articles document)) ->
         has_article base (LegalArticle.id row) = false) /\
      (add_existing_raises = true ->
       forall row,
         In row (written_articles i n (LegalDocument.articles document)) ->
         col !! (LegalArticle.id row ++ embedding_suffix) = None).
Proof.
  unfold Database.add_document_body. rewrite bind_run, execute_in_txn.
  unfold insert_document, insert_checked.
  cbn [DocumentRow.id document_row]. rewrite negb_involutive, andb_false_r.
  destruct (has_document base i) eqn:Hnodoc.
  { split; [by intros [? [=]] | by intros [[=] _]]. }
  set (p1 := mkDatabase _ _ _ _ _).
  assert (has_document p1 i = true) as Hdoc1.
  { unfold has_document, p1. simpl. rewrite existsb_app. simpl.
    by rewrite str_eqb_refl, orb_true_r. }
  rewrite bind_run.
  pose proof (for_each_execute (real := real)
    (fun tag => insert_tag (TagRow.mk i tag)) (InsertTag i)
    (LegalDocument.tags document) base fk p1 col n
    (j ++ [InsertDocument i])) as Htags.
  pose proof (insert_all_tags_iff i (LegalDocument.tags document) fk p1 Hdoc1)
    as Hiff.
  destruct (insert_all _ fk (LegalDocument.tags document) p1) as [e | p2] eqn:Hall.
  - destruct Htags as (w2 & -> & _); [done |].
    split; [by intros [? [=]] |]. intros (_ & Hnodup & Hfresh & _).
    destruct (proj2 Hiff) as [p' Hp']; [| done]. split; [done | exact Hfresh].
  - rewrite Htags by done. apply insert_all_tags in Hall as ->.
    destruct (proj1 Hiff) as [Hnodup Hfresh]; [by eexists |].
    rewrite bind_run.
    match goal with
    | |- context [for_each ?f ?l (in_txn ?b ?k ?pp ?c ?m ?jj)] =>
        pose proof (add_articles_return_iff i (LegalDocument.title document)
                      l b k pp c m jj Hdoc1) as Harts;
        destruct (for_each f l (in_txn b k pp c m jj)) as [r3 w3] eqn:Hloop
    end.
    destruct r3 as [[] | e].
    + apply add_articles_run in Hloop as (col' & n' & -> & _).
      rewrite bind_run. unfold commit. simpl.
      split; [| by eexists]. intros _.
      destruct (proj1 Harts) as (Hids & Hnew & Hcol); [by eexists |].
      split; [done |]. split; [done |]. split; [exact Hfresh |].
      split; [done |]. split; [exact Hnew | exact Hcol].
    + split; [by intros [? [=]] |]. intros (_ & _ & _ & Hids & Hnew & Hcol).
      destruct (proj2 Harts) as [w' Hw']; [| done].
      split; [done |]. split; [exact Hnew | exact Hcol].
Qed.

(** [add_document] returns what its [try:] block returns. *)
Lemma add_document_body_returned (document : LegalDocument.t datetime)
    (w : World) (i : str) (w1 : World) :
  add_document_body (assigned_id (LegalDocument.id document) (uuids_drawn w))
    document
    (in_txn (sql_db w) default_foreign_keys (sql_db w) (collection w)
       (drawn_after (LegalDocument.id document) (uuids_drawn w)) (journal w))
  = (Return i, w1) ->
  fst (add_document document w) = Return i.
Proof.
  intros Hbody. unfold Database.add_document.
  rewrite bind_run, (id_or_new_run uuid).
  rewrite bind_run. unfold connect at 1. simpl.
  fold (in_txn (sql_db w) default_foreign_keys (sql_db w) (collection w)
          (drawn_after (LegalDocument.id document) (uuids_drawn w)) (journal w)).
  unfold try_finally, try_except. by rewrite Hbody.
Qed.



(** *** What [add_document] leaves in the collection *)

Lemma add_articles_collection (i title : str) (articles : list LegalArticle.t)
    base fk p col n j (w' : World) (k : str) :
  for_each (add_article i title) articles (in_txn base fk p col n j)
  = (Return tt, w') ->
  collection w' !! k
  = match col !! k with
    | Some old => Some old
    | None =>
        article_record title
        <$> List.find
              (fun row => str_eqb (LegalArticle.id row ++ embedding_suffix) k)
              (written_articles i n articles)
    end.
Proof.
  revert p col n j. induction articles as [|a articles IH]; intros p col n j.
  - simpl. intros [= <-]. simpl. by destruct (col !! k).
  - cbn [for_each Database.written_articles List.find LegalArticle.id].
    rewrite bind_run, add_article_in_txn. cbv zeta.
    set (a' := assigned_id (LegalArticle.id a) n).
    set (row := LegalArticle.mk a' i _ _ _).
    set (rec := EmbeddingRecord.mk real _ _ _).
    assert (rec = article_record title row) as Hrec by done.
    destruct (col !! (a' ++ embedding_suffix)) as [old |] eqn:Hkey.
    + destruct add_existing_raises; [done |].
      destruct (insert_article row fk p) as [e | p']; [done |].
      intros Hrest. rewrite (IH _ _ _ _ Hrest).
      destruct (str_eqb (a' ++ embedding_suffix) k) eqn:Hk; [| done].
      apply str_eqb_eq in Hk.
      assert (col !! k = Some old) as -> by (rewrite <- Hk; exact Hkey). done.
    + destruct (insert_article row fk p) as [e | p']; [done |].
      intros Hrest. rewrite (IH _ _ _ _ Hrest).
      destruct (str_eqb (a' ++ embedding_suffix) k) eqn:Hk.
      * apply str_eqb_eq in Hk.
        assert (col !! k = None) as -> by (rewrite <- Hk; exact Hkey).
        rewrite <- Hk, Hrec. simpl. by rewrite lookup_insert_eq.
      * apply str_eqb_neq in Hk. by rewrite lookup_insert_ne.
Qed.

(** X15.  What a returning [add_document] leaves in the vector collection:
    every record the collection had is as it was, also under the
    embedding id of a new article, whose embedding is then not stored;
    every other written article has under [<id>_embedding] the record of
    its embedding, its text and the metadata naming its id, its document,
    its number and the law title; and no other key is added. *)
Theorem added_articles_are_indexed (document : LegalDocument.t datetime)
    (w : World) (i : str) (w' : World) :
  add_document document w = (Return i, w') ->
  let rows :=
    written_articles i
      (drawn_after (LegalDocument.id document) (uuids_drawn w))
      (LegalDocument.articles document) in
  (forall k old, collection w !! k = Some old ->
                 collection w' !! k = Some old) /\
  (forall row, In row rows ->
     collection w !! (LegalArticle.id row ++ embedding_suffix) = None ->
     collection w' !! (LegalArticle.id row ++ embedding_suffix)
     = Some (article_record (LegalDocument.title document) row)) /\
  (forall k, collection w !! k = None ->
     (forall row, In row rows -> k <> LegalArticle.id row ++ embedding_suffix) ->
     collection w' !! k = None).
Proof.
  intros Hrun rows.
  pose proof Hrun as Hi. apply add_document_run in Hi as (Hi & _).
  destruct (add_document_returns _ _ _ _ Hrun) as (w1 & Hbody & ->).
  pose proof (add_document_body_articles _ _ _ _ _ _ _ _ _ Hbody)
    as (j0 & w2 & Hloop & ->).
  assert (NoDup (map LegalArticle.id rows)) as Hids.
  { unfold rows. rewrite Hi.
    eapply (add_articles_return_iff _ _ _ _ _ _ _ _ _); [| by eexists].
    unfold has_document. simpl. rewrite existsb_app. simpl.
    by rewrite str_eqb_refl, orb_true_r. }
  unfold rows in *. clear rows. rewrite Hi in *. clear Hi.
  change (@lookup (list N)) with (@lookup str).
  split; [| split].
  - intros k old Hk.
    by rewrite (add_articles_collection _ _ _ _ _ _ _ _ _ _ k Hloop), Hk.
  - intros row Hrow Hk.
    rewrite (add_articles_collection _ _ _ _ _ _ _ _ _ _ _ Hloop), Hk.
    destruct (List.find _ _) as [row' |] eqn:Hfind.
    + apply find_some in Hfind as [Hrow' Hsame].
      apply str_eqb_eq, app_inv_tail in Hsame.
      by rewrite (unique_by_key LegalArticle.id _ row' row Hids Hrow' Hrow Hsame).
    + pose proof (find_none _ _ Hfind row Hrow) as Hno. simpl in Hno.
      by rewrite str_eqb_refl in Hno.
  - intros k Hk Hother.
    rewrite (add_articles_collection _ _ _ _ _ _ _ _ _ _ k Hloop), Hk.
    destruct (List.find _ _) as [row' |] eqn:Hfind; [| done].
    apply find_some in Hfind as [Hrow' Hsame]. apply str_eqb_eq in Hsame.
    by destruct (Hother row' Hrow').
Qed.

End ManagerMoreFacts.


Section SearchMoreFacts.

Context {real : Type}.
Context (embed_query : str -> list real).
Context (one_minus : real -> real).
Context (collection_query :
  gmap str (EmbeddingRecord.t real) -> list real -> nat -> list (Hit.t real)).

(** X16.  In a consistent store a filtered [search_similar] and
    [get_article_by_id] agree: every result of a search with a non-empty
    filter dict is found by [get_article_by_id] under the article id of
    its metadata, and its ["sql_metadata"] holds the columns of that very
    dict, so which row of a group SQLite picks for GROUP BY makes no
    difference. *)
Theorem filtered_results_are_found (w : @World real) (query : str) (k : nat)
    (f : Filters.t) (r : Result.t real) :
  store_consistent (sql_db w) ->
  filters_truthy (Some f) = true ->
  In r (search_similar embed_query one_minus collection_query w query k
          (Some f)) ->
  exists d,
    get_article_by_id (sql_db w) (result_article_id r) = Some d /\
    Result.sql_metadata r = Some (selected_columns d).
Proof.
  intros Hcons Htruthy. unfold search_similar. cbv zeta.
  rewrite Htruthy. unfold _apply_sql_filters.
  destruct (map _ (collection_query _ _ _)) as [|r0 results] eqn:Hres; [done |].
  rewrite Htruthy. cbv zeta. intros Hin.
  apply merged_results_enriched in Hin as (row & Hmeta & Hrow).
  apply sql_results_dict_lookup in Hrow as [[Hrow Hid] | Hrow];
    [| by rewrite lookup_empty in Hrow].
  unfold sql_results in Hrow. apply in_map_iff in Hrow as (jr & <- & Hjr).
  apply group_by_article_in, filter_In in Hjr as [Hjr _].
  apply join_tables_in in Hjr as (la & ld & Hla & Hld & Hlaw & Hjr).
  apply left_join_tags_in in Hjr as (t & -> & _).
  exists (article_dict (la, ld)). simpl in Hid. rewrite <- Hid. split.
  - by apply get_article_by_id_joined.
  - rewrite Hmeta. unfold select_columns, selected_columns, article_dict.
    simpl. by rewrite Hlaw.
Qed.

End SearchMoreFacts.


Section ImportFacts.

Context {datetime real : Type}.
Context (isoformat : datetime -> str).
Context (embed_query : str -> list real).
Context (uuid : nat -> str).
Context (default_foreign_keys : bool).
Context (add_existing_raises : bool).
Context (fromisoformat : str -> option datetime).
Context (now : nat -> datetime).
Context (numpy_uniform : N -> list real).

#[local] Abbreviation World := (@World real).
#[local] Abbreviation import_law :=
  (import_law isoformat embed_query uuid default_foreign_keys
     add_existing_raises fromisoformat now).
#[local] Abbreviation import_laws :=
  (import_laws isoformat embed_query uuid default_foreign_keys
     add_existing_raises fromisoformat now).
#[local] Abbreviation import_from_json :=
  (import_from_json isoformat embed_query uuid default_foreign_keys
     add_existing_raises fromisoformat now).
#[local] Abbreviation _hash_embed := (_hash_embed numpy_uniform).

Lemma build_articles_run (law_id : str) (l : list ArticleData.t) (w : World) :
  exists rows,
    build_articles uuid law_id l w
    = (Return rows,
       mkWorld (sql_db w) (connection w) (collection w)
         (length l + uuids_drawn w) (journal w)).
Proof.
  revert w. induction l as [|x l IH]; intros w.
  - exists []. simpl. by destruct w.
  - cbn [build_articles]. rewrite bind_run. unfold uuid4 at 1.
    rewrite bind_run.
    match goal with
    | |- context [build_articles uuid law_id l ?w1] =>
        destruct (IH w1) as [rows ->]
    end.
    eexists. simpl. by rewrite Nat.add_succ_r.
Qed.

(** What importing one law does to the relational store. *)
Lemma import_law_run (clock : nat) (law_data : LawData.t)
    (w : World) (r : outcome str) (w' : World) :
  import_law clock law_data w = (r, w') ->
  collection w ⊆ collection w' /\
  match r with
  | Return i =>
      exists row,
        legal_documents (sql_db w') = legal_documents (sql_db w) ++ [row] /\
        document_tags (sql_db w')
        = document_tags (sql_db w)
          ++ [TagRow.mk (DocumentRow.id row) default_category]
        /\
        DocumentRow.title row = get_or (LawData.title law_data) text_unknown /\
        DocumentRow.source_url row = get_or (LawData.url law_data) [] /\
        DocumentRow.document_type row = default_document_type /\
        DocumentRow.category row = Some default_category
  | Raise _ => sql_db w' = sql_db w
  end.
Proof.
  unfold DatabaseMore.import_law. rewrite bind_run. unfold uuid4 at 1.
  rewrite bind_run.
  match goal with
  | |- context [build_articles uuid ?i ?l ?w1] =>
      destruct (build_articles_run i l w1) as [rows ->]
  end.
  intros Hrun. apply add_document_run in Hrun. destruct r as [i | e].
  - destruct Hrun as (-> & _ & col' & n' & -> & Hsub). split; [done |].
    eexists. simpl. by repeat split.
  - by destruct Hrun as (? & _ & ? & _).
Qed.


Lemma code_point_sum_permutation (a b : str) :
  a ≡ₚ b -> code_point_sum a = code_point_sum b.
Proof.
  induction 1 as [| x a b _ IH | x y a | a b c _ IH1 _ IH2]; simpl.
  - done.
  - by rewrite IH.
  - lia.
  - by rewrite IH1.
Qed.

(** X18.  The test embedding [_hash_embed] sees only the sum of the code
    points of a text: two texts that are permutations of each other, such
    as anagrams, seed the generator alike and get the same vector (or the
    same failure). *)
Theorem hash_embed_ignores_order (a b : str) :
  a ≡ₚ b -> _hash_embed a = _hash_embed b.
Proof.
  intros Hperm. unfold DatabaseMore._hash_embed.
  by rewrite (code_point_sum_permutation a b Hperm).
Qed.

End ImportFacts.


Section MoreExamples.

#[local] Abbreviation run_add_document :=
  (add_document Samples.sample_isoformat Samples.sample_embed
     Samples.sample_uuid false false).
#[local] Abbreviation run_search :=
  (search_similar Samples.sample_embed Samples.sample_one_minus
     Samples.sample_query).
#[local] Abbreviation fresh := (Samples.fresh_world (real := Z)).
#[local] Abbreviation stored_article_70 :=
  (LegalArticle.mk Samples.id_a70 Samples.id_law1
     (LegalArticle.number Samples.article_70)
     (LegalArticle.content Samples.article_70)
     (Some (Samples.id_a70 ++ embedding_suffix))).

Lemma writes_keep_store_consistent_witness :
  store_consistent (sql_db (snd (run_add_document Samples.labor_code fresh))).
Proof.
  destruct (writes_keep_store_consistent Samples.sample_isoformat
              Samples.sample_embed Samples.sample_uuid false false fresh)
    as [Hdocument _].
  - repeat split; try apply NoDup_nil_2; intros r [].
  - apply (Hdocument Samples.labor_code
             (fst (run_add_document Samples.labor_code fresh))).
    vm_compute. reflexivity.
Defined.

Lemma added_articles_are_found_witness :
  get_article_by_id (sql_db (snd (run_add_document Samples.labor_code fresh)))
    Samples.id_a70
  = Some (ArticleDict.mk stored_article_70 Samples.text_labor Samples.text_law
            None (Some Samples.text_labor) None).
Proof.
  apply (added_articles_are_found Samples.sample_isoformat
           Samples.sample_embed Samples.sample_uuid false false
           Samples.labor_code fresh Samples.id_law1
           (snd (run_add_document Samples.labor_code fresh))
           stored_article_70).
  - repeat split; try apply NoDup_nil_2; intros r [].
  - vm_compute. reflexivity.
  - vm_compute. left. reflexivity.
Defined.

Lemma add_document_leaves_other_documents_witness :
  get_document_by_id
    (sql_db (snd (run_add_document Samples.labor_code fresh)))
    Samples.id_missing
  = get_document_by_id (sql_db fresh) Samples.id_missing.
Proof.
  apply (add_document_leaves_other_documents Samples.sample_isoformat
           Samples.sample_embed Samples.sample_uuid false false
           Samples.labor_code fresh Samples.id_missing).
  vm_compute. discriminate.
Defined.

Lemma added_articles_are_indexed_witness :
  collection (snd (run_add_document Samples.labor_code fresh))
  !! (Samples.id_a70 ++ embedding_suffix)
  = Some (article_record Samples.sample_embed Samples.text_labor
            stored_article_70).
Proof.
  destruct (added_articles_are_indexed Samples.sample_isoformat
              Samples.sample_embed Samples.sample_uuid false false
              Samples.labor_code fresh Samples.id_law1
              (snd (run_add_document Samples.labor_code fresh)))
    as (_ & Hnew & _).
  - vm_compute. reflexivity.
  - apply (Hnew stored_article_70).
    + vm_compute. left. reflexivity.
    + reflexivity.
Defined.

Lemma filtered_results_are_found_witness :
  exists d,
    get_article_by_id
      (sql_db (snd (run_add_document Samples.labor_code fresh)))
      Samples.id_a70 = Some d /\
    Result.sql_metadata
      (hd (Result.mk Z [] (Metadata.mk [] [] [] []) 0%Z None)
         (run_search (snd (run_add_document Samples.labor_code fresh)) [] 5
            (Some Samples.labor_tag_filter)))
    = Some (selected_columns d).
Proof.
  destruct (filtered_results_are_found Samples.sample_embed
              Samples.sample_one_minus Samples.sample_query
              (snd (run_add_document Samples.labor_code fresh)) [] 5
              Samples.labor_tag_filter
              (hd (Result.mk Z [] (Metadata.mk [] [] [] []) 0%Z None)
                 (run_search
                    (snd (run_add_document Samples.labor_code fresh)) [] 5
                    (Some Samples.labor_tag_filter))))
    as (d & Hget & Hmeta).
  - vm_compute. repeat split; try (intros r [Hr | []]; by rewrite <- Hr).
    + apply NoDup_cons. split; [| apply NoDup_nil_2]. by intros []%elem_of_nil.
    + apply NoDup_cons. split.
      * intros [Heq | []%elem_of_nil]%elem_of_cons. discriminate Heq.
      * apply NoDup_cons. split; [| apply NoDup_nil_2]. by intros []%elem_of_nil.
    + apply NoDup_nil_2.
    + intros r [Hr | [Hr | []]]; by rewrite <- Hr.
  - reflexivity.
  - vm_compute. left. reflexivity.
  - exists d. split; [exact Hget | exact Hmeta].
Defined.

Lemma hash_embed_ignores_order_witness :
  _hash_embed (fun seed => [Z.of_N seed]) [97; 98; 99]%N
  = _hash_embed (fun seed => [Z.of_N seed]) [99; 97; 98]%N.
Proof.
  apply (hash_embed_ignores_order (fun seed => [Z.of_N seed])).
  symmetry. apply (Permutation_cons_append [97; 98]%N 99%N).
Defined.

End MoreExamples.

End DatabaseMoreFacts.

(** ** The context built from search results *)

Module AssistantFacts.
Import PyStr Database DatabaseFacts Assistant.

Section PrepareContextFacts.

Context {real : Type}.
Context (embed_query : str -> list real).
Context (one_minus : real -> real).
Context (collection_query :
  gmap str (EmbeddingRecord.t real) -> list real -> nat -> list (Hit.t real)).

#[local] Abbreviation number_of :=
  (fun r : Result.t real => Metadata.article_number (Result.metadata r)).
#[local] Abbreviation key_parts :=
  (key_parts embed_query one_minus collection_query).
#[local] Abbreviation context_parts :=
  (context_parts embed_query one_minus collection_query).
#[local] Abbreviation search_similar :=
  (search_similar embed_query one_minus collection_query).

(** The loop over the search results keeps, for each article number not
    seen before, the first result that has it, under the index of that
    result. *)
Lemma result_parts_spec (i : nat) (seen : gset str)
    (results : list (Result.t real)) :
  let parts := fst (result_parts i seen results) in
  let seen' := snd (result_parts i seen results) in
  (forall k, k ∈ seen' <-> k ∈ seen \/ In k (map number_of results)) /\
  NoDup (map article_number parts) /\
  (forall p, In p parts ->
     (article_number p ∉ seen) /\
     exists j r, results !! j = Some r /\ p = document_part (i + j) r) /\
  (forall j r, results !! j = Some r -> number_of r ∉ seen ->
     (forall j' r', j' < j -> results !! j' = Some r' ->
                    number_of r' <> number_of r) ->
     In (document_part (i + j) r) parts).
Proof.
  revert i seen. induction results as [|r0 results IH]; intros i seen.
  - simpl. split; [intros k; split; [by left | by intros [? | []]] |].
    split; [apply NoDup_nil_2 |].
    split; [by intros p [] | by intros j r [=]].
  - cbn [result_parts].
    destruct (decide (number_of r0 ∈ seen)) as [Hseen | Hnew].
    + destruct (IH (S i) seen) as (Hset & Hnodup & Hfrom & Hfirst).
      split; [| split; [done |]; split].
      * intros k. rewrite Hset. simpl.
        split; [intros [? | ?] | intros [? | [<- | ?]]]; auto.
      * intros p Hp. destruct (Hfrom p Hp) as (Hp' & j & r & Hj & ->).
        split; [done |]. exists (S j), r. split; [done |].
        by rewrite Nat.add_succ_r.
      * intros [|j] r Hj Hr Hocc.
        { simpl in Hj. injection Hj as <-. done. }
        rewrite Nat.add_succ_r. apply (Hfirst j r Hj Hr).
        intros j' r' Hlt Hj'. apply (Hocc (S j') r'); [lia | done].
    + destruct (result_parts (S i) ({[number_of r0]} ∪ seen) results)
        as [parts seen'] eqn:Hrest.
      destruct (IH (S i) ({[number_of r0]} ∪ seen))
        as (Hset & Hnodup & Hfrom & Hfirst).
      rewrite Hrest in Hset, Hnodup, Hfrom, Hfirst.
      simpl in Hset, Hnodup, Hfrom, Hfirst |- *.
      split; [| split; [| split]].
      * intros k. rewrite Hset, elem_of_union, elem_of_singleton. simpl.
        split; [intros [[-> | ?] | ?] | intros [? | [<- | ?]]]; auto.
      * apply NoDup_cons. split; [| done].
        intros Hin%list_elem_of_In. apply in_map_iff in Hin as (p & Hk & Hp).
        destruct (Hfrom p Hp) as [Hp' _]. apply Hp'. rewrite Hk.
        by apply elem_of_union_l, elem_of_singleton.
      * intros p [<- | Hp].
        -- split; [done |]. exists 0, r0. split; [done |].
           by rewrite Nat.add_0_r.
        -- destruct (Hfrom p Hp) as (Hp' & j & r & Hj & ->).
           split; [intros ?; apply Hp'; by apply elem_of_union_r |].
           exists (S j), r. split; [done |].
           by rewrite Nat.add_succ_r.
      * intros [|j] r Hj Hr Hocc.
        { simpl in Hj. injection Hj as <-. left. by rewrite Nat.add_0_r. }
        right. rewrite Nat.add_succ_r. apply (Hfirst j r Hj).
        -- assert (number_of r0 <> number_of r)
             by (apply (Hocc 0 r0); [lia | done]).
           intros [Heq%elem_of_singleton | ?]%elem_of_union;
             [by symmetry in Heq | done].
        -- intros j' r' Hlt Hj'. apply (Hocc (S j') r'); [lia | done].
Qed.

(** The loop over the key articles adds a part only for a key number not
    seen before, and only when the best hit of its query has that number. *)
Lemma key_parts_spec (w : @World real) (seen : gset str)
    (keys : list (str * str)) :
  NoDup (map article_number (key_parts w seen keys)) /\
  forall p, In p (key_parts w seen keys) ->
    (article_number p ∉ seen) /\ header p = key_header /\
    exists query r rest,
      In (article_number p, query) keys /\
      search_similar w query 1 None = r :: rest /\
      number_of r = article_number p /\
      law_title p = Metadata.law_title (Result.metadata r) /\
      part_content p = Result.content r.
Proof.
  revert seen. induction keys as [|[num query] keys IH]; intros seen.
  - simpl. split; [apply NoDup_nil_2 | by intros p []].
  - cbn [Assistant.key_parts].
    assert (forall seen0,
              (forall p, In p (key_parts w seen0 keys) ->
                 (article_number p ∉ seen0) /\ header p = key_header /\
                 exists query0 r rest,
                   In (article_number p, query0) keys /\
                   search_similar w query0 1 None = r :: rest /\
                   number_of r = article_number p /\
                   law_title p = Metadata.law_title (Result.metadata r) /\
                   part_content p = Result.content r) ->
              forall p, In p (key_parts w seen0 keys) ->
                 (article_number p ∉ seen0) /\ header p = key_header /\
                 exists query0 r rest,
                   In (article_number p, query0) ((num, query) :: keys) /\
                   search_similar w query0 1 None = r :: rest /\
                   number_of r = article_number p /\
                   law_title p = Metadata.law_title (Result.metadata r) /\
                   part_content p = Result.content r) as Hweaken.
    { intros seen0 Hall p Hp.
      destruct (Hall p Hp) as (? & ? & q & r & rest & ? & ? & ? & ? & ?).
      split; [done |]. split; [done |]. exists q, r, rest.
      by repeat split; try right. }
    destruct (decide (num ∈ seen)) as [Hseen | Hnew].
    { destruct (IH seen) as [Hnodup Hall]. split; [done | by apply Hweaken]. }
    destruct (search_similar w query 1 None) as [|r rest] eqn:Hsearch.
    { destruct (IH seen) as [Hnodup Hall]. split; [done | by apply Hweaken]. }
    destruct (str_eqb (number_of r) num) eqn:Hnum.
    2: { destruct (IH seen) as [Hnodup Hall]. split; [done | by apply Hweaken]. }
    apply str_eqb_eq in Hnum.
    destruct (IH ({[num]} ∪ seen)) as [Hnodup Hall]. split.
    + cbn [map article_number]. apply NoDup_cons. split; [| done].
      intros Hin%list_elem_of_In. apply in_map_iff in Hin as (p & Hk & Hp).
      destruct (Hall p Hp) as [Hp' _]. apply Hp'. rewrite Hk.
      by apply elem_of_union_l, elem_of_singleton.
    + intros p [<- | Hp].
      * simpl. split; [done |]. split; [done |].
        exists query, r, rest. by repeat split; try left.
      * destruct (Hweaken _ Hall p Hp) as (Hp' & ? & Hex).
        split; [intros ?; apply Hp'; by apply elem_of_union_r |]. by split.
Qed.

(** X19.  [_prepare_context] never gives the model the same article
    number twice.  Its parts have pairwise distinct article numbers; each
    search result that is the first with its article number has its part,
    labelled with its own position among the results; and every part is
    either the part of a search result or a "[Key Article]" part, which
    has one of the key numbers, a number no search result has, and comes
    from the best hit of that number's query. *)
Theorem context_parts_distinct (w : @World real)
    (search_results : list (Result.t real)) :
  let parts := context_parts w search_results in
  NoDup (map article_number parts) /\
  (forall j r, search_results !! j = Some r ->
     (forall j' r', j' < j -> search_results !! j' = Some r' ->
                    number_of r' <> number_of r) ->
     In (document_part j r) parts) /\
  (forall p, In p parts ->
     (exists j r, search_results !! j = Some r /\ p = document_part j r) \/
     (header p = key_header /\
      In (article_number p) (map fst _get_key_articles) /\
      (forall r, In r search_results -> number_of r <> article_number p) /\
      exists query r rest,
        In (article_number p, query) _get_key_articles /\
        search_similar w query 1 None = r :: rest /\
        number_of r = article_number p /\
        law_title p = Metadata.law_title (Result.metadata r) /\
        part_content p = Result.content r)).
Proof.
  intros parts. unfold parts, Assistant.context_parts.
  destruct (result_parts_spec 0 ∅ search_results)
    as (Hset & Hnodup & Hfrom & Hfirst).
  destruct (result_parts 0 ∅ search_results) as [ps seen] eqn:Hloop.
  simpl in Hset, Hnodup, Hfrom, Hfirst.
  destruct (key_parts_spec w seen _get_key_articles) as [Hknodup Hkeys].
  split; [| split].
  - rewrite map_app. apply NoDup_app. split; [done |]. split; [| done].
    intros k Hk%list_elem_of_In Hk'%list_elem_of_In.
    apply in_map_iff in Hk as (p & <- & Hp).
    apply in_map_iff in Hk' as (p' & Heq & Hp').
    destruct (Hfrom p Hp) as (_ & j & r & Hj & ->).
    destruct (Hkeys p' Hp') as (Hnot & _). apply Hnot. rewrite Heq.
    apply Hset. right. apply in_map_iff. exists r. split; [done |].
    apply list_elem_of_In. by eapply list_elem_of_lookup_2.
  - intros j r Hj Hocc. apply in_or_app. left.
    apply (Hfirst j r Hj); [apply not_elem_of_empty | done].
  - intros p [Hp | Hp]%in_app_or.
    + left. destruct (Hfrom p Hp) as (_ & j & r & Hj & ->). by exists j, r.
    + right. destruct (Hkeys p Hp) as (Hnot & Hhead & q & r & rest & Hin & Hrest).
      split; [done |]. split.
      { apply in_map_iff. by exists (article_number p, q). }
      split; [| by exists q, r, rest].
      intros r' Hr' Heq. apply Hnot, Hset. right.
      apply in_map_iff. by exists r'.
Qed.

End PrepareContextFacts.

End AssistantFacts.
